(** * Thread Anchor: a shallow embedding of the content scripts

    The development follows the layering of the extension:
    [Js] (the few JavaScript primitives the scripts rely on), [Dom]
    (page elements as handles that know their chain of parent elements),
    [Selectors] (selectors.js), [Ancestors] (ancestors.js),
    [ActiveComment] (activeComment.js) and [StickyUI] (stickyUI.js).
    [Util] (util.js), [Theme] (the colour helpers of stickyUI.js), [Css],
    [Document] and [PageSelectors] (the functions of selectors.js that query
    the page) and [Main] (main.js) complete them.
    Definitions come first; the properties of each layer follow in the
    modules whose names end in [Facts]. *)

From stdpp Require Import gmap strings list.
From Stdlib Require Import ZArith Lia Ascii String.
Abbreviation length := List.length (only parsing).

Local Open Scope string_scope.
Local Open Scope list_scope.
Local Open Scope nat_scope.

(* ===================================================================== *)
(** ** JavaScript primitives *)
(* ===================================================================== *)

Module Js.

(** Numbers produced by [parseInt] and by counting: an integer, NaN, or
    one of the two infinities.  The sign of zero is not tracked: [===]
    and [!] do not tell [-0] from [0]. *)
Inductive JsNum := NaN | Num (z : Z) | Infinity (negative : bool).

#[global] Instance JsNum_eq_dec : EqDecision JsNum.
Proof. solve_decision. Defined.

(** [!n] for a number: 0 and NaN are falsy. *)
Definition falsyNum (n : JsNum) : bool :=
  match n with NaN => true | Num z => Z.eqb z 0 | Infinity _ => false end.

(** [n++]; the scripts apply it to counts of parent elements, which start
    from 0 (or from NaN) and stay far below [2 ^ 53], where adding 1 is
    exact. *)
Definition incr (n : JsNum) : JsNum :=
  match n with NaN => NaN | Num z => Num (z + 1) | Infinity s => Infinity s end.

(** Identifier-like strings (tag names, class names, attribute values)
    are Stdlib strings, one [ascii] per code unit below 256. *)
Definition lower_ascii (c : ascii) : ascii :=
  let n := nat_of_ascii c in
  if ((65 <=? n) && (n <=? 90)) || ((192 <=? n) && (n <=? 222) && negb (n =? 215))
  then ascii_of_nat (n + 32) else c.

Fixpoint toLowerCase (s : string) : string :=
  match s with
  | EmptyString => EmptyString
  | String c r => String (lower_ascii c) (toLowerCase r)
  end.

(** [s.startsWith(p)] *)
Definition startsWith (s p : string) : bool := String.prefix p s.

(** A string is truthy when it is not empty. *)
Definition truthy (s : string) : bool :=
  match s with EmptyString => false | _ => true end.

(** [a || b] on nullable strings: the first truthy operand, else the last. *)
Definition orElse (a b : option string) : option string :=
  match a with
  | Some s => if truthy s then a else b
  | None => b
  end.

(** White space that [parseInt] skips, on code units below 256. *)
Definition isStrWhiteSpace (c : ascii) : bool :=
  let n := nat_of_ascii c in
  ((9 <=? n) && (n <=? 13)) || (n =? 32) || (n =? 160).

Definition digitOf (c : ascii) : option Z :=
  let n := nat_of_ascii c in
  if (48 <=? n) && (n <=? 57) then Some (Z.of_nat n - 48)%Z else None.

Fixpoint skipWhite (s : string) : string :=
  match s with
  | String c r => if isStrWhiteSpace c then skipWhite r else s
  | EmptyString => s
  end.

(** The longest prefix of decimal digits, read most significant first. *)
Fixpoint readDigits (s : string) (acc : option Z) : option Z :=
  match s with
  | String c r =>
      match digitOf c with
      | Some d => readDigits r (Some (10 * default 0%Z acc + d)%Z)
      | None => acc
      end
  | EmptyString => acc
  end.

(** A non-negative integer rounded to 53 significant bits, to the nearest
    and to the even one of two that are equally near: with
    [2 ^ e <= m < 2 ^ (e + 1)] and [53 <= e], the bits below [2 ^ (e - 52)]
    are cut off and the rest goes up by one when what was cut is more than
    half of [2 ^ (e - 52)], or is half of it and the rest is odd. *)
Definition roundToDouble (m : Z) : Z :=
  let e := Z.log2 m in
  if (e <? 53)%Z then m
  else
    let shift := (e - 52)%Z in
    let q := Z.shiftr m shift in
    let cut := (m - Z.shiftl q shift)%Z in
    let half := Z.shiftl 1 (shift - 1) in
    let q' := if (half <? cut)%Z || ((cut =? half)%Z && Z.odd q)
              then (q + 1)%Z else q in
    Z.shiftl q' shift.

(** The Number value for a mathematical integer: the nearest double, and
    an infinity from [2 ^ 1024] on. *)
Definition toNumber (z : Z) : JsNum :=
  let m := roundToDouble (Z.abs z) in
  if (2 ^ 1024 <=? m)%Z then Infinity (z <? 0)%Z
  else Num (if (z <? 0)%Z then (- m)%Z else m).

(** [parseInt(s, 10)]: the integer that the digits denote, as a Number.
    All the digits count (the language lets an implementation read the
    digits after the 20th as zeros; the browsers' engines read them all). *)
Definition parseInt10 (s : string) : JsNum :=
  let s1 := skipWhite s in
  let '(neg, s2) :=
    match s1 with
    | String "-" r => (true, r)
    | String "+" r => (false, r)
    | _ => (false, s1)
    end in
  match readDigits s2 None with
  | Some z => toNumber (if neg : bool then (- z)%Z else z)
  | None => NaN
  end.

(** Text content is a sequence of UTF-16 code units. *)
Definition Text := list N.

(** Code units that [String.prototype.trim] strips. *)
Definition isTrimmable (c : N) : bool :=
  ((9 <=? c) && (c <=? 13))%N || (c =? 32)%N || (c =? 160)%N ||
  (c =? 5760)%N || ((8192 <=? c) && (c <=? 8202))%N ||
  (c =? 8232)%N || (c =? 8233)%N || (c =? 8239)%N || (c =? 8287)%N ||
  (c =? 12288)%N || (c =? 65279)%N.

Fixpoint trimStart (t : Text) : Text :=
  match t with
  | c :: r => if isTrimmable c then trimStart r else t
  | [] => []
  end.

Definition trimEnd (t : Text) : Text := rev (trimStart (rev t)).

(** [t.trim()] *)
Definition trim (t : Text) : Text := trimEnd (trimStart t).

(** [t.slice(0, n)] *)
Definition slice0 (n : nat) (t : Text) : Text := take n t.

(** The three code units of ['...']. *)
Definition dots : Text := [46%N; 46%N; 46%N].

End Js.

(* ===================================================================== *)
(** ** Page elements *)
(* ===================================================================== *)

Module Dom.

(** What the scripts read off one element.  [nodeId] tells apart nodes
    that otherwise look the same. *)
Record ElemData := mkData {
  nodeId : nat;
  tagName : string;
  classList : list string;
  attributes : list (string * string)
}.

(** An element handle: the element together with its parent elements,
    nearest first.  The rendered page is a tree, so this chain is finite;
    two handles are the same object ([===]) when they are equal. *)
Record Element := mkElement {
  self : ElemData;
  ancestors : list ElemData
}.

#[global] Instance ElemData_eq_dec : EqDecision ElemData.
Proof. solve_decision. Defined.

#[global] Instance Element_eq_dec : EqDecision Element.
Proof. solve_decision. Defined.

#[global] Instance ElemData_countable : Countable ElemData.
Proof.
  refine (inj_countable'
    (fun d => (nodeId d, tagName d, classList d, attributes d))
    (fun t => let '(n, tg, cl, at_) := t in mkData n tg cl at_) _).
  intros []; reflexivity.
Defined.

#[global] Instance Element_countable : Countable Element.
Proof.
  refine (inj_countable'
    (fun e => (self e, ancestors e))
    (fun t => mkElement (fst t) (snd t)) _).
  intros []; reflexivity.
Defined.

(** [el.parentElement] *)
Definition parentElement (e : Element) : option Element :=
  match ancestors e with
  | [] => None
  | d :: up => Some (mkElement d up)
  end.

(** [el.classList.contains(c)] *)
Definition hasClass (d : ElemData) (c : string) : bool :=
  bool_decide (c ∈ classList d).

(** [el.getAttribute(name)] *)
Fixpoint assoc (name : string) (l : list (string * string)) : option string :=
  match l with
  | [] => None
  | (k, v) :: r => if String.eqb k name then Some v else assoc name r
  end.

Definition getAttribute (d : ElemData) (name : string) : option string :=
  assoc name (attributes d).

(** [el.id]: the reflected [id] attribute, empty when absent. *)
Definition idOf (d : ElemData) : string := default "" (getAttribute d "id").

(** Values a script can be handed where it expects an element. *)
Inductive JsValue :=
| JsNull
| JsUndefined
| JsString (s : string)
| JsNumber (n : Js.JsNum)
| JsElem (e : Element).

(** The compound selectors the scripts pass to [closest]. *)
Inductive Simple :=
| SelClass (c : string)
| SelId (i : string)
| SelAttr (name value : string).

Definition matchesSimple (d : ElemData) (s : Simple) : bool :=
  match s with
  | SelClass c => hasClass d c
  | SelId i => bool_decide (getAttribute d "id" = Some i)
  | SelAttr n v => bool_decide (getAttribute d n = Some v)
  end.

(** A selector list [a, b, c] matches when one of its members does. *)
Definition matches (d : ElemData) (sel : list Simple) : bool :=
  existsb (matchesSimple d) sel.

Fixpoint closestFrom (d : ElemData) (up : list ElemData) (sel : list Simple)
  : option Element :=
  if matches d sel then Some (mkElement d up)
  else match up with
       | [] => None
       | p :: up' => closestFrom p up' sel
       end.

(** [el.closest(sel)] *)
Definition closest (e : Element) (sel : list Simple) : option Element :=
  closestFrom (self e) (ancestors e) sel.

(** The strict ancestors of an element, as handles, nearest first. *)
Fixpoint handles (up : list ElemData) : list Element :=
  match up with
  | [] => []
  | d :: r => mkElement d r :: handles r
  end.

(** [anc.contains(e)]: [anc] is [e] or one of its ancestors. *)
Definition containsNode (anc e : Element) : bool :=
  bool_decide (anc = e) || bool_decide (anc ∈ handles (ancestors e)).

End Dom.

(* ===================================================================== *)
(** ** selectors.js *)
(* ===================================================================== *)

Module Selectors.
Import Js Dom.

(** The memoised result of [detectRedditVersion]. *)
Inductive RedditVersion := Old | New.

(** The module's WeakMaps that the embedded functions consult. *)
Record Caches := mkCaches {
  depthCache : gmap Element JsNum;
  idCache : gmap Element string
}.

Definition noCaches : Caches := mkCaches ∅ ∅.

Definition setDepth (c : Caches) (e : Element) (n : JsNum) : Caches :=
  mkCaches (<[e := n]> (depthCache c)) (idCache c).

Definition setId (c : Caches) (e : Element) (i : string) : Caches :=
  mkCaches (depthCache c) (<[e := i]> (idCache c)).

(** The excerpt part of [getCommentMeta], the same statements in both
    layouts; [bodyText] is the [textContent] of the body element the
    query found, [None] when it found none. *)
Definition excerptOfBody (bodyText : option Text) : Text :=
  match bodyText with
  | None => []
  | Some textContent =>
      let excerpt := slice0 150 (trim textContent) in
      if 150 <? length textContent then excerpt ++ dots else excerpt
  end.

Module OldReddit.

Definition isCommentData (d : ElemData) : bool :=
  hasClass d "thing" && hasClass d "comment".

Definition isCommentThing (v : JsValue) : bool :=
  match v with
  | JsElem e => isCommentData (self e)
  | _ => false
  end.

(** [el.getAttribute('data-fullname') || el.id || null] *)
Definition readId (d : ElemData) : option string :=
  orElse (orElse (getAttribute d "data-fullname") (Some (idOf d))) None.

Definition getCommentId (c : Caches) (v : JsValue) : option string * Caches :=
  match v with
  | JsElem e =>
      if negb (isCommentData (self e)) then (None, c)
      else match idCache c !! e with
           | Some i => (Some i, c)
           | None =>
               let id := readId (self e) in
               match id with
               | Some i => if truthy i then (id, setId c e i) else (id, c)
               | None => (id, c)
               end
           end
  | _ => (None, c)
  end.

(** The [while (current)] loop of [getIndentDepth]; [cur] is
    [current] followed by its own parent elements. *)
Fixpoint depthLoop (cur : list ElemData) (depth : JsNum) : JsNum :=
  match cur with
  | [] => depth
  | d :: up =>
      if hasClass d "siteTable" && hasClass d "nestedlisting" then depth
      else if truthy (idOf d) && startsWith (idOf d) "siteTable" then depth
      else depthLoop up (if hasClass d "child" then incr depth else depth)
  end.

Definition getIndentDepth (c : Caches) (v : JsValue) : JsNum * Caches :=
  match v with
  | JsElem e =>
      if negb (isCommentData (self e)) then (Num (-1), c)
      else match depthCache c !! e with
           | Some n => (n, c)
           | None =>
               let depth := depthLoop (ancestors e) (Num 0) in
               (depth, setDepth c e depth)
           end
  | _ => (Num (-1), c)
  end.

(** The [while (current)] loop of [getParentThing]. *)
Fixpoint parentLoop (cur : list ElemData) : option Element :=
  match cur with
  | [] => None
  | d :: up =>
      let found :=
        if hasClass d "child" then
          match up with
          | p :: up' => if isCommentData p then Some (mkElement p up') else None
          | [] => None
          end
        else None in
      match found with
      | Some parentComment => Some parentComment
      | None => if hasClass d "siteTable" then None else parentLoop up
      end
  end.

Definition getParentThing (v : JsValue) : option Element :=
  match v with
  | JsElem e =>
      if negb (isCommentData (self e)) then None else parentLoop (ancestors e)
  | _ => None
  end.

Definition getCommentMeta_excerpt := excerptOfBody.

End OldReddit.

Module NewReddit.

Definition isCommentData (d : ElemData) : bool :=
  String.eqb (toLowerCase (tagName d)) "shreddit-comment"
  || bool_decide (getAttribute d "data-testid" = Some "comment").

Definition isCommentThing (v : JsValue) : bool :=
  match v with
  | JsElem e => isCommentData (self e)
  | _ => false
  end.

(** [[a-z0-9]] under the [i] flag. *)
Definition isAlnum (c : ascii) : bool :=
  let n := nat_of_ascii c in
  ((48 <=? n) && (n <=? 57)) || ((97 <=? n) && (n <=? 122))
  || ((65 <=? n) && (n <=? 90)).

Fixpoint takeAlnum (s : string) : string :=
  match s with
  | String c r => if isAlnum c then String c (takeAlnum r) else ""
  | EmptyString => ""
  end.

Fixpoint dropStr (n : nat) (s : string) : string :=
  match n, s with
  | S m, String _ r => dropStr m r
  | _, _ => s
  end.

Definition matchHere (s : string) : option string :=
  if String.prefix "/comment/" (toLowerCase s) then
    let run := takeAlnum (dropStr 9 s) in
    if truthy run then Some run else None
  else None.

(** The first capture of [/\/comment\/([a-z0-9]+)/i], leftmost match. *)
Fixpoint matchCommentPermalink (s : string) : option string :=
  match matchHere s with
  | Some run => Some run
  | None =>
      match s with
      | String _ r => matchCommentPermalink r
      | EmptyString => None
      end
  end.

Definition isTruthy (o : option string) : bool :=
  match o with Some s => truthy s | None => false end.

Definition readId (d : ElemData) : option string :=
  let id := orElse (orElse (getAttribute d "thingid")
                           (getAttribute d "data-fullname"))
                   (getAttribute d "id") in
  if negb (isTruthy id) then
    match getAttribute d "permalink" with
    | Some permalink =>
        if truthy permalink then
          match matchCommentPermalink permalink with
          | Some run => Some (String.append "t1_" run)
          | None => id
          end
        else id
    | None => id
    end
  else id.

Definition getCommentId (c : Caches) (v : JsValue) : option string * Caches :=
  match v with
  | JsElem e =>
      if negb (isCommentData (self e)) then (None, c)
      else match idCache c !! e with
           | Some i => (Some i, c)
           | None =>
               let id := readId (self e) in
               match id with
               | Some i => if truthy i then (id, setId c e i) else (id, c)
               | None => (id, c)
               end
           end
  | _ => (None, c)
  end.

(** The fallback loop of [getIndentDepth]: the count is taken before
    the test for the tree root. *)
Fixpoint depthLoop (cur : list ElemData) (depth : JsNum) : JsNum :=
  match cur with
  | [] => depth
  | d :: up =>
      let depth' :=
        if truthy (tagName d)
           && String.eqb (toLowerCase (tagName d)) "shreddit-comment"
        then incr depth else depth in
      if truthy (tagName d)
         && String.eqb (toLowerCase (tagName d)) "shreddit-comment-tree"
      then depth'
      else depthLoop up depth'
  end.

Definition getIndentDepth (c : Caches) (v : JsValue) : JsNum * Caches :=
  match v with
  | JsElem e =>
      if negb (isCommentData (self e)) then (Num (-1), c)
      else match depthCache c !! e with
           | Some n => (n, c)
           | None =>
               let depth0 :=
                 parseInt10
                   (default "0" (orElse (getAttribute (self e) "depth")
                                        (Some "0"))) in
               let depth :=
                 if falsyNum depth0 then depthLoop (ancestors e) depth0
                 else depth0 in
               (depth, setDepth c e depth)
           end
  | _ => (Num (-1), c)
  end.

Fixpoint parentLoop (cur : list ElemData) : option Element :=
  match cur with
  | [] => None
  | d :: up =>
      if isCommentData d then Some (mkElement d up)
      else if truthy (tagName d)
              && String.eqb (toLowerCase (tagName d)) "shreddit-comment-tree"
      then None
      else parentLoop up
  end.

Definition getParentThing (v : JsValue) : option Element :=
  match v with
  | JsElem e =>
      if negb (isCommentData (self e)) then None else parentLoop (ancestors e)
  | _ => None
  end.

Definition getCommentMeta_excerpt := excerptOfBody.

End NewReddit.

(** The unified API: [getSelectors()] picks the layout's object. *)
Definition isCommentData (ver : RedditVersion) (d : ElemData) : bool :=
  match ver with
  | Old => OldReddit.isCommentData d
  | New => NewReddit.isCommentData d
  end.

Definition isCommentThing (ver : RedditVersion) (v : JsValue) : bool :=
  match ver with
  | Old => OldReddit.isCommentThing v
  | New => NewReddit.isCommentThing v
  end.

Definition getCommentId (ver : RedditVersion) (c : Caches) (v : JsValue)
  : option string * Caches :=
  match ver with
  | Old => OldReddit.getCommentId c v
  | New => NewReddit.getCommentId c v
  end.

Definition getIndentDepth (ver : RedditVersion) (c : Caches) (v : JsValue)
  : JsNum * Caches :=
  match ver with
  | Old => OldReddit.getIndentDepth c v
  | New => NewReddit.getIndentDepth c v
  end.

Definition getParentThing (ver : RedditVersion) (v : JsValue) : option Element :=
  match ver with
  | Old => OldReddit.getParentThing v
  | New => NewReddit.getParentThing v
  end.

Definition getCommentMeta_excerpt (ver : RedditVersion) : option Text -> Text :=
  match ver with
  | Old => OldReddit.getCommentMeta_excerpt
  | New => NewReddit.getCommentMeta_excerpt
  end.

End Selectors.

(* ===================================================================== *)
(** ** ancestors.js *)
(* ===================================================================== *)

Module Ancestors.
Import Js Dom.

(** Array objects live in a heap and are named by their address, so that
    two arrays with the same elements can still be told apart.
    [parentCache] and [chainCache] are the module's two WeakMaps; the
    second one holds the address of the cached array. *)
Record State := mkState {
  heap : gmap positive (list Element);
  parentCache : gmap Element (option Element);
  chainCache : gmap Element positive
}.

Definition initial : State := mkState ∅ ∅ ∅.

(** A new array object with the given elements. *)
Definition alloc (l : list Element) (st : State) : positive * State :=
  let r := fresh (dom (heap st)) in
  (r, mkState (<[r := l]> (heap st)) (parentCache st) (chainCache st)).

(** The elements of the array at address [r]. *)
Definition arrayAt (st : State) (r : positive) : list Element :=
  default [] (heap st !! r).

(** [arr.slice()] *)
Definition sliceCopy (r : positive) (st : State) : positive * State :=
  alloc (arrayAt st r) st.

(** What a caller holding the array at [r] can do to it. *)
Definition mutateArray (r : positive) (l : list Element) (st : State) : State :=
  mkState (<[r := l]> (heap st)) (parentCache st) (chainCache st).

Section Layout.
Variable ver : Selectors.RedditVersion.

Definition getParentCached (pc : gmap Element (option Element))
    (commentEl : Element)
  : option Element * gmap Element (option Element) :=
  match pc !! commentEl with
  | Some cached => (cached, pc)
  | None =>
      let parent := Selectors.getParentThing ver (JsElem commentEl) in
      (parent, <[commentEl := parent]> pc)
  end.

(** The loop [while (current) { chain.unshift(current); current =
    getParentCached(current) }].  One unit of [fuel] pays for one
    iteration; [None] means the loop was still running when the fuel
    ran out.  [chain] is the local array, whose address is taken when
    it is stored in [chainCache]. *)
Fixpoint walkUp (fuel : nat) (pc : gmap Element (option Element))
    (current : option Element) (chain : list Element)
  : option (list Element * gmap Element (option Element)) :=
  match current with
  | None => Some (chain, pc)
  | Some cur =>
      match fuel with
      | O => None
      | S fuel' =>
          let '(parent, pc') := getParentCached pc cur in
          walkUp fuel' pc' parent (cur :: chain)
      end
  end.

Definition computeAncestors (fuel : nat) (st : State) (v : JsValue)
  : option (positive * State) :=
  if negb (Selectors.isCommentThing ver v) then Some (alloc [] st)
  else
    match v with
    | JsElem commentEl =>
        match chainCache st !! commentEl with
        | Some cached => Some (sliceCopy cached st)
        | None =>
            match walkUp fuel (parentCache st) (Some commentEl) [] with
            | None => None
            | Some (chain, pc') =>
                let '(r, st1) := alloc chain (mkState (heap st) pc' (chainCache st)) in
                let st2 := mkState (heap st1) (parentCache st1)
                                   (<[commentEl := r]> (chainCache st1)) in
                Some (sliceCopy r st2)
            end
        end
    | _ => Some (alloc [] st)
    end.

Definition getDepth (fuel : nat) (st : State) (v : JsValue)
  : option (Z * State) :=
  match computeAncestors fuel st v with
  | None => None
  | Some (chain, st') =>
      Some (Z.max 0 (Z.of_nat (length (arrayAt st' chain)) - 1), st')
  end.

Definition getTopLevelAncestor (fuel : nat) (st : State) (v : JsValue)
  : option (option Element * State) :=
  match computeAncestors fuel st v with
  | None => None
  | Some (chain, st') =>
      Some (if 0 <? length (arrayAt st' chain)
            then arrayAt st' chain !! 0 else None, st')
  end.

Definition shareTopLevel (fuel : nat) (st : State) (comment1 comment2 : JsValue)
  : option (bool * State) :=
  match getTopLevelAncestor fuel st comment1 with
  | None => None
  | Some (top1, st1) =>
      match getTopLevelAncestor fuel st1 comment2 with
      | None => None
      | Some (top2, st2) =>
          Some (bool_decide (top1 ≠ None) && bool_decide (top1 = top2), st2)
      end
  end.

(** [for (let i = chain2.length - 1; i >= 0; i--)], with [n = i + 1]. *)
Fixpoint scanDown (set1 : gset Element) (chain2 : list Element) (n : nat)
  : option Element :=
  match n with
  | O => None
  | S i =>
      match chain2 !! i with
      | Some x => if bool_decide (x ∈ set1) then Some x else scanDown set1 chain2 i
      | None => scanDown set1 chain2 i
      end
  end.

Definition findCommonAncestor (fuel : nat) (st : State)
    (comment1 comment2 : JsValue)
  : option (option Element * State) :=
  match computeAncestors fuel st comment1 with
  | None => None
  | Some (chain1, st1) =>
      match computeAncestors fuel st1 comment2 with
      | None => None
      | Some (chain2, st2) =>
          let set1 : gset Element := list_to_set (arrayAt st2 chain1) in
          let c2 := arrayAt st2 chain2 in
          Some (scanDown set1 c2 (length c2), st2)
      end
  end.

(** The elements of the array a call of [computeAncestors] returns. *)
Definition chainElements (fuel : nat) (st : State) (v : JsValue)
  : option (list Element) :=
  match computeAncestors fuel st v with
  | Some (chain, st') => Some (arrayAt st' chain)
  | None => None
  end.

(** [clearCache] only writes to the console. *)
Definition clearCache (st : State) : State := st.

Definition invalidate (st : State) (v : JsValue) : State :=
  match v with
  | JsElem commentEl =>
      mkState (heap st) (delete commentEl (parentCache st))
              (delete commentEl (chainCache st))
  | _ => st
  end.

End Layout.

End Ancestors.

(* ===================================================================== *)
(** ** activeComment.js *)
(* ===================================================================== *)

Module ActiveComment.
Import Js Dom.

Section Tracker.
(** [World] is whatever the registered callback works on (the sticky
    header, the orchestrator's variables); [Error] is what it may throw. *)
Variables World Error : Type.
Variable ver : Selectors.RedditVersion.
(** [document.body] *)
Variable body : Element.

(** A callback either returns or throws; either way it may have changed
    its world. *)
Definition Callback := option Element -> World -> World * option Error.

(** The module's variables, together with the callback's world, the
    console and a record of the calls made to the callback. *)
Record State := mkState {
  isActive : bool;
  onChangeCallback : option Callback;
  currentAnchored : option Element;
  world : World;
  consoleErrors : list (string * Error);
  calls : list (option Element)
}.

(** How a function call ends. *)
Inductive Completion := Returned | Thrown (e : Error).

Fixpoint findFrom (d : ElemData) (up : list ElemData) : option Element :=
  if bool_decide (mkElement d up = body) then None
  else if Selectors.isCommentData ver d then Some (mkElement d up)
  else match up with
       | [] => None
       | p :: up' => findFrom p up'
       end.

Definition findCommentFromTarget (target : Element) : option Element :=
  findFrom (self target) (ancestors target).

Definition bodySelector : list Simple :=
  [SelClass "md"; SelAttr "slot" "comment"; SelAttr "data-testid" "comment"].
Definition voteSelector : list Simple :=
  [SelClass "arrow"; SelAttr "data-click-id" "upvote";
   SelAttr "data-click-id" "downvote"].
Definition expandSelector : list Simple :=
  [SelClass "expand"; SelAttr "data-testid" "comment-collapse-toggle"].
Definition stickySelector : list Simple := [SelId "ta-sticky-container"].

Definition isValidClickTarget (target comment : Element) : bool :=
  if String.eqb (tagName (self target)) "A"
     && negb (bool_decide (is_Some (closest target bodySelector)))
  then false
  else if String.eqb (tagName (self target)) "BUTTON" then false
  else if String.eqb (tagName (self target)) "INPUT"
          || String.eqb (tagName (self target)) "TEXTAREA" then false
  else if bool_decide (is_Some (closest target voteSelector)) then false
  else if bool_decide (is_Some (closest target expandSelector)) then false
  else true.

(** [onChangeCallback(currentAnchored)]: the call is recorded, the
    callback's effect on its world is kept, and its exception, if any,
    becomes the completion of the call. *)
Definition callCallback (cb : Callback) (st : State) : State * Completion :=
  let '(w, outcome) := cb (currentAnchored st) (world st) in
  (mkState (isActive st) (onChangeCallback st) (currentAnchored st)
           w (consoleErrors st) (calls st ++ [currentAnchored st]),
   match outcome with
   | None => Returned
   | Some error => Thrown error
   end).

(** [console.error(msg, error)] *)
Definition consoleError (msg : string) (error : Error) (st : State)
  : State * Completion :=
  (mkState (isActive st) (onChangeCallback st) (currentAnchored st)
           (world st) (consoleErrors st ++ [(msg, error)]) (calls st),
   Returned).

(** [try { body } catch (error) { handler }] *)
Definition tryCatch (body : State -> State * Completion)
    (handler : Error -> State -> State * Completion) (st : State)
  : State * Completion :=
  match body st with
  | (st1, Returned) => (st1, Returned)
  | (st1, Thrown error) => handler error st1
  end.

Definition setAnchored (comment : option Element) (st : State)
  : State * Completion :=
  if bool_decide (comment = currentAnchored st) then (st, Returned)
  else
    let st1 := mkState (isActive st) (onChangeCallback st) comment
                       (world st) (consoleErrors st) (calls st) in
    match onChangeCallback st1 with
    | Some cb =>
        tryCatch (callCallback cb)
                 (consoleError "[ActiveComment] Callback error:") st1
    | None => (st1, Returned)
    end.

Definition handleCommentClick (target : Element) (st : State)
  : State * Completion :=
  if negb (isActive st) then (st, Returned)
  else
    match findCommentFromTarget target with
    | None => (st, Returned)
    | Some comment =>
        if negb (isValidClickTarget target comment) then (st, Returned)
        else if bool_decide (Some comment = currentAnchored st)
             then setAnchored None st
             else setAnchored (Some comment) st
    end.

Definition handleDocumentClick (target : Element) (st : State)
  : State * Completion :=
  if negb (isActive st) || negb (bool_decide (is_Some (currentAnchored st)))
  then (st, Returned)
  else
    match findCommentFromTarget target with
    | Some _ => (st, Returned)
    | None =>
        match closest target stickySelector with
        | Some _ => (st, Returned)
        | None => setAnchored None st
        end
    end.

(** [init] registers [handleCommentClick] for the capture phase and
    [handleDocumentClick] for the bubble phase, both on the document. *)
Definition init (onActiveChange : option Callback) (st : State) : State :=
  if isActive st then st
  else mkState true onActiveChange (currentAnchored st) (world st)
               (consoleErrors st) (calls st).

Definition destroy (st : State) : State :=
  if negb (isActive st) then st
  else mkState false None None (world st) (consoleErrors st) (calls st).

Definition getActive (st : State) : option Element := currentAnchored st.

(** A click reaches the capture listener and then, unless the page
    stopped its propagation, the bubble listener.  A listener that
    throws does not keep the next one from running. *)
Inductive Delivery := CaptureOnly | CaptureThenBubble.

Definition click (how : Delivery) (target : Element) (st : State)
  : State * list Completion :=
  let '(st1, c1) := handleCommentClick target st in
  match how with
  | CaptureOnly => (st1, [c1])
  | CaptureThenBubble =>
      let '(st2, c2) := handleDocumentClick target st1 in
      (st2, [c1; c2])
  end.

End Tracker.

Arguments mkState {World Error}.
Arguments isActive {World Error}.
Arguments onChangeCallback {World Error}.
Arguments currentAnchored {World Error}.
Arguments world {World Error}.
Arguments consoleErrors {World Error}.
Arguments calls {World Error}.
Arguments Returned {Error}.
Arguments Thrown {Error}.
Arguments setAnchored {World Error}.
Arguments callCallback {World Error}.
Arguments consoleError {World Error}.
Arguments tryCatch {World Error}.
Arguments handleCommentClick {World Error}.
Arguments handleDocumentClick {World Error}.
Arguments click {World Error}.
Arguments init {World Error}.
Arguments destroy {World Error}.
Arguments getActive {World Error}.

End ActiveComment.

(* ===================================================================== *)
(** ** stickyUI.js *)
(* ===================================================================== *)

Module StickyUI.
Import Js Dom.

(** What [Selectors.getOriginalPost] hands over. *)
Record OpMeta := mkOpMeta {
  title : string;
  author : string;
  score : string;
  subreddit : string;
  url : string;
  postId : string
}.

(** A row of the header, named by the call that built it: [createOPRow]
    or [createRow].  [commentId] is the row's [dataset.commentId]; the
    other texts of a row are read from the comment's own subtree. *)
Inductive Row :=
| OPRow (opMeta : OpMeta) (compact : bool)
| CommentRow (comment : Element) (depth : nat) (compact : bool)
             (commentId : string).

(** [div#ta-sticky-container]: its [visible] class, its child rows and
    its [style.top] in pixels. *)
Record Container := mkContainer {
  visible : bool;
  children : list Row;
  top : Z
}.

Record Config := mkConfig {
  depth : Z;
  compact : bool;
  theme : string;
  manualColors : option (list (string * string))
}.

(** The part of the page that the header code reads or writes besides
    its own container: which elements are in the document (the page is
    taken as unchanged while the header code runs), which carry the class
    [ta-active-comment], the parent of every [.ta-active-icon] span, and
    the bounding box (top, height, bottom) of [#header]. *)
Record Page := mkPage {
  inDocument : Element -> bool;
  activeClass : list Element;
  icons : list Element;
  headerRect : option (Z * Z * Z)
}.

Record State := mkState {
  container : option Container;
  isActive : bool;
  config : Config;
  currentChainIds : list string;
  redditHeaderHeight : Z;
  currentActiveComment : option Element;
  page : Page;
  selectors : Selectors.Caches
}.

Definition defaultConfig : Config := mkConfig 3 true "dark" None.

Definition initial (p : Page) : State :=
  mkState None false defaultConfig [] 0 None p Selectors.noCaches.

Definition withContainer (c : option Container) (st : State) : State :=
  mkState c (isActive st) (config st) (currentChainIds st)
          (redditHeaderHeight st) (currentActiveComment st) (page st)
          (selectors st).
Definition withActive (b : bool) (st : State) : State :=
  mkState (container st) b (config st) (currentChainIds st)
          (redditHeaderHeight st) (currentActiveComment st) (page st)
          (selectors st).
Definition withConfig (c : Config) (st : State) : State :=
  mkState (container st) (isActive st) c (currentChainIds st)
          (redditHeaderHeight st) (currentActiveComment st) (page st)
          (selectors st).
Definition withChainIds (l : list string) (st : State) : State :=
  mkState (container st) (isActive st) (config st) l
          (redditHeaderHeight st) (currentActiveComment st) (page st)
          (selectors st).
Definition withHeaderHeight (h : Z) (st : State) : State :=
  mkState (container st) (isActive st) (config st) (currentChainIds st)
          h (currentActiveComment st) (page st) (selectors st).
Definition withActiveComment (a : option Element) (st : State) : State :=
  mkState (container st) (isActive st) (config st) (currentChainIds st)
          (redditHeaderHeight st) a (page st) (selectors st).
Definition withPage (p : Page) (st : State) : State :=
  mkState (container st) (isActive st) (config st) (currentChainIds st)
          (redditHeaderHeight st) (currentActiveComment st) p (selectors st).
Definition withSelectors (c : Selectors.Caches) (st : State) : State :=
  mkState (container st) (isActive st) (config st) (currentChainIds st)
          (redditHeaderHeight st) (currentActiveComment st) (page st) c.

(** [el.classList.add('ta-active-comment')] and [.remove(...)] *)
Definition addClass (e : Element) (l : list Element) : list Element :=
  if bool_decide (e ∈ l) then l else e :: l.
Definition removeClass (e : Element) (l : list Element) : list Element :=
  filter (fun x => x ≠ e) l.

(** [el.querySelector('.ta-active-icon')], as the parent of the span
    found: a span that is a child of [el] itself was inserted as its first
    child and comes first; otherwise one inside a descendant. *)
Definition queryIcon (ic : list Element) (e : Element) : option Element :=
  if bool_decide (e ∈ ic) then Some e
  else List.find (fun host => containsNode e host) ic.

(** [icon.remove()] for one span whose parent is [host]. *)
Fixpoint removeOne (host : Element) (ic : list Element) : list Element :=
  match ic with
  | [] => []
  | x :: r => if bool_decide (x = host) then r else x :: removeOne host r
  end.

Definition detectRedditHeaderHeight (p : Page) : Z :=
  match headerRect p with
  | Some (rtop, rheight, rbottom) =>
      if (- rheight <=? rtop)%Z then Z.max 0 rbottom else 0%Z
  | None => 0%Z
  end.

Definition updateContainerPosition (st : State) : State :=
  match container st with
  | None => st
  | Some c =>
      let h := detectRedditHeaderHeight (page st) in
      withContainer (Some (mkContainer (visible c) (children c) h))
                    (withHeaderHeight h st)
  end.

Definition createContainer (st : State) : State :=
  match container st with
  | Some _ => st
  | None => updateContainerPosition
              (withContainer (Some (mkContainer false [] 0)) st)
  end.

(** [arr.slice(0, n)] for an integer [n]: a negative [n] counts from the
    end. *)
Definition sliceTo {A} (n : Z) (l : list A) : list A :=
  if (n <? 0)%Z then take (Z.to_nat (Z.of_nat (length l) + n)) l
  else take (Z.to_nat n) l.

(** [String(b)] in a template literal. *)
Definition showBool (b : bool) : string := if b then "true" else "false".

(** [ids.join(',')]: [null] prints as the empty string. *)
Definition joinIds (ids : list (option string)) : string :=
  String.concat "," (map (default "") ids).

Section Layout.
Variable ver : Selectors.RedditVersion.

(** [displayChain.map(c => Selectors.getCommentId(c))] *)
Fixpoint mapIds (c : Selectors.Caches) (l : list Element)
  : list (option string) * Selectors.Caches :=
  match l with
  | [] => ([], c)
  | e :: r =>
      let '(i, c1) := Selectors.getCommentId ver c (JsElem e) in
      let '(rest, c2) := mapIds c1 r in
      (i :: rest, c2)
  end.

Definition createRow (c : Selectors.Caches) (comment : Element) (depth : nat)
    (compact : bool) : Row * Selectors.Caches :=
  let '(commentId, c1) := Selectors.getCommentId ver c (JsElem comment) in
  (CommentRow comment depth compact
              (default "" (orElse commentId (Some ""))), c1).

(** [displayChain.forEach((comment, index) => ... createRow(comment,
    index + 1, compact) ...)], from position [index] on. *)
Fixpoint createRows (c : Selectors.Caches) (l : list Element) (index : nat)
    (compact : bool) : list Row * Selectors.Caches :=
  match l with
  | [] => ([], c)
  | comment :: r =>
      let '(row, c1) := createRow c comment (index + 1) compact in
      let '(rows, c2) := createRows c1 r (S index) compact in
      (row :: rows, c2)
  end.

(** The first block of [updateActiveHighlight]: take the class and the
    icon off the previous active comment. *)
Definition unmark (cur : Element) (p : Page) : Page :=
  let cls := removeClass cur (activeClass p) in
  match queryIcon (icons p) cur with
  | Some host => mkPage (inDocument p) cls (removeOne host (icons p)) (headerRect p)
  | None => mkPage (inDocument p) cls (icons p) (headerRect p)
  end.

(** Its second block: give the class to the new active comment, and an
    icon as its first child unless it has one. *)
Definition mark (new : Element) (p : Page) : Page :=
  let cls := addClass new (activeClass p) in
  match queryIcon (icons p) new with
  | None => mkPage (inDocument p) cls (new :: icons p) (headerRect p)
  | Some _ => mkPage (inDocument p) cls (icons p) (headerRect p)
  end.

Definition updateActiveHighlight (newActiveComment : option Element)
    (st : State) : State :=
  let p := page st in
  let p1 :=
    match currentActiveComment st with
    | Some cur => if bool_decide (Some cur <> newActiveComment) then unmark cur p else p
    | None => p
    end in
  let p2 :=
    match newActiveComment with
    | Some new => if inDocument p1 new then mark new p1 else p1
    | None => p1
    end in
  withActiveComment newActiveComment (withPage p2 st).

Definition hide (activeComment : option Element) (st : State) : State :=
  match container st with
  | None => st
  | Some c =>
      updateActiveHighlight activeComment
        (withChainIds []
           (withContainer (Some (mkContainer false [] (top c))) st))
  end.

Definition chainKey (opMeta : option OpMeta) (ids : list (option string))
    (compact : bool) : string :=
  let opId := match opMeta with
              | Some m => if truthy (postId m) then postId m else "op"
              | None => ""
              end in
  String.append opId
    (String.append "|"
       (String.append (joinIds ids) (String.append "|" (showBool compact)))).

Definition render (chain : list Element) (depth : Z) (compact : bool)
    (activeComment : option Element) (opMeta : option OpMeta) (st : State)
  : State :=
  match container st with
  | None => st
  | Some c0 =>
      if negb (isActive st) then st
      else
        let st1 := withConfig (mkConfig depth compact (theme (config st))
                                        (manualColors (config st))) st in
        let displayChain := sliceTo depth chain in
        let '(ids, sel1) := mapIds (selectors st1) displayChain in
        let st2 := withSelectors sel1 st1 in
        let newChainKey := chainKey opMeta ids compact in
        if String.eqb newChainKey (String.concat "" (currentChainIds st2))
           && visible c0
        then updateActiveHighlight activeComment st2
        else
          let st3 := withChainIds [newChainKey] st2 in
          let opRows := match opMeta with
                        | Some m => [OPRow m compact]
                        | None => []
                        end in
          let '(rows, sel2) := createRows (selectors st3) displayChain 0 compact in
          let st4 := withSelectors sel2
                       (withContainer
                          (Some (mkContainer (visible c0) (opRows ++ rows) (top c0)))
                          st3) in
          if negb (bool_decide (is_Some opMeta))
             && (length displayChain =? 0)
          then hide None st4
          else
            let st5 := updateActiveHighlight activeComment st4 in
            match container st5 with
            | Some c5 =>
                updateContainerPosition
                  (withContainer
                     (Some (mkContainer true (children c5) (top c5))) st5)
            | None => st5
            end
  end.

(** The options of [init]: each key may be missing. *)
Record Options := mkOptions {
  optDepth : option Z;
  optCompact : option bool;
  optTheme : option string;
  optManualColors : option (option (list (string * string)))
}.

Definition mergeConfig (c : Config) (o : Options) : Config :=
  mkConfig (default (depth c) (optDepth o))
           (default (compact c) (optCompact o))
           (default (theme c) (optTheme o))
           (default (manualColors c) (optManualColors o)).

Definition init (options : Options) (st : State) : State :=
  if isActive st then withConfig (mergeConfig (config st) options) st
  else createContainer
         (withActive true (withConfig (mergeConfig (config st) options) st)).

Definition setTheme (th : string) (colors : option (list (string * string)))
    (st : State) : State :=
  withChainIds []
    (withConfig (mkConfig (depth (config st)) (compact (config st)) th colors) st).

Definition destroy (st : State) : State :=
  if negb (isActive st) then st
  else
    let st1 :=
      match currentActiveComment st with
      | Some cur => withActiveComment None (withPage (unmark cur (page st)) st)
      | None => st
      end in
    withActive false (withChainIds [] (withContainer None st1)).

Definition isVisible (st : State) : bool :=
  match container st with
  | Some c => visible c
  | None => false
  end.

End Layout.

End StickyUI.

(* ===================================================================== *)
(** ** Reference notions for the ancestor chain *)
(* ===================================================================== *)

Module Chains.
Import Js Dom.

(** The largest number of loop iterations a walk from [v] can need. *)
Definition rank (v : JsValue) : nat :=
  match v with
  | JsElem e => S (length (ancestors e))
  | _ => 0
  end.

Definition rankOf (current : option Element) : nat :=
  match current with
  | Some e => S (length (ancestors e))
  | None => 0
  end.

Section Layout.
Variable ver : Selectors.RedditVersion.

(** The walk of [computeAncestors] with every parent looked up afresh. *)
Fixpoint chainUp (fuel : nat) (current : option Element)
    (chain : list Element) : list Element :=
  match current with
  | None => chain
  | Some cur =>
      match fuel with
      | O => chain
      | S fuel' =>
          chainUp fuel' (Selectors.getParentThing ver (JsElem cur)) (cur :: chain)
      end
  end.

Definition chainOf (e : Element) : list Element :=
  chainUp (S (length (ancestors e))) (Some e) [].

(** The chain of an arbitrary value: empty unless it is a comment. *)
Definition chainOfValue (v : JsValue) : list Element :=
  match v with
  | JsElem e => if Selectors.isCommentData ver (self e) then chainOf e else []
  | _ => []
  end.

(** Every remembered parent is the one the tree walker finds. *)
Definition parentsCoherent (pc : gmap Element (option Element)) : Prop :=
  forall e p, pc !! e = Some p -> p = Selectors.getParentThing ver (JsElem e).

(** Every remembered parent is a strict ancestor: no cycle. *)
Definition acyclic (pc : gmap Element (option Element)) : Prop :=
  forall e p, pc !! e = Some (Some p) ->
              length (ancestors p) < length (ancestors e).

(** The caches agree with the page they were filled from.  Every state
    reached from [Ancestors.initial] on an unchanged page is of this
    kind. *)
Record coherent (st : Ancestors.State) : Prop := mkCoherent {
  coh_parents : parentsCoherent (Ancestors.parentCache st);
  coh_chains : forall e r, Ancestors.chainCache st !! e = Some r ->
                           Ancestors.heap st !! r = Some (chainOf e)
}.

End Layout.

(** No cached chain lives at address [r]. *)
Definition notCached (st : Ancestors.State) (r : positive) : Prop :=
  forall e c, Ancestors.chainCache st !! e = Some c -> c <> r.

(** A chain cached in [st'] was cached in [st] or lives at an address
    that was free in [st]. *)
Definition cacheGrows (st st' : Ancestors.State) : Prop :=
  forall e c, Ancestors.chainCache st' !! e = Some c ->
              Ancestors.chainCache st !! e = Some c \/ Ancestors.heap st !! c = None.

(** Arrays that exist in [st] still exist, unchanged, in [st']. *)
Definition heapExtends (st st' : Ancestors.State) : Prop :=
  forall r l, Ancestors.heap st !! r = Some l -> Ancestors.heap st' !! r = Some l.

End Chains.

(* ===================================================================== *)
(** ** Reference notions for the indent depth *)
(* ===================================================================== *)

Module Nesting.
Import Js Dom Selectors.

(** The depth [getIndentDepth] computes when it has nothing cached. *)
Definition depthOf (ver : RedditVersion) (e : Element) : JsNum :=
  fst (getIndentDepth ver noCaches (JsElem e)).

(** Every remembered depth is the one the walk computes. *)
Definition depthsCoherent (ver : RedditVersion) (c : Caches) : Prop :=
  forall e n, depthCache c !! e = Some n -> n = depthOf ver e.

Definition parentLoop (ver : RedditVersion) : list ElemData -> option Element :=
  match ver with
  | Old => OldReddit.parentLoop
  | New => NewReddit.parentLoop
  end.

Definition depthLoop (ver : RedditVersion) : list ElemData -> JsNum -> JsNum :=
  match ver with
  | Old => OldReddit.depthLoop
  | New => NewReddit.depthLoop
  end.

(** Where the depth walk of the first layout stops. *)
Definition stopsDepthWalk (d : ElemData) : bool :=
  hasClass d "siteTable" && hasClass d "nestedlisting"
  || truthy (idOf d) && startsWith (idOf d) "siteTable".

(** Markup on which the two walks of the first layout read the same
    nesting: up to the first element where the depth walk stops, no
    element has the class [siteTable], every [.child] container sits
    directly in a comment that is neither a [.child] container nor a
    stopping point itself, and the element where the depth walk stops
    has the class [siteTable] and is not a [.child] container. *)
Fixpoint wellNestedOld (cur : list ElemData) : bool :=
  match cur with
  | [] => true
  | d :: up =>
      if stopsDepthWalk d then hasClass d "siteTable" && negb (hasClass d "child")
      else
        negb (hasClass d "siteTable")
        && (if hasClass d "child" then
              match up with
              | p :: _ => OldReddit.isCommentData p && negb (hasClass p "child")
                          && negb (stopsDepthWalk p)
              | [] => false
              end
            else true)
        && wellNestedOld up
  end.

Definition isTag (d : ElemData) (tag : string) : bool :=
  truthy (tagName d) && String.eqb (toLowerCase (tagName d)) tag.

(** The same for the second layout: up to the comment tree's root, every
    element classified as a comment is a [shreddit-comment] element. *)
Fixpoint wellNestedNew (cur : list ElemData) : bool :=
  match cur with
  | [] => true
  | d :: up =>
      if NewReddit.isCommentData d then isTag d "shreddit-comment" && wellNestedNew up
      else if isTag d "shreddit-comment-tree" then true
      else wellNestedNew up
  end.

Definition wellNestedAbove (ver : RedditVersion) : list ElemData -> bool :=
  match ver with
  | Old => wellNestedOld
  | New => wellNestedNew
  end.

(** In the second layout the comment must also carry no depth marker of
    its own, or the marker 0, for the count to be taken at all. *)
Definition wellNested (ver : RedditVersion) (e : Element) : bool :=
  match ver with
  | Old => wellNestedOld (ancestors e)
  | New =>
      bool_decide (parseInt10 (default "0" (orElse (getAttribute (self e) "depth")
                                                   (Some "0"))) = Num 0)
      && wellNestedNew (ancestors e)
  end.

End Nesting.

(* ===================================================================== *)
(** ** Reference notions for the anchor tracker *)
(* ===================================================================== *)

Module Tracker.
Import Js Dom ActiveComment.

(** The two states of the tracker. *)
Inductive TrackerState := Idle | Anchored (node : Element).

Definition stateOf {World Error} (st : State World Error) : TrackerState :=
  match currentAnchored st with
  | None => Idle
  | Some node => Anchored node
  end.

(** The click targets that must not move the anchor: a link outside the
    comment's text body, a button, a form input, and anything inside a vote
    control or an expand/collapse control. *)
Definition excludedControl (target : Element) : Prop :=
  (tagName (self target) = "A" /\ closest target bodySelector = None)
  \/ tagName (self target) = "BUTTON"
  \/ tagName (self target) = "INPUT"
  \/ tagName (self target) = "TEXTAREA"
  \/ is_Some (closest target voteSelector)
  \/ is_Some (closest target expandSelector).

End Tracker.

(* ===================================================================== *)
(** ** Reference notions for the sticky header *)
(* ===================================================================== *)

Module Header.
Import Js Dom StickyUI.

(** The id [Selectors.getCommentId] answers for [e] when its caches are [c]. *)
Definition idFrom (ver : Selectors.RedditVersion) (c : Selectors.Caches)
    (e : Element) : option string :=
  fst (Selectors.getCommentId ver c (JsElem e)).

(** [commentId || ''] *)
Definition rowId (i : option string) : string := default "" (orElse i (Some "")).

(** The ancestor rows of a header built for [l], the first one at
    position [index]. *)
Fixpoint rowsOf (ver : Selectors.RedditVersion) (c : Selectors.Caches)
    (l : list Element) (index : nat) (compact : bool) : list Row :=
  match l with
  | [] => []
  | e :: r => CommentRow e (index + 1) compact (rowId (idFrom ver c e))
              :: rowsOf ver c r (S index) compact
  end.

(** The origin row, present when origin metadata is. *)
Definition originRows (opMeta : option OpMeta) (compact : bool) : list Row :=
  match opMeta with
  | Some m => [OPRow m compact]
  | None => []
  end.

(** The content fingerprint of a call of [render] in state [st]. *)
Definition fingerprint (ver : Selectors.RedditVersion) (st : State)
    (chain : list Element) (depth : Z) (compact : bool)
    (opMeta : option OpMeta) : string :=
  chainKey opMeta (map (idFrom ver (selectors st)) (sliceTo depth chain)) compact.

(** The fingerprint of the previous render, as [render] reads it. *)
Definition previousFingerprint (st : State) : string :=
  String.concat "" (currentChainIds st).

(** An element carries the marker when it has the class or holds an icon. *)
Definition carries (p : Page) (e : Element) : Prop :=
  e ∈ activeClass p \/ e ∈ icons p.

(** The marker is where the header code believes it to be: on the active
    element, once, when that element is in the document, and nowhere
    else. *)
Definition markerExact (p : Page) (cur : option Element) : Prop :=
  match cur with
  | Some e =>
      if inDocument p e then activeClass p = [e] /\ icons p = [e]
      else activeClass p = [] /\ icons p = []
  | None => activeClass p = [] /\ icons p = []
  end.

(** The three entry points that touch the marker. *)
Inductive Call :=
| CallRender (chain : list Element) (depth : Z) (compact : bool)
             (activeComment : option Element) (opMeta : option OpMeta)
| CallHide (activeComment : option Element)
| CallHighlight (newActiveComment : option Element).

Definition run (ver : Selectors.RedditVersion) (call : Call) (st : State) : State :=
  match call with
  | CallRender chain depth compact activeComment opMeta =>
      render ver chain depth compact activeComment opMeta st
  | CallHide activeComment => hide activeComment st
  | CallHighlight newActiveComment => updateActiveHighlight newActiveComment st
  end.

End Header.

(* ===================================================================== *)
(** ** Sample pages *)
(* ===================================================================== *)

Module Pages.
Import Js Dom.

(** A comment page in the first layout: a top-level comment and one
    reply, the reply inside the comment's [.child] container. *)
Definition html : ElemData := mkData 1 "HTML" [] [].
Definition bodyD : ElemData := mkData 2 "BODY" [] [].
Definition content : ElemData := mkData 3 "DIV" ["content"] [].
Definition commentarea : ElemData := mkData 4 "DIV" ["commentarea"] [].
Definition rootTable : ElemData :=
  mkData 5 "DIV" ["sitetable"; "nestedlisting"] [("id", "siteTable_t3_abc")].
Definition topD : ElemData :=
  mkData 6 "DIV" ["thing"; "comment"] [("data-fullname", "t1_a")].
Definition childD : ElemData := mkData 7 "DIV" ["child"] [].
Definition nestedTable : ElemData :=
  mkData 8 "DIV" ["sitetable"; "listing"] [("id", "siteTable_t1_a")].
Definition replyD : ElemData :=
  mkData 9 "DIV" ["thing"; "comment"] [("data-fullname", "t1_b")].

Definition body : Element := mkElement bodyD [html].
Definition aboveComments : list ElemData :=
  [rootTable; commentarea; content; bodyD; html].
Definition topComment : Element := mkElement topD aboveComments.
Definition reply : Element :=
  mkElement replyD (nestedTable :: childD :: topD :: aboveComments).

(** Places to click inside the top-level comment: its vote arrow and a
    paragraph of its text. *)
Definition voteArrow : Element :=
  mkElement (mkData 11 "DIV" ["arrow"; "up"] [])
            (mkData 10 "DIV" ["midcol"] [] :: topD :: aboveComments).
Definition paragraph : Element :=
  mkElement (mkData 14 "P" [] [])
            (mkData 13 "DIV" ["md"] [] :: mkData 12 "DIV" ["entry"] []
             :: topD :: aboveComments).

(** A top-level comment of the second layout whose own depth marker says 5. *)
Definition shredditTop : Element :=
  mkElement (mkData 21 "SHREDDIT-COMMENT" [] [("thingid", "t1_x"); ("depth", "5")])
            [mkData 20 "SHREDDIT-COMMENT-TREE" [] []; bodyD; html].

(** A sample tracker: its callback counts its calls and always throws. *)
Definition throwing : ActiveComment.Callback nat string :=
  fun _ n => (S n, Some "boom").
Definition sampleTracker (anchored : option Element)
  : ActiveComment.State nat string :=
  ActiveComment.mkState true (Some throwing) anchored 0 [] [].

(** A reply to the reply, for chains of three. *)
Definition deepReply : Element :=
  mkElement (mkData 17 "DIV" ["thing"; "comment"] [("data-fullname", "t1_c")])
            (mkData 16 "DIV" ["sitetable"; "listing"] [("id", "siteTable_t1_b")]
             :: mkData 15 "DIV" ["child"] [] :: replyD
             :: nestedTable :: childD :: topD :: aboveComments).

(** A page without markers in which every element is attached, the header
    module right after [init], and some origin metadata. *)
Definition plainPage : StickyUI.Page := StickyUI.mkPage (fun _ => true) [] [] None.
Definition readyHeader : StickyUI.State :=
  StickyUI.init (StickyUI.mkOptions None None None None) (StickyUI.initial plainPage).
Definition samplePost : StickyUI.OpMeta :=
  StickyUI.mkOpMeta "A title" "someone" "12" "r/test" "https://example.org/" "t3_abc".

(** A body of 148 letters followed by three spaces. *)
Definition paddedBody : Text := repeat 120%N 148 ++ repeat 32%N 3.

(** The same thread in markup where the listing carries the class
    [siteTable] and the reply sits directly in the [.child] container. *)
Definition tidyTable : ElemData :=
  mkData 5 "DIV" ["siteTable"; "nestedlisting"] [].
Definition tidyTop : Element :=
  mkElement topD [tidyTable; commentarea; content; bodyD; html].
Definition tidyReply : Element :=
  mkElement replyD [childD; topD; tidyTable; commentarea; content; bodyD; html].

End Pages.

(* ===================================================================== *)
(** ** Numbers *)
(* ===================================================================== *)

Module JsMath.
Import Js.

(** [a + b], [Math.max(a, b)] and [Math.min(a, b)] on numbers.  The one
    sum the scripts take, of a colour channel and an amount, is cut off at
    0 and at 255 right away; it is taken exactly here, as rounding it to a
    double first would not change what is cut off. *)
Definition add (a b : JsNum) : JsNum :=
  match a, b with
  | Num x, Num y => Num (x + y)
  | Infinity s, Num _ | Num _, Infinity s => Infinity s
  | Infinity s, Infinity t => if Bool.eqb s t then Infinity s else NaN
  | _, _ => NaN
  end.
Definition mathMax (a b : JsNum) : JsNum :=
  match a, b with
  | Num x, Num y => Num (Z.max x y)
  | NaN, _ | _, NaN => NaN
  | Infinity false, _ | _, Infinity false => Infinity false
  | Infinity true, n | n, Infinity true => n
  end.
Definition mathMin (a b : JsNum) : JsNum :=
  match a, b with
  | Num x, Num y => Num (Z.min x y)
  | NaN, _ | _, NaN => NaN
  | Infinity true, _ | _, Infinity true => Infinity true
  | Infinity false, n | n, Infinity false => n
  end.

End JsMath.

(* ===================================================================== *)
(** ** util.js *)
(* ===================================================================== *)

Module Util.
Import Js JsMath.

Definition clamp (value min max : JsNum) : JsNum :=
  mathMin (mathMax value min) max.

(** *** debounce and throttle *)

Section Timers.
(** The arguments of one call of the wrapped function [fn], which is taken
    to return. *)
Variable Args : Type.

(** A timer armed by [setTimeout]: the time from which it may fire, and
    the arguments its callback has closed over. *)
Record Timer := mkTimer { due : Z; args : Args }.

(** What happens to a wrapper: it is called, its timer fires, or its
    [cancel] is called; [now] is the reading of the clock at that time. *)
Inductive Event :=
| Call (now : Z) (a : Args)
| Timeout (now : Z)
| Cancel (now : Z).

Definition timeOf (ev : Event) : Z :=
  match ev with Call now _ => now | Timeout now => now | Cancel now => now end.

(** The variables [throttle] closes over. *)
Record Throttled := mkThrottled { lastTime : Z; timeoutId : option Timer }.

(** [throttle(fn, interval)] *)
Definition throttle : Throttled := mkThrottled 0 None.

(** [throttled(...args)], with the arguments of the calls of [fn] it
    makes. *)
Definition throttled (interval now : Z) (a : Args) (st : Throttled)
  : Throttled * list Args :=
  let remaining := (interval - (now - lastTime st))%Z in
  if (remaining <=? 0)%Z then (mkThrottled now None, [a])
  else match timeoutId st with
       | None => (mkThrottled (lastTime st) (Some (mkTimer (now + remaining) a)), [])
       | Some _ => (st, [])
       end.

(** The callback [throttled] hands to [setTimeout]. *)
Definition throttledTimeout (now : Z) (st : Throttled) : Throttled * list Args :=
  match timeoutId st with
  | Some t => (mkThrottled now None, [args t])
  | None => (st, [])
  end.

(** [throttled.cancel()] *)
Definition throttledCancel (st : Throttled) : Throttled :=
  mkThrottled (lastTime st) None.

Definition stepThrottled (interval : Z) (ev : Event) (st : Throttled)
  : Throttled * list Args :=
  match ev with
  | Call now a => throttled interval now a st
  | Timeout now => throttledTimeout now st
  | Cancel _ => (throttledCancel st, [])
  end.

(** The variable [debounce] closes over. *)
Definition Debounced := option Timer.

(** [debounce(fn, delay)] *)
Definition debounce : Debounced := None.

(** [debounced(...args)]; a negative delay counts as 0 for [setTimeout]. *)
Definition debounced (delay now : Z) (a : Args) (st : Debounced)
  : Debounced * list Args :=
  (Some (mkTimer (now + Z.max 0 delay) a), []).

(** The callback [debounced] hands to [setTimeout]. *)
Definition debouncedTimeout (st : Debounced) : Debounced * list Args :=
  match st with
  | Some t => (None, [args t])
  | None => (None, [])
  end.

(** [debounced.cancel()] *)
Definition debouncedCancel (st : Debounced) : Debounced := None.

Definition stepDebounced (delay : Z) (ev : Event) (st : Debounced)
  : Debounced * list Args :=
  match ev with
  | Call now a => debounced delay now a st
  | Timeout _ => debouncedTimeout st
  | Cancel _ => (debouncedCancel st, [])
  end.

(** A wrapper run through a list of events: its state at the end and the
    calls of [fn] it made, each with the time of the event that made it. *)
Fixpoint run {St} (step : Event -> St -> St * list Args) (evs : list Event)
    (st : St) : St * list (Z * Args) :=
  match evs with
  | [] => (st, [])
  | ev :: r =>
      let '(st1, out) := step ev st in
      let '(st2, log) := run step r st1 in
      (st2, map (fun a => (timeOf ev, a)) out ++ log)
  end.

(** The events come in the order of the clock, starting at [clock], and
    a timer fires only when it is armed and due. *)
Fixpoint timely {St} (step : Event -> St -> St * list Args)
    (pending : St -> option Timer) (evs : list Event) (clock : Z) (st : St) : bool :=
  match evs with
  | [] => true
  | ev :: r =>
      (clock <=? timeOf ev)%Z
      && match ev with
         | Timeout now =>
             match pending st with
             | Some t => (due t <=? now)%Z
             | None => false
             end
         | _ => true
         end
      && timely step pending r (timeOf ev) (fst (step ev st))
  end.

End Timers.

Arguments mkTimer {Args}.
Arguments due {Args}.
Arguments args {Args}.
Arguments Call {Args}.
Arguments Timeout {Args}.
Arguments Cancel {Args}.
Arguments timeOf {Args}.
Arguments mkThrottled {Args}.
Arguments lastTime {Args}.
Arguments timeoutId {Args}.
Arguments throttle {Args}.
Arguments throttled {Args}.
Arguments throttledTimeout {Args}.
Arguments throttledCancel {Args}.
Arguments stepThrottled {Args}.
Arguments debounce {Args}.
Arguments debounced {Args}.
Arguments debouncedTimeout {Args}.
Arguments debouncedCancel {Args}.
Arguments stepDebounced {Args}.
Arguments run {Args St}.
Arguments timely {Args St}.

(** *** createEmitter *)

Section Emitter.
(** What is emitted, what the listeners work on, and what they throw. *)
Variables Data World Error : Type.

(** A listener function is known by its identity.  [behaviour] is what
    calling it does: it may change its world, and it returns or throws.
    Listeners that register or remove listeners of the same emitter while
    they run are outside this description. *)
Definition Listener := nat.
Variable behaviour : Listener -> Data -> World -> World * option Error.

(** [listeners]: a [Map] from event names to [Set]s of listeners; a
    [Set] keeps its members in the order they were added. *)
Definition Listeners := gmap string (list Listener).

(** [set.add(cb)] and [set.delete(cb)] *)
Definition setAdd (cb : Listener) (s : list Listener) : list Listener :=
  if bool_decide (cb ∈ s) then s else s ++ [cb].
Definition setDelete (cb : Listener) (s : list Listener) : list Listener :=
  filter (fun x => x ≠ cb) s.

Definition on (event : string) (callback : Listener) (ls : Listeners) : Listeners :=
  let ls1 := match ls !! event with
             | Some _ => ls
             | None => <[event := []]> ls
             end in
  match ls1 !! event with
  | Some s => <[event := setAdd callback s]> ls1
  | None => ls1
  end.

Definition off (event : string) (callback : Listener) (ls : Listeners) : Listeners :=
  match ls !! event with
  | Some s => <[event := setDelete callback s]> ls
  | None => ls
  end.

(** The world of the listeners, the console, and a record of the calls
    made to listeners. *)
Record Outside := mkOutside {
  world : World;
  consoleErrors : list (string * Error);
  calls : list (Listener * Data)
}.

(** One round of [forEach]: [try { callback(data) } catch (e) {
    console.error(...) }]. *)
Definition deliver (data : Data) (callback : Listener) (o : Outside) : Outside :=
  let '(w, outcome) := behaviour callback data (world o) in
  mkOutside w
    match outcome with
    | None => consoleErrors o
    | Some e => consoleErrors o ++ [("Event listener error:", e)]
    end
    (calls o ++ [(callback, data)]).

Definition emit (event : string) (data : Data) (ls : Listeners) (o : Outside)
  : Outside :=
  match ls !! event with
  | Some s => fold_left (fun acc cb => deliver data cb acc) s o
  | None => o
  end.

Definition clear (ls : Listeners) : Listeners := ∅.

(** The calls a user of the emitter makes to change who listens. *)
Inductive Op :=
| On (event : string) (callback : Listener)
| Off (event : string) (callback : Listener)
| Clear.

Definition apply (op : Op) (ls : Listeners) : Listeners :=
  match op with
  | On event callback => on event callback ls
  | Off event callback => off event callback ls
  | Clear => clear ls
  end.

(** The emitter [createEmitter()] returns, after the calls [ops]. *)
Definition after (ops : list Op) : Listeners :=
  fold_left (fun ls op => apply op ls) ops ∅.

End Emitter.

Arguments mkOutside {Data World Error}.
Arguments world {Data World Error}.
Arguments consoleErrors {Data World Error}.
Arguments calls {Data World Error}.
Arguments deliver {Data World Error}.
Arguments emit {Data World Error}.

(** *** Performance measurement *)

Section Perf.
(** Readings of [performance.now()], their difference, and the number 0. *)
Variable Time : Type.
Variable minus : Time -> Time -> Time.
Variable zero : Time.

(** [perfMetrics] *)
Record PerfMetrics := mkPerf {
  enabled : bool;
  samples : gmap string (list Time)
}.

Definition perfMetrics : PerfMetrics := mkPerf false ∅.

Definition setPerfEnabled (e : bool) (st : PerfMetrics) : PerfMetrics :=
  mkPerf e (if negb e then ∅ else samples st).

(** What [perfStart] returns: the function that returns 0, or [perfEnd]
    with the name and the starting time it has closed over. *)
Inductive PerfEnd :=
| ReturnZero
| Stop (name : string) (start : Time).

(** [perfStart(name)] when the clock reads [now]. *)
Definition perfStart (name : string) (now : Time) (st : PerfMetrics) : PerfEnd :=
  if negb (enabled st) then ReturnZero else Stop name now.

(** Calling what [perfStart] returned when the clock reads [now]. *)
Definition callEnd (e : PerfEnd) (now : Time) (st : PerfMetrics)
  : Time * PerfMetrics :=
  match e with
  | ReturnZero => (zero, st)
  | Stop name start =>
      let duration := minus now start in
      let st1 := match samples st !! name with
                 | Some _ => st
                 | None => mkPerf (enabled st) (<[name := []]> (samples st))
                 end in
      let pushed := default [] (samples st1 !! name) ++ [duration] in
      let kept := if 100 <? length pushed then tail pushed else pushed in
      (duration, mkPerf (enabled st1) (<[name := kept]> (samples st1)))
  end.

Definition perfClear (st : PerfMetrics) : PerfMetrics := mkPerf (enabled st) ∅.

(** The calls that touch [perfMetrics]. *)
Inductive PerfOp :=
| SetEnabled (e : bool)
| Ended (e : PerfEnd) (now : Time)
| Cleared.

Definition perfApply (op : PerfOp) (st : PerfMetrics) : PerfMetrics :=
  match op with
  | SetEnabled e => setPerfEnabled e st
  | Ended e now => snd (callEnd e now st)
  | Cleared => perfClear st
  end.

Definition perfAfter (ops : list PerfOp) : PerfMetrics :=
  fold_left (fun st op => perfApply op st) ops perfMetrics.

End Perf.

Arguments mkPerf {Time}.
Arguments enabled {Time}.
Arguments samples {Time}.
Arguments ReturnZero {Time}.
Arguments Stop {Time}.

End Util.

(* ===================================================================== *)
(** ** stickyUI.js: the colour helpers *)
(* ===================================================================== *)

Module Theme.
Import Js JsMath.

(** [[a-f\d]] under the [i] flag, with the value [parseInt] gives the
    digit in radix 16. *)
Definition hexDigit (c : ascii) : option Z :=
  let n := nat_of_ascii c in
  if (48 <=? n) && (n <=? 57) then Some (Z.of_nat n - 48)%Z
  else if (97 <=? n) && (n <=? 102) then Some (Z.of_nat n - 87)%Z
  else if (65 <=? n) && (n <=? 70) then Some (Z.of_nat n - 55)%Z
  else None.

Definition isHexDigit (c : ascii) : bool :=
  match hexDigit c with Some _ => true | None => false end.

(** The longest prefix of hex digits, read most significant first. *)
Fixpoint readHex (s : string) (acc : option Z) : option Z :=
  match s with
  | String c r =>
      match hexDigit c with
      | Some d => readHex r (Some (16 * default 0%Z acc + d)%Z)
      | None => acc
      end
  | EmptyString => acc
  end.

(** [parseInt(s, 16)] *)
Definition parseInt16 (s : string) : JsNum :=
  let s1 := skipWhite s in
  let '(neg, s2) :=
    match s1 with
    | String "-" r => (true, r)
    | String "+" r => (false, r)
    | _ => (false, s1)
    end in
  let s3 :=
    match s2 with
    | String "0" (String "x" r) => r
    | String "0" (String "X" r) => r
    | _ => s2
    end in
  match readHex s3 None with
  | Some z => toNumber (if neg : bool then (- z)%Z else z)
  | None => NaN
  end.

Record Rgb := mkRgb { r : JsNum; g : JsNum; b : JsNum }.

(** The three captures of [/^#?([a-f\d]{2})([a-f\d]{2})([a-f\d]{2})$/i]. *)
Definition execHex (hex : string) : option (string * string * string) :=
  let digits := match hex with String "#" rest => rest | _ => hex end in
  match digits with
  | String c1 (String c2 (String c3 (String c4 (String c5 (String c6 EmptyString))))) =>
      if isHexDigit c1 && isHexDigit c2 && isHexDigit c3
         && isHexDigit c4 && isHexDigit c5 && isHexDigit c6
      then Some (String c1 (String c2 EmptyString),
                 String c3 (String c4 EmptyString),
                 String c5 (String c6 EmptyString))
      else None
  | _ => None
  end.

Definition hexToRgb (hex : string) : option Rgb :=
  match execHex hex with
  | Some (g1, g2, g3) => Some (mkRgb (parseInt16 g1) (parseInt16 g2) (parseInt16 g3))
  | None => None
  end.

Definition hexChar (d : Z) : ascii :=
  if (d <? 10)%Z then ascii_of_nat (48 + Z.to_nat d)
  else ascii_of_nat (87 + Z.to_nat d).

(** The digits of a non-negative integer in radix 16, least significant
    digit first into [acc]; an integer below [16 ^ fuel] needs no more
    than [fuel] rounds. *)
Fixpoint hexDigits (fuel : nat) (n : Z) (acc : string) : string :=
  match fuel with
  | O => acc
  | S fuel' =>
      let acc' := String (hexChar (n mod 16)) acc in
      if (n <? 16)%Z then acc' else hexDigits fuel' (n / 16) acc'
  end.

(** [n.toString(16)] *)
Definition toString16 (n : JsNum) : string :=
  match n with
  | NaN => "NaN"
  | Num z =>
      if (z <? 0)%Z
      then String "-" (hexDigits (S (Z.to_nat (Z.log2 (- z)))) (- z) "")
      else hexDigits (S (Z.to_nat (Z.log2 z))) z ""
  | Infinity false => "Infinity"
  | Infinity true => "-Infinity"
  end.

Fixpoint repeatChar (n : nat) (c : ascii) : string :=
  match n with
  | O => ""
  | S m => String c (repeatChar m c)
  end.

(** [s.padStart(n, c)] for a one-character filler. *)
Definition padStart (n : nat) (c : ascii) (s : string) : string :=
  String.append (repeatChar (n - String.length s) c) s.

(** The inner [adjust] of [adjustBrightness]. *)
Definition adjust (amount : JsNum) (c : JsNum) : JsNum :=
  mathMax (Num 0) (mathMin (Num 255) (add c amount)).

Definition adjustBrightness (hex : string) (amount : JsNum) : string :=
  match hexToRgb hex with
  | None => hex
  | Some rgb =>
      String.append "#"
        (String.concat ""
           (map (fun c => padStart 2 "0" (toString16 (adjust amount c)))
                [r rgb; g rgb; b rgb]))
  end.

End Theme.

(* ===================================================================== *)
(** ** Selectors and the document *)
(* ===================================================================== *)

Module Css.
Import Js Dom.

(** ASCII lower case, as selectors compare the names of HTML elements. *)
Definition asciiLower (c : ascii) : ascii :=
  let n := nat_of_ascii c in
  if (65 <=? n) && (n <=? 90) then ascii_of_nat (n + 32) else c.

Fixpoint asciiLowerCase (s : string) : string :=
  match s with
  | EmptyString => EmptyString
  | String c r => String (asciiLower c) (asciiLowerCase r)
  end.

(** Names made of ASCII characters only. *)
Fixpoint plain (t : string) : Prop :=
  match t with
  | EmptyString => True
  | String c r => nat_of_ascii c < 128 /\ plain r
  end.

(** [s.includes(t)] *)
Fixpoint includes (s t : string) : bool :=
  String.prefix t s
  || match s with
     | String _ r => includes r t
     | EmptyString => false
     end.

(** The simple selectors the scripts use.  The pages are HTML documents
    in standards mode: a type selector, written in lower case, is compared
    with the element's name without regard to ASCII case; classes, ids and
    attribute values are compared as they are. *)
Inductive Simple :=
| Tag (name : string)
| Class (c : string)
| Id (i : string)
| AttrIs (name value : string)
| AttrHas (name value : string)
| Scope.

Definition matchesSimple (scope : option Element) (e : Element) (s : Simple) : bool :=
  match s with
  | Tag name => String.eqb (asciiLowerCase (tagName (self e))) name
  | Class c => hasClass (self e) c
  | Id i => bool_decide (getAttribute (self e) "id" = Some i)
  | AttrIs name value => bool_decide (getAttribute (self e) name = Some value)
  | AttrHas name value =>
      match getAttribute (self e) name with
      | Some a => truthy value && includes a value
      | None => false
      end
  | Scope => bool_decide (scope = Some e)
  end.

(** A compound selector ([a.title], [.thing.comment]) matches when each of
    its parts does. *)
Definition Compound := list Simple.

Definition matchesCompound (scope : option Element) (e : Element) (c : Compound)
  : bool :=
  forallb (matchesSimple scope e) c.

Inductive Combinator := Descendant | Child.

(** A complex selector: the compound the element itself must match, and
    then, going left, what its ancestors must match.  [.top-matter .title
    a.title] has the subject [a.title] and the context [.title] then
    [.top-matter], both as descendant steps. *)
Record Complex := mkComplex {
  subject : Compound;
  context : list (Combinator * Compound)
}.

(** [up] are the parent elements of the element matched last, nearest
    first. *)
Fixpoint matchesContext (scope : option Element)
    (ctx : list (Combinator * Compound)) (up : list ElemData) : bool :=
  match ctx with
  | [] => true
  | (Child, c) :: rest =>
      match up with
      | p :: up' =>
          matchesCompound scope (mkElement p up') c && matchesContext scope rest up'
      | [] => false
      end
  | (Descendant, c) :: rest =>
      (fix search (up : list ElemData) : bool :=
         match up with
         | p :: up' =>
             (matchesCompound scope (mkElement p up') c
              && matchesContext scope rest up')
             || search up'
         | [] => false
         end) up
  end.

Definition matchesComplex (scope : option Element) (e : Element) (sel : Complex)
  : bool :=
  matchesCompound scope e (subject sel)
  && matchesContext scope (context sel) (ancestors e).

(** A selector list [a, b] matches when one of its members does. *)
Definition Selector := list Complex.

Definition matches (scope : option Element) (e : Element) (sel : Selector) : bool :=
  existsb (matchesComplex scope e) sel.

(** A selector that is one compound, and one that is a chain of
    descendant steps, outermost first. *)
Definition one (c : Compound) : Complex := mkComplex c [].
Definition inside (outer : list Compound) (c : Compound) : Complex :=
  mkComplex c (map (fun o => (Descendant, o)) (rev outer)).

(** [el.matches(sel)] and [el.closest(sel)] *)
Definition elMatches (e : Element) (sel : Selector) : bool := matches (Some e) e sel.

Definition closest (e : Element) (sel : Selector) : option Element :=
  List.find (fun x => matches (Some e) x sel) (e :: handles (ancestors e)).

(** The selectors of [Dom.closest] in this syntax. *)
Definition ofSimple (s : Dom.Simple) : Complex :=
  one [match s with
       | SelClass c => Class c
       | SelId i => Id i
       | SelAttr name value => AttrIs name value
       end].

End Css.

Module Document.
Import Js Dom Css.

(** What the scripts read off the page: its elements in tree order, the
    body element, the text content of every element, and the host name of
    the location. *)
Record Document := mkDocument {
  elements : list Element;
  body : Element;
  textContent : Element -> Text;
  hostname : string
}.

(** [document.querySelectorAll(sel)] and [document.querySelector(sel)] *)
Definition querySelectorAll (doc : Document) (sel : Selector) : list Element :=
  List.filter (fun e => matches None e sel) (elements doc).

Definition querySelector (doc : Document) (sel : Selector) : option Element :=
  List.find (fun e => matches None e sel) (elements doc).

(** [el.querySelector(sel)]: the first match among the descendants of
    [el]; the selector is matched against the whole page, with [:scope]
    standing for [el]. *)
Definition isDescendant (el e : Element) : bool :=
  bool_decide (el ∈ handles (ancestors e)).

Definition querySelectorIn (doc : Document) (el : Element) (sel : Selector)
  : option Element :=
  List.find (fun e => isDescendant el e && matches (Some el) e sel) (elements doc).

(** Attribute values as text. *)
Definition textOf (s : string) : Text :=
  map (fun c => N.of_nat (nat_of_ascii c)) (list_ascii_of_string s).

(** [a || b] on elements that may be null. *)
Definition orElem (a b : option Element) : option Element :=
  match a with Some _ => a | None => b end.

(** [t.replace(/^u\//, '')] *)
Definition stripUserPrefix (t : Text) : Text :=
  match t with
  | 117%N :: 47%N :: r => r
  | _ => t
  end.

End Document.

(* ===================================================================== *)
(** ** selectors.js: the functions that query the page *)
(* ===================================================================== *)

Module PageSelectors.
Import Js Dom Css Document.
Import Selectors (RedditVersion, Old, New).

(** [detectRedditVersion]; [redditVersion] is the module variable that
    remembers the answer. *)
Definition detectRedditVersion (doc : Document) (redditVersion : option RedditVersion)
  : RedditVersion * option RedditVersion :=
  match redditVersion with
  | Some v => (v, redditVersion)
  | None =>
      if bool_decide (is_Some (querySelector doc [one [Class "thing"; Class "comment"]]))
         || bool_decide (is_Some (querySelector doc [one [Id "siteTable"]]))
         || hasClass (self (body doc)) "listing-page"
      then (Old, Some Old)
      else if bool_decide (is_Some (querySelector doc [one [Tag "shreddit-comment"]]))
              || bool_decide (is_Some (querySelector doc [one [Tag "shreddit-app"]]))
              || bool_decide (is_Some (querySelector doc
                                         [one [AttrIs "data-testid" "comment"]]))
      then (New, Some New)
      else if String.eqb (hostname doc) "old.reddit.com" then (Old, Some Old)
      else (New, Some New)
  end.

Definition getRedditVersion := detectRedditVersion.

(** What [getCommentMeta] returns. *)
Record Meta := mkMeta {
  author : Text;
  score : Text;
  time : Text;
  excerpt : Text
}.

Definition MetaCache := gmap Element Meta.

(** [a || b] on text that may be null: the first truthy operand. *)
Definition orText (a : option Text) (b : Text) : Text :=
  match a with
  | Some (c :: r) => c :: r
  | _ => b
  end.

Module OldReddit.

Definition getAllCommentThings (doc : Document) : list Element :=
  querySelectorAll doc [one [Class "thing"; Class "comment"]].

Definition getCommentMeta (doc : Document) (metaCache : MetaCache) (v : JsValue)
  : option Meta * MetaCache :=
  match v with
  | JsElem el =>
      if negb (Selectors.OldReddit.isCommentData (self el)) then (None, metaCache)
      else
        match metaCache !! el with
        | Some cached => (Some cached, metaCache)
        | None =>
            match querySelectorIn doc el
                    [mkComplex [Class "entry"] [(Child, [Scope])]] with
            | None => (None, metaCache)
            | Some entry =>
                let author :=
                  match querySelectorIn doc entry [one [Class "author"]] with
                  | Some authorEl => trim (textContent doc authorEl)
                  | None => textOf "[deleted]"
                  end in
                let score :=
                  match querySelectorIn doc entry
                          [one [Class "score"; Class "unvoted"];
                           one [Class "score"; Class "likes"];
                           one [Class "score"; Class "dislikes"]] with
                  | Some scoreEl => trim (textContent doc scoreEl)
                  | None => []
                  end in
                let time :=
                  match querySelectorIn doc entry [one [Tag "time"]] with
                  | Some timeEl =>
                      orText (option_map textOf (getAttribute (self timeEl) "title"))
                             (trim (textContent doc timeEl))
                  | None => []
                  end in
                let excerpt :=
                  Selectors.excerptOfBody
                    (option_map (textContent doc)
                                (querySelectorIn doc entry [one [Class "md"]])) in
                let meta := mkMeta author score time excerpt in
                (Some meta, <[el := meta]> metaCache)
            end
        end
  | _ => (None, metaCache)
  end.

End OldReddit.

Module NewReddit.

Definition getAllCommentThings (doc : Document) : list Element :=
  let shredditComments := querySelectorAll doc [one [Tag "shreddit-comment"]] in
  if 0 <? length shredditComments then shredditComments
  else querySelectorAll doc [one [AttrIs "data-testid" "comment"]].

Definition getCommentMeta (doc : Document) (metaCache : MetaCache) (v : JsValue)
  : option Meta * MetaCache :=
  match v with
  | JsElem el =>
      if negb (Selectors.NewReddit.isCommentData (self el)) then (None, metaCache)
      else
        match metaCache !! el with
        | Some cached => (Some cached, metaCache)
        | None =>
            let author0 := orText (option_map textOf (getAttribute (self el) "author")) [] in
            let author1 :=
              match author0 with
              | [] =>
                  match orElem
                          (querySelectorIn doc el
                             [one [AttrIs "data-testid" "comment_author_link"]])
                          (querySelectorIn doc el
                             [one [Tag "a"; AttrHas "href" "/user/"]]) with
                  | Some authorEl => stripUserPrefix (trim (textContent doc authorEl))
                  | None => author0
                  end
              | _ => author0
              end in
            let author := match author1 with [] => textOf "[deleted]" | _ => author1 end in
            let score0 := orText (option_map textOf (getAttribute (self el) "score")) [] in
            let score :=
              match score0 with
              | [] =>
                  match orElem
                          (orElem
                             (querySelectorIn doc el [one [AttrIs "data-testid" "score"]])
                             (querySelectorIn doc el [one [Tag "faceplate-number"]]))
                          (querySelectorIn doc el
                             [inside [[AttrHas "id" "vote-arrows"]] [Tag "span"]]) with
                  | Some scoreEl => trim (textContent doc scoreEl)
                  | None => score0
                  end
              | _ => score0
              end in
            let time :=
              match orElem
                      (orElem (querySelectorIn doc el [one [Tag "time"]])
                              (querySelectorIn doc el [one [Tag "faceplate-timeago"]]))
                      (querySelectorIn doc el
                         [one [AttrIs "data-testid" "comment_timestamp"]]) with
              | Some timeEl =>
                  orText (option_map textOf (getAttribute (self timeEl) "title"))
                    (orText (option_map textOf (getAttribute (self timeEl) "ts"))
                            (trim (textContent doc timeEl)))
              | None => []
              end in
            let excerpt :=
              Selectors.excerptOfBody
                (option_map (textContent doc)
                   (orElem
                      (orElem
                         (orElem (querySelectorIn doc el [one [AttrIs "slot" "comment"]])
                                 (querySelectorIn doc el
                                    [one [AttrIs "data-testid" "comment"]]))
                         (querySelectorIn doc el
                            [one [Tag "div"; AttrHas "id" "comment-content"]]))
                      (querySelectorIn doc el [one [Tag "p"]]))) in
            let meta := mkMeta author score time excerpt in
            (Some meta, <[el := meta]> metaCache)
        end
  | _ => (None, metaCache)
  end.

End NewReddit.

Definition getAllCommentThings (ver : RedditVersion) (doc : Document) : list Element :=
  match ver with
  | Old => OldReddit.getAllCommentThings doc
  | New => NewReddit.getAllCommentThings doc
  end.

Definition getCommentMeta (ver : RedditVersion) (doc : Document)
    (metaCache : MetaCache) (v : JsValue) : option Meta * MetaCache :=
  match ver with
  | Old => OldReddit.getCommentMeta doc metaCache v
  | New => NewReddit.getCommentMeta doc metaCache v
  end.

Definition getAllMoreComments (ver : RedditVersion) (doc : Document) : list Element :=
  match ver with
  | Old =>
      querySelectorAll doc [inside [[Class "morecomments"]] [Tag "a"];
                            inside [[Class "morerecursion"]] [Tag "a"]]
  | New =>
      querySelectorAll doc
        [one [Tag "button"; AttrIs "data-testid" "load-more-comments"];
         one [Tag "faceplate-partial"; AttrIs "loading" "action"];
         one [AttrIs "slot" "more-comments-permalink"]]
  end.

Definition isMoreCommentsLink (ver : RedditVersion) (v : JsValue) : bool :=
  match v with
  | JsElem el =>
      match ver with
      | Old =>
          bool_decide (is_Some (closest el [one [Class "morecomments"];
                                            one [Class "morerecursion"]]))
      | New =>
          elMatches el [one [Tag "button"; AttrIs "data-testid" "load-more-comments"]]
          || bool_decide
               (is_Some (closest el [one [Tag "faceplate-partial";
                                          AttrIs "loading" "action"]]))
      end
  | _ => false
  end.

End PageSelectors.

(* ===================================================================== *)
(** ** main.js *)
(* ===================================================================== *)

Module Main.
Import Js Dom.

(** The settings object, with values of the kinds the popup stores. *)
Record Settings := mkSettings {
  stickyAncestorsEnabled : bool;
  stickyDepth : Z;
  stickyCompact : bool;
  stickyTheme : string;
  manualColors : option (list (string * string))
}.

Definition DEFAULTS : Settings :=
  mkSettings true 20 true "dark"
    (Some [("bg", "#1e3a5f"); ("text", "#e8f1f5"); ("accent", "#4ecdc4");
           ("author", "#7fdbda")]).

(** One entry of the [changes] object of a storage event: a new value for
    one of the five settings, or a key that is not a setting. *)
Inductive Change :=
| ChEnabled (newValue : bool)
| ChDepth (newValue : Z)
| ChCompact (newValue : bool)
| ChTheme (newValue : string)
| ChColors (newValue : option (list (string * string)))
| ChOther (key : string).

(** The variables of main.js, and the state of the two modules that its
    callback drives. *)
Record World := mkWorld {
  settings : Settings;
  isInitialized : bool;
  currentActiveComment : option Element;
  ancestors : Ancestors.State;
  sticky : StickyUI.State
}.

Definition withSettings (s : Settings) (w : World) : World :=
  mkWorld s (isInitialized w) (currentActiveComment w) (ancestors w) (sticky w).
Definition withInitialized (b : bool) (w : World) : World :=
  mkWorld (settings w) b (currentActiveComment w) (ancestors w) (sticky w).
Definition withCurrent (a : option Element) (w : World) : World :=
  mkWorld (settings w) (isInitialized w) a (ancestors w) (sticky w).
Definition withAncestors (a : Ancestors.State) (w : World) : World :=
  mkWorld (settings w) (isInitialized w) (currentActiveComment w) a (sticky w).
Definition withSticky (s : StickyUI.State) (w : World) : World :=
  mkWorld (settings w) (isInitialized w) (currentActiveComment w) (ancestors w) s.

Section Page.
Variable ver : Selectors.RedditVersion.
(** [document.body] *)
Variable body : Element.
(** What [Selectors.getOriginalPost()] returns; it reads the page only,
    and the page is taken as unchanged while the scripts run. *)
Variable originalPost : option StickyUI.OpMeta.
(** The number of rounds any one walk of [computeAncestors] is given.  A
    run that is still walking when they are used up has no result: the
    world is [None] from then on. *)
Variable fuel : nat.
(** What the callback of the tracker may throw. *)
Variable Error : Type.

(** All modules are loaded, so every [typeof ... === 'undefined'] test
    fails. *)
Definition handleActiveCommentChange (activeComment : option Element) (w : World)
  : option World :=
  if negb (stickyAncestorsEnabled (settings w)) then Some w
  else
    let w1 := withCurrent activeComment w in
    let opMeta := originalPost in
    match activeComment with
    | Some comment =>
        match Ancestors.computeAncestors ver fuel (ancestors w1) (JsElem comment) with
        | None => None
        | Some (fullChain, a1) =>
            let '(ancestorsOnly, a2) :=
              Ancestors.alloc (StickyUI.sliceTo (-1) (Ancestors.arrayAt a1 fullChain)) a1 in
            Some (withSticky
                    (StickyUI.render ver (Ancestors.arrayAt a2 ancestorsOnly)
                       (stickyDepth (settings w1)) (stickyCompact (settings w1))
                       activeComment opMeta (sticky w1))
                    (withAncestors a2 w1))
        end
    | None => Some (withSticky (StickyUI.hide None (sticky w1)) w1)
    end.

Definition rerenderStickyUI (w : World) : option World :=
  let w1 := withSticky (StickyUI.setTheme (stickyTheme (settings w))
                                          (manualColors (settings w)) (sticky w)) w in
  match currentActiveComment w1 with
  | Some comment => handleActiveCommentChange (Some comment) w1
  | None => Some w1
  end.

(** The whole content script: the tracker of activeComment.js, whose
    callback works on the world above. *)
Definition System := ActiveComment.State (option World) Error.

Definition withWorld (w : option World) (sys : System) : System :=
  ActiveComment.mkState (ActiveComment.isActive sys) (ActiveComment.onChangeCallback sys)
    (ActiveComment.currentAnchored sys) w (ActiveComment.consoleErrors sys)
    (ActiveComment.calls sys).

(** [handleActiveCommentChange] as the tracker calls it. *)
Definition onActiveChange : ActiveComment.Callback (option World) Error :=
  fun activeComment w =>
    (match w with
     | Some w0 => handleActiveCommentChange activeComment w0
     | None => None
     end, None).

Definition updateStickyAncestors (sys : System) : System :=
  match ActiveComment.world sys with
  | None => sys
  | Some w =>
      if stickyAncestorsEnabled (settings w) then
        let sys1 := ActiveComment.init (Some onActiveChange) sys in
        withWorld
          (Some (withSticky
                   (StickyUI.init
                      (StickyUI.mkOptions (Some (stickyDepth (settings w)))
                                          (Some (stickyCompact (settings w)))
                                          (Some (stickyTheme (settings w)))
                                          (Some (manualColors (settings w))))
                      (sticky w)) w))
          sys1
      else
        let sys1 := ActiveComment.destroy sys in
        withWorld
          (Some (withCurrent None (withSticky (StickyUI.destroy (sticky w)) w)))
          sys1
  end.

(** The loop over [Object.entries(changes)]. *)
Fixpoint applyChanges (changes : list Change) (s : Settings)
    (needsStickyUpdate needsRerender : bool) : Settings * bool * bool :=
  match changes with
  | [] => (s, needsStickyUpdate, needsRerender)
  | ChEnabled v :: r =>
      applyChanges r (mkSettings v (stickyDepth s) (stickyCompact s) (stickyTheme s)
                                 (manualColors s)) true needsRerender
  | ChDepth v :: r =>
      applyChanges r (mkSettings (stickyAncestorsEnabled s) v (stickyCompact s)
                                 (stickyTheme s) (manualColors s))
                   needsStickyUpdate true
  | ChCompact v :: r =>
      applyChanges r (mkSettings (stickyAncestorsEnabled s) (stickyDepth s) v
                                 (stickyTheme s) (manualColors s))
                   needsStickyUpdate true
  | ChTheme v :: r =>
      applyChanges r (mkSettings (stickyAncestorsEnabled s) (stickyDepth s)
                                 (stickyCompact s) v (manualColors s))
                   needsStickyUpdate true
  | ChColors v :: r =>
      applyChanges r (mkSettings (stickyAncestorsEnabled s) (stickyDepth s)
                                 (stickyCompact s) (stickyTheme s) v)
                   needsStickyUpdate true
  | ChOther _ :: r => applyChanges r s needsStickyUpdate needsRerender
  end.

Definition handleSettingsChange (changes : list Change) (areaName : string)
    (sys : System) : System :=
  if negb (String.eqb areaName "sync") then sys
  else
    match ActiveComment.world sys with
    | None => sys
    | Some w =>
        let '(s, needsStickyUpdate, needsRerender) :=
          applyChanges changes (settings w) false false in
        let sys1 := withWorld (Some (withSettings s w)) sys in
        if needsStickyUpdate then updateStickyAncestors sys1
        else if needsRerender && stickyAncestorsEnabled s
             then withWorld (rerenderStickyUI (withSettings s w)) sys1
             else sys1
    end.

Definition destroy (sys : System) : System :=
  match ActiveComment.world sys with
  | None => sys
  | Some w =>
      if negb (isInitialized w) then sys
      else
        let sys1 := ActiveComment.destroy sys in
        withWorld
          (Some (withInitialized false
                   (withCurrent None (withSticky (StickyUI.destroy (sticky w)) w))))
          sys1
  end.

Definition getSettings (w : World) : Settings := settings w.

(** The variables of the four modules as the scripts leave them when they
    are loaded, on page [p]. *)
Definition loaded (p : StickyUI.Page) : System :=
  ActiveComment.mkState false None None
    (Some (mkWorld DEFAULTS false None Ancestors.initial (StickyUI.initial p)))
    [] [].

End Page.

End Main.

Module Sessions.
Import Js Dom.

(** The content script on the sample page, right after
    [updateStickyAncestors], and after a click in the text of the
    top-level comment. *)
Definition started : Main.System Empty_set :=
  Main.updateStickyAncestors Selectors.Old (Some Pages.samplePost) 9 Empty_set
    (Main.loaded Empty_set Pages.plainPage).
Definition anchored : Main.System Empty_set :=
  fst (ActiveComment.click Selectors.Old Pages.body ActiveComment.CaptureThenBubble
         Pages.paragraph started).

End Sessions.

(* ===================================================================== *)
(** ** Notions used to state the further properties *)
(* ===================================================================== *)

Module Channels.
Import Js Theme.

#[local] Open Scope Z_scope.

(** Where [adjust] lands a channel value. *)
Definition clip (z : Z) : Z := Z.max 0 (Z.min 255 z).

(** The two hex digits of a channel value. *)
Definition pair (z : Z) : string :=
  String (hexChar (z / 16)) (String (hexChar (z mod 16)) EmptyString).

End Channels.

Module Schedules.
Import Js Util.

Section Timers.
Variable Args : Type.
#[local] Open Scope Z_scope.

(** Calls of [fn] that are at least [interval] apart, the first one at
    least [interval] after [prev]. *)
Fixpoint spaced (interval : Z) (prev : option Z) (log : list (Z * Args)) : Prop :=
  match log with
  | [] => True
  | (t, _) :: r =>
      match prev with Some p => p + interval <= t | None => True end
      /\ spaced interval (Some t) r
  end.

(** Calls that arrive while the wrapped function must still wait. *)
Definition heldBack (interval last : Z) (ev : Event Args) : Prop :=
  exists now a, ev = Call now a /\ 0 < interval - (now - last).

End Timers.

(** The listeners of an event, in the order [forEach] visits them. *)
Definition subscribers (ls : Listeners) (event : string) : list Listener :=
  default [] (ls !! event).

(** The listener's latest registration for the event is still in force:
    no [off] for it and no [clear] came after. *)
Definition listening (ops : list Op) (event : string) (cb : Listener) : Prop :=
  exists pre post,
    ops = pre ++ On event cb :: post /\
    forall op, op ∈ post -> op <> Off event cb /\ op <> Clear.

Section Perf.
Variable Time : Type.

(** The samples kept under a name. *)
Definition samplesOf (st : PerfMetrics Time) (name : string) : list Time :=
  default [] (samples st !! name).

(** Every list in the store holds between 1 and 100 samples. *)
Definition windowed (st : PerfMetrics Time) : Prop :=
  forall name l, samples st !! name = Some l -> 1 <= length l <= 100.

End Perf.

End Schedules.

Module Threads.
Import Js Dom Ancestors Chains.


Section Layout.
Variable ver : Selectors.RedditVersion.

(** The result of the scan, as a function of the two values. *)
Definition nearest (a b : JsValue) : option Element :=
  scanDown (list_to_set (chainOfValue ver a)) (chainOfValue ver b)
           (length (chainOfValue ver b)).

End Layout.

End Threads.

Module Markers.
Import Js Dom Selectors.

(** The parent elements of an element inside the comment tree, nearest
    first: those that come before the first [shreddit-comment-tree]. *)
Fixpoint belowTreeRoot (up : list ElemData) : list ElemData :=
  match up with
  | [] => []
  | d :: r => if Nesting.isTag d "shreddit-comment-tree" then []
              else d :: belowTreeRoot r
  end.

(** The number of [shreddit-comment] elements that enclose an element
    inside the comment tree. *)
Definition enclosingComments (e : Element) : nat :=
  length (List.filter (fun d => Nesting.isTag d "shreddit-comment")
                      (belowTreeRoot (ancestors e))).

(** A reply of the second layout that carries no depth marker, inside a
    top-level comment. *)
Definition unmarkedReply : Element :=
  mkElement (mkData 33 "SHREDDIT-COMMENT" [] [("thingid", "t1_z")])
            [mkData 32 "DIV" [] [("slot", "children")];
             mkData 31 "SHREDDIT-COMMENT" [] [("thingid", "t1_y"); ("depth", "0")];
             mkData 30 "SHREDDIT-COMMENT-TREE" [] []; Pages.bodyD; Pages.html].

End Markers.

Module Running.
Import Js Dom Main.

Section Page.
Variable ver : Selectors.RedditVersion.
Variable body : Element.
Variable originalPost : option StickyUI.OpMeta.
Variable fuel : nat.
Variable Error : Type.

(** The part of the world that every run of the callback relies on and
    restores: the feature is switched on, the caches of ancestors.js agree
    with the page, the header module is active and has its container, and
    the marker is where the header module believes it to be. *)
Definition worldReady (w : World) : Prop :=
  stickyAncestorsEnabled (settings w) = true /\
  Chains.coherent ver (ancestors w) /\
  StickyUI.isActive (sticky w) = true /\
  is_Some (StickyUI.container (sticky w)) /\
  Header.markerExact (StickyUI.page (sticky w))
                     (StickyUI.currentActiveComment (sticky w)).

(** What a click may anchor: a classified comment whose walk to the top
    fits into the rounds given. *)
Definition walkable (x : Element) : Prop :=
  Selectors.isCommentData ver (self x) = true /\ Chains.rank (JsElem x) <= fuel.

(** The content script at work: the tracker is listening with
    [handleActiveCommentChange] as its callback, main.js and the tracker
    agree on the active comment, and the header is hidden while no comment
    is anchored. *)
Definition ready (sys : System Error) : Prop :=
  ActiveComment.isActive sys = true /\
  ActiveComment.onChangeCallback sys
  = Some (onActiveChange ver originalPost fuel Error) /\
  (forall x, ActiveComment.currentAnchored sys = Some x -> walkable x) /\
  exists w,
    ActiveComment.world sys = Some w /\
    worldReady w /\
    currentActiveComment w = ActiveComment.currentAnchored sys /\
    (ActiveComment.currentAnchored sys = None ->
     StickyUI.isVisible (sticky w) = false).

(** A list of clicks, delivered one after the other. *)
Fixpoint clicks (l : list (ActiveComment.Delivery * Element)) (sys : System Error)
  : System Error :=
  match l with
  | [] => sys
  | (how, target) :: r =>
      clicks r (fst (ActiveComment.click ver body how target sys))
  end.

(** How far the header follows the tracker: the comment the header has
    recorded as active is the anchored one or null, and it is the anchored
    one, with the header showing, whenever there is something to show for
    it: origin metadata, or an ancestor within the depth. *)
Definition headerFollows (sys : System Error) : Prop :=
  exists w,
    ActiveComment.world sys = Some w /\
    (StickyUI.currentActiveComment (sticky w) = ActiveComment.currentAnchored sys
     \/ StickyUI.currentActiveComment (sticky w) = None) /\
    forall x anc,
      ActiveComment.currentAnchored sys = Some x ->
      Chains.chainOf ver x = anc ++ [x] ->
      is_Some originalPost \/ StickyUI.sliceTo (stickyDepth (settings w)) anc <> [] ->
      StickyUI.currentActiveComment (sticky w) = Some x /\
      StickyUI.isVisible (sticky w) = true.

End Page.

End Running.

(* ===================================================================== *)
(** ** Properties *)
(* ===================================================================== *)

Module SelectorsFacts.
Import Js Dom Selectors.

(** A parent found by the tree walker is a classified comment and one of
    the strict ancestors of the element the walk started from. *)
Lemma old_parentLoop_spec cur p :
  OldReddit.parentLoop cur = Some p ->
  OldReddit.isCommentData (self p) = true /\
  exists pre, cur = pre ++ self p :: ancestors p.
Proof.
  induction cur as [|d up IH]; simpl; [discriminate|].
  destruct (hasClass d "child") eqn:Hc.
  - destruct up as [|q up'].
    + destruct (hasClass d "siteTable"); discriminate.
    + destruct (OldReddit.isCommentData q) eqn:Hq.
      * intros [= <-]. simpl. split; [exact Hq|].
        exists [d]. reflexivity.
      * destruct (hasClass d "siteTable"); [discriminate|].
        intros H. destruct (IH H) as [Hp [pre ->]].
        split; [exact Hp|]. exists (d :: pre). reflexivity.
  - destruct (hasClass d "siteTable"); [discriminate|].
    intros H. destruct (IH H) as [Hp [pre ->]].
    split; [exact Hp|]. exists (d :: pre). reflexivity.
Qed.

Lemma new_parentLoop_spec cur p :
  NewReddit.parentLoop cur = Some p ->
  NewReddit.isCommentData (self p) = true /\
  exists pre, cur = pre ++ self p :: ancestors p.
Proof.
  induction cur as [|d up IH]; simpl; [discriminate|].
  destruct (NewReddit.isCommentData d) eqn:Hd.
  - intros [= <-]. simpl. split; [exact Hd|]. exists []. reflexivity.
  - destruct (truthy (tagName d) &&
              String.eqb (toLowerCase (tagName d)) "shreddit-comment-tree");
      [discriminate|].
    intros H. destruct (IH H) as [Hp [pre ->]].
    split; [exact Hp|]. exists (d :: pre). reflexivity.
Qed.

Lemma isCommentThing_elem ver v :
  isCommentThing ver v = true ->
  exists e, v = JsElem e /\ isCommentData ver (self e) = true.
Proof.
  destruct ver, v; simpl; try discriminate; intros H; eexists; eauto.
Qed.

Lemma isCommentThing_JsElem ver e :
  isCommentThing ver (JsElem e) = isCommentData ver (self e).
Proof. destruct ver; reflexivity. Qed.

Lemma getParentThing_spec ver v p :
  getParentThing ver v = Some p ->
  isCommentData ver (self p) = true /\
  exists e pre, v = JsElem e /\ isCommentData ver (self e) = true /\
                ancestors e = pre ++ self p :: ancestors p.
Proof.
  destruct ver, v as [| | | |e]; simpl; try discriminate.
  - destruct (OldReddit.isCommentData (self e)) eqn:He; simpl; [|discriminate].
    intros H. destruct (old_parentLoop_spec _ _ H) as [Hp [pre Hpre]].
    split; [exact Hp|]. exists e, pre. auto.
  - destruct (NewReddit.isCommentData (self e)) eqn:He; simpl; [|discriminate].
    intros H. destruct (new_parentLoop_spec _ _ H) as [Hp [pre Hpre]].
    split; [exact Hp|]. exists e, pre. auto.
Qed.

(** Each step of the walk moves strictly towards the root. *)
Lemma getParentThing_strict ver e p :
  getParentThing ver (JsElem e) = Some p ->
  length (ancestors p) < length (ancestors e).
Proof.
  intros H. destruct (getParentThing_spec _ _ _ H) as [_ [e' [pre [[= <-] [_ Hanc]]]]].
  rewrite Hanc, length_app. simpl. lia.
Qed.

Lemma getParentThing_not_comment ver v :
  isCommentThing ver v = false -> getParentThing ver v = None.
Proof.
  destruct ver, v as [| | | |e]; simpl; try reflexivity; intros ->; reflexivity.
Qed.

End SelectorsFacts.

Module AncestorsFacts.
Import Js Dom Chains Ancestors SelectorsFacts.

#[local] Arguments alloc : simpl never.
#[local] Arguments sliceCopy : simpl never.

Section Layout.
Variable ver : Selectors.RedditVersion.

Lemma chainUp_app fuel current chain :
  chainUp ver fuel current chain = chainUp ver fuel current [] ++ chain.
Proof.
  revert current chain.
  induction fuel as [|fuel IH]; intros [cur|] chain; simpl; try reflexivity.
  rewrite IH, (IH _ [cur]), <- app_assoc. reflexivity.
Qed.

Lemma rankOf_parent e :
  rankOf (Selectors.getParentThing ver (JsElem e)) <= length (ancestors e).
Proof.
  destruct (Selectors.getParentThing ver (JsElem e)) as [p|] eqn:Hp; simpl; [|lia].
  apply getParentThing_strict in Hp. lia.
Qed.

Lemma chainUp_fuel fuel fuel' current :
  rankOf current <= fuel -> rankOf current <= fuel' ->
  chainUp ver fuel current [] = chainUp ver fuel' current [].
Proof.
  revert fuel' current.
  induction fuel as [|fuel IH]; intros fuel' [cur|]; simpl;
    try (intros; destruct fuel'; reflexivity); try lia.
  intros H1 H2. destruct fuel' as [|fuel']; [lia|]. simpl.
  rewrite chainUp_app, (chainUp_app fuel'). f_equal.
  pose proof (rankOf_parent cur). apply IH; lia.
Qed.

Lemma chainOf_unfold e :
  chainOf ver e =
  match Selectors.getParentThing ver (JsElem e) with
  | Some p => chainOf ver p ++ [e]
  | None => [e]
  end.
Proof.
  unfold chainOf at 1. simpl.
  destruct (Selectors.getParentThing ver (JsElem e)) as [p|] eqn:Hp.
  - rewrite chainUp_app. f_equal. unfold chainOf.
    apply getParentThing_strict in Hp. apply chainUp_fuel; simpl; lia.
  - destruct (length (ancestors e)); reflexivity.
Qed.

Lemma chainOf_last e : last (chainOf ver e) = Some e.
Proof.
  rewrite chainOf_unfold.
  destruct (Selectors.getParentThing ver (JsElem e)); [|reflexivity].
  apply last_snoc.
Qed.

Lemma chainOf_nonempty e : chainOf ver e <> [].
Proof. intros H. pose proof (chainOf_last e) as HL. rewrite H in HL. discriminate. Qed.

(** The chain is never longer than the element is deep in the page. *)
Lemma chainUp_length fuel current :
  length (chainUp ver fuel current []) <= rankOf current.
Proof.
  revert current. induction fuel as [|fuel IH]; intros [cur|]; simpl; try lia.
  rewrite chainUp_app, length_app. simpl.
  pose proof (IH (Selectors.getParentThing ver (JsElem cur))).
  pose proof (rankOf_parent cur). lia.
Qed.

Lemma chainOf_length e : length (chainOf ver e) <= S (length (ancestors e)).
Proof. apply (chainUp_length _ (Some e)). Qed.

Lemma getParentCached_coherent pc e :
  parentsCoherent ver pc ->
  exists pc', getParentCached ver pc e = (Selectors.getParentThing ver (JsElem e), pc')
              /\ parentsCoherent ver pc'.
Proof.
  intros Hpc. unfold getParentCached.
  destruct (pc !! e) as [cached|] eqn:Hc.
  - exists pc. rewrite (Hpc _ _ Hc). auto.
  - eexists. split; [reflexivity|].
    intros e' p'. rewrite lookup_insert. case_decide as Heq.
    + subst e'. intros [= <-]. reflexivity.
    + apply Hpc.
Qed.

(** On coherent caches the loop returns as soon as it has one unit of
    fuel per level of the page above the element. *)
Lemma walkUp_coherent fuel pc current chain :
  parentsCoherent ver pc -> rankOf current <= fuel ->
  exists pc', walkUp ver fuel pc current chain
              = Some (chainUp ver fuel current chain, pc')
              /\ parentsCoherent ver pc'.
Proof.
  revert pc current chain.
  induction fuel as [|fuel IH]; intros pc [cur|] chain Hpc Hr; simpl in *;
    try lia; try solve [exists pc; auto].
  destruct (getParentCached_coherent pc cur Hpc) as [pc1 [Heq Hpc1]].
  rewrite Heq. pose proof (rankOf_parent cur). apply IH; [exact Hpc1|lia].
Qed.

Lemma arrayAt_lookup st r l : heap st !! r = Some l -> arrayAt st r = l.
Proof. unfold arrayAt. intros ->. reflexivity. Qed.

Lemma alloc_props l st r st' :
  alloc l st = (r, st') ->
  heap st !! r = None /\ heap st' = <[r := l]> (heap st) /\
  parentCache st' = parentCache st /\ chainCache st' = chainCache st.
Proof.
  unfold alloc. intros [= <- <-]. simpl.
  split; [|auto]. apply not_elem_of_dom, is_fresh.
Qed.

Lemma coherent_alloc l st r st' :
  coherent ver st -> alloc l st = (r, st') ->
  coherent ver st' /\ notCached st' r /\ heapExtends st st' /\
  heap st !! r = None /\ heap st' !! r = Some l /\ cacheGrows st st'.
Proof.
  intros [Hp Hc] Ha. destruct (alloc_props _ _ _ _ Ha) as (Hf & Hh & Hpc & Hcc).
  assert (Hext : heapExtends st st').
  { intros r0 l0 H0. rewrite Hh, lookup_insert_ne; [exact H0|congruence]. }
  repeat split.
  - rewrite Hpc. exact Hp.
  - intros e c. rewrite Hcc. intros H. apply Hext, Hc, H.
  - intros e c. rewrite Hcc. intros H <-. apply Hc in H. congruence.
  - exact Hext.
  - exact Hf.
  - rewrite Hh. apply lookup_insert_eq.
  - intros e c. rewrite Hcc. auto.
Qed.

Lemma chainOfValue_not_comment v :
  Selectors.isCommentThing ver v = false -> chainOfValue ver v = [].
Proof.
  destruct v as [| | | |e]; try reflexivity.
  rewrite isCommentThing_JsElem. simpl. intros ->. reflexivity.
Qed.

Lemma heapExtends_trans st1 st2 st3 :
  heapExtends st1 st2 -> heapExtends st2 st3 -> heapExtends st1 st3.
Proof. intros H1 H2 r l H. apply H2, H1, H. Qed.

(** What one call of [computeAncestors] does on coherent caches: it
    returns, the array it returns is new and holds the chain, and the
    caches stay coherent. *)
Lemma computeAncestors_spec fuel st v :
  coherent ver st -> rank v <= fuel ->
  exists r st',
    computeAncestors ver fuel st v = Some (r, st') /\
    heap st !! r = None /\
    heap st' !! r = Some (chainOfValue ver v) /\
    coherent ver st' /\ notCached st' r /\ heapExtends st st' /\
    cacheGrows st st'.
Proof.
  intros Hco Hr. unfold computeAncestors.
  destruct (Selectors.isCommentThing ver v) eqn:Hv; cbn [negb].
  - destruct (isCommentThing_elem _ _ Hv) as [e [-> He]].
    cbn [chainOfValue]. rewrite He.
    destruct (chainCache st !! e) as [c|] eqn:Hc.
    + unfold sliceCopy. rewrite (arrayAt_lookup _ _ _ (coh_chains _ _ Hco _ _ Hc)).
      destruct (alloc (chainOf ver e) st) as [r st'] eqn:Ha.
      destruct (coherent_alloc _ _ _ _ Hco Ha) as (H1 & H2 & H3 & H4 & H5 & H6).
      exists r, st'. auto 10.
    + destruct (walkUp_coherent fuel (parentCache st) (Some e) []
                  (coh_parents _ _ Hco) Hr) as [pc' [-> Hpc']].
      assert (Hchain : chainUp ver fuel (Some e) [] = chainOf ver e).
      { apply chainUp_fuel; simpl in *; lia. }
      rewrite Hchain.
      set (sta := mkState (heap st) pc' (chainCache st)).
      assert (Hsta : coherent ver sta).
      { split; [exact Hpc'|]. intros e0 r0. apply (coh_chains _ _ Hco). }
      destruct (alloc (chainOf ver e) sta) as [c st1] eqn:Ha.
      destruct (coherent_alloc _ _ _ _ Hsta Ha) as (H1 & H2 & H3 & H4 & H5 & H6).
      set (st2 := mkState (heap st1) (parentCache st1) (<[e := c]> (chainCache st1))).
      assert (Hst2 : coherent ver st2).
      { split; [apply (coh_parents _ _ H1)|]. intros e0 r0. simpl.
        rewrite lookup_insert. case_decide as Heq.
        - subst e0. intros [= <-]. exact H5.
        - apply (coh_chains _ _ H1). }
      unfold sliceCopy. rewrite (arrayAt_lookup st2 c (chainOf ver e) H5).
      destruct (alloc (chainOf ver e) st2) as [r st'] eqn:Hb.
      destruct (coherent_alloc _ _ _ _ Hst2 Hb) as (K1 & K2 & K3 & K4 & K5 & K6).
      exists r, st'. split; [reflexivity|].
      split.
      { destruct (heap st !! r) as [l|] eqn:Hl; [|reflexivity].
        apply (H3 r l) in Hl. simpl in K4. congruence. }
      repeat split; try assumption; try apply K1.
      { apply (heapExtends_trans _ st1); [exact H3|exact K3]. }
      intros e0 c0 H0. destruct (K6 _ _ H0) as [K|K].
      { simpl in K. rewrite lookup_insert in K. case_decide as Heq.
        - injection K as <-. right. exact H4.
        - destruct (H6 _ _ K) as [K'|K']; [left; exact K'|right; exact K']. }
      right. simpl in K.
      destruct (heap st !! c0) as [l|] eqn:Hl; [|reflexivity].
      apply (H3 c0 l) in Hl. congruence.
  - rewrite (chainOfValue_not_comment _ Hv).
    destruct (alloc [] st) as [r st'] eqn:Ha.
    destruct (coherent_alloc _ _ _ _ Hco Ha) as (H1 & H2 & H3 & H4 & H5 & H6).
    exists r, st'. auto 10.
Qed.

(** A caller that writes to an array no cache entry points to leaves the
    caches coherent. *)
Lemma coherent_mutate st r l :
  coherent ver st -> notCached st r -> coherent ver (mutateArray r l st).
Proof.
  intros [Hp Hc] Hn. split; [exact Hp|].
  intros e c H. simpl in *. rewrite lookup_insert_ne; [apply Hc, H|].
  intros <-. exact (Hn _ _ H eq_refl).
Qed.

Lemma arrayAt_mutate_ne st r l r' :
  r <> r' -> arrayAt (mutateArray r l st) r' = arrayAt st r'.
Proof. intros Hne. unfold arrayAt. simpl. rewrite lookup_insert_ne; auto. Qed.

Lemma notCached_grows st st' r l :
  notCached st r -> heap st !! r = Some l -> cacheGrows st st' ->
  notCached st' r.
Proof.
  intros Hn Hr Hg e c H <-. destruct (Hg _ _ H) as [K|K].
  - exact (Hn _ _ K eq_refl).
  - congruence.
Qed.

Lemma mutation_harmless fuel st r r' l v :
  coherent ver st -> notCached st r -> r <> r' -> rank v <= fuel ->
  arrayAt (mutateArray r l st) r' = arrayAt st r' /\
  (forall e c, chainCache (mutateArray r l st) !! e = Some c ->
               arrayAt (mutateArray r l st) c = arrayAt st c) /\
  exists r4 st4,
    computeAncestors ver fuel (mutateArray r l st) v = Some (r4, st4) /\
    arrayAt st4 r4 = chainOfValue ver v.
Proof.
  intros Hco Hn Hne Hr. split; [apply arrayAt_mutate_ne, Hne|]. split.
  - intros e c Hc. apply arrayAt_mutate_ne. intros <-. exact (Hn _ _ Hc eq_refl).
  - destruct (computeAncestors_spec fuel _ v (coherent_mutate _ r l Hco Hn) Hr)
      as (r4 & st4 & E & _ & A & _).
    exists r4, st4. split; [exact E|]. apply arrayAt_lookup, A.
Qed.

(** C10.  For a value that is not classified as a comment (null, a
    non-element, an element of another kind) [computeAncestors] returns
    a new empty array, [getDepth] returns 0 and [getTopLevelAncestor]
    returns null; the three calls complete, whatever the caches hold and
    with no fuel at all. *)
Theorem non_comment_defaults fuel st v :
  Selectors.isCommentThing ver v = false ->
  exists r st',
    computeAncestors ver fuel st v = Some (r, st') /\
    arrayAt st' r = [] /\
    getDepth ver fuel st v = Some (0%Z, st') /\
    getTopLevelAncestor ver fuel st v = Some (None, st').
Proof.
  intros Hv.
  assert (E : computeAncestors ver fuel st v = Some (alloc [] st)).
  { unfold computeAncestors. rewrite Hv. reflexivity. }
  destruct (alloc [] st) as [r st'] eqn:Ha.
  destruct (alloc_props _ _ _ _ Ha) as (_ & Hh & _).
  assert (A : arrayAt st' r = []).
  { apply arrayAt_lookup. rewrite Hh. apply lookup_insert_eq. }
  exists r, st'. split; [exact E|]. split; [exact A|].
  unfold getDepth, getTopLevelAncestor. rewrite E, A. split; reflexivity.
Qed.

(** C5.  Two calls of [computeAncestors] on the same value return two
    different array objects with the same elements, and neither of them
    is the array kept in [chainCache]: whatever a caller writes into one
    of them, the other one and every cached chain keep their elements,
    and a later call still returns the original chain. *)
Theorem copy_semantics fuel st v :
  coherent ver st -> rank v <= fuel ->
  exists r1 st1 r2 st2,
    computeAncestors ver fuel st v = Some (r1, st1) /\
    computeAncestors ver fuel st1 v = Some (r2, st2) /\
    r1 <> r2 /\
    arrayAt st2 r1 = arrayAt st2 r2 /\
    notCached st2 r1 /\ notCached st2 r2 /\
    forall l,
      (arrayAt (mutateArray r1 l st2) r2 = arrayAt st2 r2 /\
       (forall e c, chainCache (mutateArray r1 l st2) !! e = Some c ->
                    arrayAt (mutateArray r1 l st2) c = arrayAt st2 c) /\
       exists r4 st4,
         computeAncestors ver fuel (mutateArray r1 l st2) v = Some (r4, st4) /\
         arrayAt st4 r4 = arrayAt st2 r2) /\
      (arrayAt (mutateArray r2 l st2) r1 = arrayAt st2 r1 /\
       (forall e c, chainCache (mutateArray r2 l st2) !! e = Some c ->
                    arrayAt (mutateArray r2 l st2) c = arrayAt st2 c) /\
       exists r4 st4,
         computeAncestors ver fuel (mutateArray r2 l st2) v = Some (r4, st4) /\
         arrayAt st4 r4 = arrayAt st2 r1).
Proof.
  intros Hco Hr.
  destruct (computeAncestors_spec fuel st v Hco Hr)
    as (r1 & st1 & E1 & F1 & A1 & Co1 & N1 & X1 & G1).
  destruct (computeAncestors_spec fuel st1 v Co1 Hr)
    as (r2 & st2 & E2 & F2 & A2 & Co2 & N2 & X2 & G2).
  assert (Hne : r1 <> r2) by (intros ->; congruence).
  assert (B1 : arrayAt st2 r1 = chainOfValue ver v)
    by (apply arrayAt_lookup, X2, A1).
  assert (B2 : arrayAt st2 r2 = chainOfValue ver v)
    by (apply arrayAt_lookup, A2).
  assert (N1' : notCached st2 r1) by (eapply notCached_grows; eauto).
  exists r1, st1, r2, st2.
  split; [exact E1|]. split; [exact E2|]. split; [exact Hne|].
  split; [congruence|]. split; [exact N1'|]. split; [exact N2|].
  intros l. split.
  - destruct (mutation_harmless fuel st2 r1 r2 l v Co2 N1' Hne Hr)
      as (M1 & M2 & r4 & st4 & M3 & M4).
    split; [exact M1|]. split; [exact M2|].
    exists r4, st4. split; [exact M3|congruence].
  - destruct (mutation_harmless fuel st2 r2 r1 l v Co2 N2 (not_eq_sym Hne) Hr)
      as (M1 & M2 & r4 & st4 & M3 & M4).
    split; [exact M1|]. split; [exact M2|].
    exists r4, st4. split; [exact M3|congruence].
Qed.

Lemma getParentCached_acyclic pc e :
  acyclic pc ->
  exists p pc', getParentCached ver pc e = (p, pc') /\
                rankOf p <= length (ancestors e) /\ acyclic pc'.
Proof.
  intros Hpc. unfold getParentCached.
  destruct (pc !! e) as [[p|]|] eqn:Hc.
  - exists (Some p), pc. repeat split; [|exact Hpc]. simpl.
    pose proof (Hpc _ _ Hc). lia.
  - exists None, pc. repeat split; [simpl; lia|exact Hpc].
  - eexists _, _. split; [reflexivity|]. split; [apply rankOf_parent|].
    intros e' p'. rewrite lookup_insert. case_decide as Heq.
    + subst e'. intros [= H]. apply getParentThing_strict with ver. congruence.
    + apply Hpc.
Qed.

Lemma walkUp_acyclic fuel pc current chain :
  acyclic pc -> rankOf current <= fuel ->
  exists chain' pc', walkUp ver fuel pc current chain = Some (chain', pc') /\
                     acyclic pc' /\
                     length chain' <= length chain + rankOf current.
Proof.
  revert pc current chain.
  induction fuel as [|fuel IH]; intros pc [cur|] chain Hpc Hr; simpl in *;
    try lia; try solve [exists chain, pc; repeat split; auto; lia].
  destruct (getParentCached_acyclic pc cur Hpc) as (p & pc1 & Heq & Hp & Hpc1).
  rewrite Heq.
  destruct (IH pc1 p (cur :: chain) Hpc1 ltac:(lia)) as (c' & pc' & E & A & L).
  exists c', pc'. repeat split; auto. simpl in L. lia.
Qed.

Lemma walkUp_length fuel pc current chain chain' pc' :
  walkUp ver fuel pc current chain = Some (chain', pc') ->
  length chain + match current with Some _ => 1 | None => 0 end <= length chain'.
Proof.
  revert pc current chain.
  induction fuel as [|fuel IH]; intros pc [cur|] chain; simpl;
    try discriminate; try (intros [= <- <-]; lia).
  destruct (getParentCached ver pc cur) as [p pc1].
  intros H. apply IH in H. simpl in H. lia.
Qed.

(** The loop needs exactly as many iterations as the chain has
    elements: with that much fuel it returns, with less it does not. *)
Lemma walkUp_exact fuel pc current chain chain' pc' :
  walkUp ver fuel pc current chain = Some (chain', pc') ->
  forall f, walkUp ver f pc current chain =
            if length chain' - length chain <=? f then Some (chain', pc') else None.
Proof.
  revert pc current chain.
  induction fuel as [|fuel IH]; intros pc [cur|] chain; simpl; try discriminate.
  - intros [= <- <-] f. replace (length chain - length chain) with 0 by lia.
    destruct f; reflexivity.
  - destruct (getParentCached ver pc cur) as [p pc1] eqn:Hg.
    intros H f. pose proof (walkUp_length _ _ _ _ _ _ H) as HL. simpl in HL.
    destruct f as [|f]; simpl.
    + destruct (length chain' - length chain <=? 0) eqn:Hle; [|reflexivity].
      apply Nat.leb_le in Hle. lia.
    + rewrite Hg, (IH _ _ _ H f). simpl.
      replace (length chain' - length chain) with (S (length chain' - S (length chain))) by lia.
      reflexivity.
  - intros [= <- <-] f. replace (length chain - length chain) with 0 by lia.
    destruct f; reflexivity.
Qed.

(** C9.  When no remembered parent closes a cycle (each one is a strict
    ancestor, as every parent the tree walker finds is), the walk of
    [computeAncestors] ends: it runs once per element of the chain, the
    chain is no longer than the node is deep in the page plus one, and
    [computeAncestors] returns. *)
Theorem walk_terminates fuel st e :
  acyclic (parentCache st) -> length (ancestors e) < fuel ->
  (exists chain pc',
     walkUp ver fuel (parentCache st) (Some e) [] = Some (chain, pc') /\
     length chain - 1 <= length (ancestors e) /\
     (forall f, walkUp ver f (parentCache st) (Some e) [] =
                if length chain <=? f then Some (chain, pc') else None)) /\
  exists r st', computeAncestors ver fuel st (JsElem e) = Some (r, st').
Proof.
  intros Hpc Hf.
  destruct (walkUp_acyclic fuel (parentCache st) (Some e) [] Hpc ltac:(simpl; lia))
    as (chain & pc' & E & _ & L).
  split.
  - exists chain, pc'. split; [exact E|]. split; [simpl in L; lia|].
    intros f. rewrite (walkUp_exact _ _ _ _ _ _ E f). simpl.
    rewrite Nat.sub_0_r. reflexivity.
  - unfold computeAncestors.
    destruct (negb (Selectors.isCommentThing ver (JsElem e))); [eexists _, _; reflexivity|].
    destruct (chainCache st !! e); [eexists _, _; reflexivity|].
    rewrite E. destruct (alloc chain _) as [r st1]. eexists _, _. reflexivity.
Qed.

Lemma coherent_acyclic pc : parentsCoherent ver pc -> acyclic pc.
Proof.
  intros H e p Hp. apply H in Hp. symmetry in Hp.
  apply getParentThing_strict in Hp. exact Hp.
Qed.

(** Induction along the parent relation. *)
Lemma chain_ind (P : Element -> Prop) :
  (forall e, (forall p, Selectors.getParentThing ver (JsElem e) = Some p -> P p) -> P e) ->
  forall e, P e.
Proof.
  intros Hstep e.
  assert (H : forall n e, length (ancestors e) <= n -> P e).
  { induction n as [|n IH]; intros e0 Hn; apply Hstep; intros p Hp;
      apply getParentThing_strict in Hp; [lia|apply IH; lia]. }
  apply (H (length (ancestors e))). lia.
Qed.

Lemma chainOf_elem_rank e :
  forall y, y ∈ chainOf ver e -> length (ancestors y) <= length (ancestors e).
Proof.
  induction e as [e IH] using chain_ind. intros y.
  rewrite chainOf_unfold.
  destruct (Selectors.getParentThing ver (JsElem e)) as [p|] eqn:Hp.
  - rewrite elem_of_app, list_elem_of_singleton. intros [Hy| ->]; [|lia].
    apply (IH p eq_refl) in Hy. apply getParentThing_strict in Hp. lia.
  - rewrite list_elem_of_singleton. intros ->. lia.
Qed.

Lemma chainOf_NoDup e : NoDup (chainOf ver e).
Proof.
  induction e as [e IH] using chain_ind.
  rewrite chainOf_unfold.
  destruct (Selectors.getParentThing ver (JsElem e)) as [p|] eqn:Hp.
  - apply NoDup_app. split; [apply (IH p eq_refl)|]. split; [|apply NoDup_singleton].
    intros y Hy. rewrite list_elem_of_singleton. intros ->.
    apply chainOf_elem_rank in Hy. apply getParentThing_strict in Hp. lia.
  - apply NoDup_singleton.
Qed.

(** The chain of a node begins with the chain of each of its members. *)
Lemma chainOf_prefix e :
  forall x, x ∈ chainOf ver e -> exists s, chainOf ver e = chainOf ver x ++ s.
Proof.
  induction e as [e IH] using chain_ind. intros x.
  rewrite (chainOf_unfold e).
  destruct (Selectors.getParentThing ver (JsElem e)) as [p|] eqn:Hp.
  - rewrite elem_of_app, list_elem_of_singleton. intros [Hx| ->].
    + destruct (IH p eq_refl x Hx) as [s' Hs]. exists (s' ++ [e]).
      rewrite Hs, <- app_assoc. reflexivity.
    + exists []. rewrite app_nil_r, (chainOf_unfold e), Hp. reflexivity.
  - rewrite list_elem_of_singleton. intros ->. exists [].
    rewrite app_nil_r, (chainOf_unfold e), Hp. reflexivity.
Qed.

Lemma chainOfValue_NoDup v : NoDup (chainOfValue ver v).
Proof.
  destruct v as [| | | |e]; simpl; try apply NoDup_nil_2.
  destruct (Selectors.isCommentData ver (self e)); [apply chainOf_NoDup|apply NoDup_nil_2].
Qed.

Lemma chainOfValue_prefix v x :
  x ∈ chainOfValue ver v -> exists s, chainOfValue ver v = chainOf ver x ++ s.
Proof.
  destruct v as [| | | |e]; simpl; try solve [intros H; inversion H].
  destruct (Selectors.isCommentData ver (self e)); [apply chainOf_prefix|].
  intros H; inversion H.
Qed.

Lemma NoDup_split_unique (l1 l2 l1' l2' : list Element) x :
  NoDup (l1 ++ x :: l2) -> l1 ++ x :: l2 = l1' ++ x :: l2' ->
  l1 = l1' /\ l2 = l2'.
Proof.
  revert l1'. induction l1 as [|a r IH]; intros [|a' r'] Hnd Heq; simpl in *.
  - injection Heq as ->. auto.
  - injection Heq as <- ->. apply NoDup_cons in Hnd as [Hx _].
    exfalso. apply Hx. rewrite elem_of_app, elem_of_cons. auto.
  - injection Heq as -> <-. apply NoDup_cons in Hnd as [Hx _].
    exfalso. apply Hx. rewrite elem_of_app, elem_of_cons. auto.
  - injection Heq as <- Heq. apply NoDup_cons in Hnd as [_ Hnd].
    destruct (IH _ Hnd Heq) as [-> ->]. auto.
Qed.

(** The scan returns the last member of [chain2] that is in [set1]. *)
Lemma scanDown_spec (set1 : gset Element) chain2 n :
  n <= length chain2 ->
  match scanDown set1 chain2 n with
  | Some x => exists pre suf, take n chain2 = pre ++ x :: suf /\ x ∈ set1 /\
                              forall y, y ∈ suf -> y ∉ set1
  | None => forall y, y ∈ take n chain2 -> y ∉ set1
  end.
Proof.
  induction n as [|n IH]; intros Hn; simpl.
  - intros y Hy. rewrite take_0 in Hy. inversion Hy.
  - destruct (lookup_lt_is_Some_2 chain2 n ltac:(lia)) as [x Hx].
    rewrite Hx, (take_S_r _ _ _ Hx). case_bool_decide as Hin.
    + exists (take n chain2), []. split; [reflexivity|]. split; [exact Hin|].
      intros y Hy. inversion Hy.
    + specialize (IH ltac:(lia)).
      destruct (scanDown set1 chain2 n) as [x'|].
      * destruct IH as (pre & suf & Ht & Hx' & Hs).
        exists pre, (suf ++ [x]). rewrite Ht, <- app_assoc. split; [reflexivity|].
        split; [exact Hx'|]. intros y. rewrite elem_of_app, list_elem_of_singleton.
        intros [Hy| ->]; auto.
      * intros y. rewrite elem_of_app, list_elem_of_singleton.
        intros [Hy| ->]; auto.
Qed.

(** What the scan finds on two chains: the end of their longest common
    beginning. *)
Lemma scan_nearest a b x :
  scanDown (list_to_set (chainOfValue ver a)) (chainOfValue ver b)
           (length (chainOfValue ver b)) = Some x ->
  x ∈ chainOfValue ver a /\ x ∈ chainOfValue ver b /\
  exists pre s1 s2,
    chainOfValue ver a = pre ++ x :: s1 /\
    chainOfValue ver b = pre ++ x :: s2 /\
    forall y, y ∈ s1 -> y ∉ s2.
Proof.
  intros Hs.
  pose proof (scanDown_spec (list_to_set (chainOfValue ver a))
                (chainOfValue ver b) _ (Nat.le_refl _)) as Hspec.
  rewrite Hs, firstn_all in Hspec. destruct Hspec as (pre2 & suf2 & H2 & Hx1 & Hsuf).
  rewrite elem_of_list_to_set in Hx1.
  assert (Hx2 : x ∈ chainOfValue ver b).
  { rewrite H2, elem_of_app, elem_of_cons. auto. }
  split; [exact Hx1|]. split; [exact Hx2|].
  destruct (chainOfValue_prefix _ _ Hx1) as [s1 Hc1].
  destruct (chainOfValue_prefix _ _ Hx2) as [s2 Hc2].
  pose proof (chainOf_last x) as Hlast. apply last_Some in Hlast as [init Hinit].
  rewrite Hinit, <- app_assoc in Hc1, Hc2. simpl in Hc1, Hc2.
  pose proof (chainOfValue_NoDup b) as Hnd. rewrite Hc2 in Hnd.
  rewrite Hc2 in H2. destruct (NoDup_split_unique _ _ _ _ _ Hnd H2) as [<- <-].
  exists init, s1, s2. split; [exact Hc1|]. split; [exact Hc2|].
  intros y Hy1 Hy2. apply (Hsuf y Hy2). rewrite elem_of_list_to_set, Hc1.
  rewrite elem_of_app, elem_of_cons. auto.
Qed.

Lemma scan_none a b :
  scanDown (list_to_set (chainOfValue ver a)) (chainOfValue ver b)
           (length (chainOfValue ver b)) = None ->
  forall y, y ∈ chainOfValue ver a -> y ∉ chainOfValue ver b.
Proof.
  intros Hs y Hy1 Hy2.
  pose proof (scanDown_spec (list_to_set (chainOfValue ver a))
                (chainOfValue ver b) _ (Nat.le_refl _)) as Hspec.
  rewrite Hs, firstn_all in Hspec. apply (Hspec y Hy2).
  rewrite elem_of_list_to_set. exact Hy1.
Qed.

(** [chain.length > 0 ? chain[0] : null] is the head of the chain. *)
Lemma top_head (chain : list Element) :
  (if 0 <? length chain then chain !! 0 else None) = head chain.
Proof. destruct chain; reflexivity. Qed.

(** C4.  [findCommonAncestor(a, b)] returns null exactly when
    [shareTopLevel(a, b)] is false; otherwise it returns an element
    present in both chains, namely the last element of the longest
    common beginning of the two chains (the nearest common ancestor),
    and it is the first member of [a]'s chain met when [b]'s chain is
    scanned from its tail. *)
Theorem common_ancestor fuel st a b :
  coherent ver st -> rank a <= fuel -> rank b <= fuel ->
  exists r1 st1 r2 st2 res share,
    computeAncestors ver fuel st a = Some (r1, st1) /\
    computeAncestors ver fuel st1 b = Some (r2, st2) /\
    findCommonAncestor ver fuel st a b = Some (res, st2) /\
    shareTopLevel ver fuel st a b = Some (share, st2) /\
    res = scanDown (list_to_set (arrayAt st2 r1)) (arrayAt st2 r2)
                   (length (arrayAt st2 r2)) /\
    (share = false -> res = None) /\
    (share = true -> is_Some res) /\
    forall x, res = Some x ->
      x ∈ arrayAt st2 r1 /\ x ∈ arrayAt st2 r2 /\
      exists pre s1 s2,
        arrayAt st2 r1 = pre ++ x :: s1 /\
        arrayAt st2 r2 = pre ++ x :: s2 /\
        forall y, y ∈ s1 -> y ∉ s2.
Proof.
  intros Hco Ha Hb.
  destruct (computeAncestors_spec fuel st a Hco Ha)
    as (r1 & st1 & E1 & F1 & A1 & Co1 & N1 & X1 & G1).
  destruct (computeAncestors_spec fuel st1 b Co1 Hb)
    as (r2 & st2 & E2 & F2 & A2 & Co2 & N2 & X2 & G2).
  pose proof (arrayAt_lookup _ _ _ A1) as B0.
  pose proof (arrayAt_lookup _ _ _ (X2 _ _ A1)) as B1.
  pose proof (arrayAt_lookup _ _ _ A2) as B2.
  set (res := scanDown (list_to_set (chainOfValue ver a)) (chainOfValue ver b)
                       (length (chainOfValue ver b))).
  set (share := bool_decide (head (chainOfValue ver a) <> None)
                && bool_decide (head (chainOfValue ver a) = head (chainOfValue ver b))).
  exists r1, st1, r2, st2, res, share.
  split; [exact E1|]. split; [exact E2|].
  split. { unfold findCommonAncestor. rewrite E1, E2, B1, B2. reflexivity. }
  split. { unfold shareTopLevel, getTopLevelAncestor.
           rewrite E1, E2, B0, B2, !top_head. reflexivity. }
  rewrite B1, B2. split; [reflexivity|].
  assert (Hsome : forall x, res = Some x -> share = true).
  { intros x Hx. destruct (scan_nearest a b x Hx) as (_ & _ & pre & s1 & s2 & H1 & H2 & _).
    unfold share. rewrite H1, H2. apply andb_true_iff.
    split; apply bool_decide_eq_true; destruct pre; simpl; congruence. }
  split.
  { intros Hsh. destruct res as [x|] eqn:Hres; [|reflexivity].
    rewrite (Hsome x eq_refl) in Hsh. discriminate. }
  split.
  { intros Hsh. destruct res as [x|] eqn:Hres; [eauto|]. exfalso.
    pose proof (scan_none a b Hres) as Hnone.
    unfold share in Hsh. apply andb_true_iff in Hsh as [Hn Heq].
    apply bool_decide_eq_true in Hn, Heq. clear Hsome Hres res share A1 A2 B0 B1 B2.
    destruct (chainOfValue ver a) as [|t ta]; [simpl in Hn; congruence|].
    destruct (chainOfValue ver b) as [|t' tb]; [discriminate|].
    simpl in Heq. injection Heq as <-.
    apply (Hnone t); apply list_elem_of_here. }
  intros x Hx. apply scan_nearest. exact Hx.
Qed.

End Layout.

Lemma non_comment_defaults_witness :
  Selectors.isCommentThing Selectors.Old JsNull = false /\
  exists r st',
    computeAncestors Selectors.Old 0 initial JsNull = Some (r, st') /\
    arrayAt st' r = [] /\
    getDepth Selectors.Old 0 initial JsNull = Some (0%Z, st') /\
    getTopLevelAncestor Selectors.Old 0 initial JsNull = Some (None, st').
Proof.
  split; [reflexivity|].
  apply (non_comment_defaults Selectors.Old 0 initial JsNull). reflexivity.
Defined.

Lemma initial_acyclic : acyclic (parentCache initial).
Proof. intros e p H. simpl in H. rewrite lookup_empty in H. discriminate. Qed.

Lemma walk_terminates_witness :
  acyclic (parentCache initial) /\
  length (ancestors Pages.reply) < 9 /\
  exists r st',
    computeAncestors Selectors.Old 9 initial (JsElem Pages.reply) = Some (r, st').
Proof.
  split; [exact initial_acyclic|]. split; [simpl; lia|].
  apply (walk_terminates Selectors.Old 9 initial Pages.reply initial_acyclic).
  simpl; lia.
Defined.

(** [invalidate] only forgets entries. *)
Lemma invalidate_coherent ver st v :
  coherent ver st -> coherent ver (invalidate st v).
Proof.
  intros [Hp Hc]. destruct v as [| | | |e]; try (split; assumption).
  split.
  - intros e' p H. simpl in H. apply lookup_delete_Some in H as [_ H]. apply Hp, H.
  - intros e' r H. simpl in *. apply lookup_delete_Some in H as [_ H]. apply Hc, H.
Qed.

Lemma initial_coherent ver : coherent ver initial.
Proof. split; intros e p H; simpl in H; rewrite lookup_empty in H; discriminate. Qed.

Lemma common_ancestor_witness :
  coherent Selectors.Old initial /\
  rank (JsElem Pages.reply) <= 9 /\ rank (JsElem Pages.topComment) <= 9 /\
  exists res st', findCommonAncestor Selectors.Old 9 initial
                    (JsElem Pages.reply) (JsElem Pages.topComment) = Some (res, st').
Proof.
  split; [exact (initial_coherent Selectors.Old)|].
  split; [simpl; lia|]. split; [simpl; lia|].
  destruct (common_ancestor Selectors.Old 9 initial (JsElem Pages.reply)
              (JsElem Pages.topComment) (initial_coherent Selectors.Old)
              ltac:(simpl; lia) ltac:(simpl; lia))
    as (r1 & st1 & r2 & st2 & res & share & _ & _ & E & _).
  exists res, st2. exact E.
Defined.

Lemma copy_semantics_witness :
  coherent Selectors.Old initial /\
  rank (JsElem Pages.reply) <= 9 /\
  exists r1 st1 r2 st2,
    computeAncestors Selectors.Old 9 initial (JsElem Pages.reply) = Some (r1, st1) /\
    computeAncestors Selectors.Old 9 st1 (JsElem Pages.reply) = Some (r2, st2) /\
    r1 <> r2 /\ arrayAt st2 r1 = arrayAt st2 r2.
Proof.
  split; [exact (initial_coherent Selectors.Old)|]. split; [simpl; lia|].
  destruct (copy_semantics Selectors.Old 9 initial (JsElem Pages.reply)
              (initial_coherent Selectors.Old) ltac:(simpl; lia))
    as (r1 & st1 & r2 & st2 & E1 & E2 & Hne & Heq & _).
  exists r1, st1, r2, st2. auto.
Defined.

End AncestorsFacts.

Module DepthFacts.
Import Js Dom Selectors Chains Nesting Ancestors SelectorsFacts AncestorsFacts.

#[local] Arguments hasClass : simpl never.
#[local] Arguments OldReddit.isCommentData : simpl never.
#[local] Arguments NewReddit.isCommentData : simpl never.
#[local] Arguments stopsDepthWalk : simpl never.
#[local] Arguments isTag : simpl never.

Lemma old_step cur n :
  wellNestedOld cur = true ->
  match OldReddit.parentLoop cur with
  | None => OldReddit.depthLoop cur (Num n) = Num n
  | Some p => OldReddit.depthLoop cur (Num n)
              = OldReddit.depthLoop (ancestors p) (Num (n + 1))
              /\ wellNestedOld (ancestors p) = true
  end.
Proof.
  revert n. induction cur as [|d up IH]; intros n; [reflexivity|].
  cbn [wellNestedOld OldReddit.parentLoop OldReddit.depthLoop].
  change (hasClass d "siteTable" && hasClass d "nestedlisting"
          || truthy (idOf d) && startsWith (idOf d) "siteTable")
    with (stopsDepthWalk d).
  unfold stopsDepthWalk at 1.
  destruct (hasClass d "siteTable") eqn:HS;
    destruct (hasClass d "nestedlisting") eqn:HN;
    destruct (truthy (idOf d) && startsWith (idOf d) "siteTable") eqn:HI;
    destruct (hasClass d "child") eqn:HC;
    cbn [andb orb negb]; try discriminate; try reflexivity; intros H.
  all: try (apply IH; exact H).
  all: destruct up as [|p up']; [discriminate|].
  all: apply andb_true_iff in H as [H Hup];
       apply andb_true_iff in H as [H Hstop];
       apply andb_true_iff in H as [Hp Hchild];
       apply negb_true_iff in Hstop, Hchild;
       rewrite Hp; cbn [ancestors wellNestedOld OldReddit.depthLoop incr] in *;
       rewrite Hstop in Hup.
  all: unfold stopsDepthWalk in Hstop; apply orb_false_iff in Hstop as [Hs1 Hs2];
       rewrite Hs1, Hs2, Hchild;
       apply andb_true_iff in Hup as [_ Hup]; split; [reflexivity|exact Hup].
Qed.

Lemma isTag_comment d :
  isTag d "shreddit-comment" = true -> NewReddit.isCommentData d = true.
Proof.
  unfold isTag, NewReddit.isCommentData. intros H.
  apply andb_true_iff in H as [_ ->]. reflexivity.
Qed.

Lemma isTag_comment_not_tree d :
  isTag d "shreddit-comment" = true -> isTag d "shreddit-comment-tree" = false.
Proof.
  unfold isTag. intros H. apply andb_true_iff in H as [-> H].
  apply String.eqb_eq in H. rewrite H. reflexivity.
Qed.

Lemma new_step cur n :
  wellNestedNew cur = true ->
  match NewReddit.parentLoop cur with
  | None => NewReddit.depthLoop cur (Num n) = Num n
  | Some p => NewReddit.depthLoop cur (Num n)
              = NewReddit.depthLoop (ancestors p) (Num (n + 1))
              /\ wellNestedNew (ancestors p) = true
  end.
Proof.
  revert n. induction cur as [|d up IH]; intros n; [reflexivity|].
  cbn [wellNestedNew NewReddit.parentLoop NewReddit.depthLoop].
  change (truthy (tagName d) && String.eqb (toLowerCase (tagName d)) "shreddit-comment")
    with (isTag d "shreddit-comment").
  change (truthy (tagName d) && String.eqb (toLowerCase (tagName d)) "shreddit-comment-tree")
    with (isTag d "shreddit-comment-tree").
  destruct (NewReddit.isCommentData d) eqn:Hd.
  - intros H. apply andb_true_iff in H as [Htag Hup].
    rewrite Htag, (isTag_comment_not_tree _ Htag). cbn [ancestors incr]. auto.
  - destruct (isTag d "shreddit-comment") eqn:Htag.
    { apply isTag_comment in Htag. congruence. }
    destruct (isTag d "shreddit-comment-tree"); [reflexivity|]. apply IH.
Qed.

Section Layout.
Variable ver : RedditVersion.

Lemma step cur n :
  wellNestedAbove ver cur = true ->
  match parentLoop ver cur with
  | None => depthLoop ver cur (Num n) = Num n
  | Some p => depthLoop ver cur (Num n) = depthLoop ver (ancestors p) (Num (n + 1))
              /\ wellNestedAbove ver (ancestors p) = true
  end.
Proof. destruct ver; [apply old_step|apply new_step]. Qed.

Lemma getParentThing_comment e :
  isCommentData ver (self e) = true ->
  getParentThing ver (JsElem e) = parentLoop ver (ancestors e).
Proof.
  destruct ver; simpl; unfold OldReddit.getParentThing, NewReddit.getParentThing;
    intros ->; reflexivity.
Qed.

(** On well-nested markup the depth walk counts one per element of the
    chain above the node. *)
Lemma depthLoop_chain e :
  forall n, isCommentData ver (self e) = true ->
            wellNestedAbove ver (ancestors e) = true ->
            depthLoop ver (ancestors e) (Num n)
            = Num (n + Z.of_nat (length (chainOf ver e)) - 1).
Proof.
  induction e as [e IH] using (chain_ind ver). intros n He Hwn.
  pose proof (step (ancestors e) n Hwn) as Hstep.
  rewrite (chainOf_unfold ver e). rewrite (getParentThing_comment e He) in *.
  destruct (parentLoop ver (ancestors e)) as [p|] eqn:Hp.
  - destruct Hstep as [-> Hwp].
    assert (Hpc : isCommentData ver (self p) = true).
    { rewrite <- (getParentThing_comment e He) in Hp.
      apply getParentThing_spec in Hp. tauto. }
    rewrite (IH p eq_refl (n + 1)%Z Hpc Hwp), length_app. simpl. f_equal. lia.
  - rewrite Hstep. simpl. f_equal. lia.
Qed.

Lemma depthOf_wellNested e :
  isCommentData ver (self e) = true -> wellNested ver e = true ->
  depthOf ver e = Num (Z.of_nat (length (chainOf ver e)) - 1).
Proof.
  intros He Hwn. pose proof (depthLoop_chain e 0) as H.
  unfold depthOf. destruct ver; simpl in *;
    unfold OldReddit.getIndentDepth, NewReddit.getIndentDepth;
    rewrite He; simpl; rewrite lookup_empty; simpl.
  - apply H; auto.
  - apply andb_true_iff in Hwn as [Hz Hup]. apply bool_decide_eq_true in Hz.
    rewrite Hz. simpl. apply H; auto.
Qed.

(** A coherent depth cache does not change what [getIndentDepth]
    answers. *)
Lemma getIndentDepth_coherent c v :
  depthsCoherent ver c ->
  fst (getIndentDepth ver c v) = fst (getIndentDepth ver noCaches v).
Proof.
  intros Hc. destruct v as [| | | |e]; try (destruct ver; reflexivity).
  specialize (Hc e). unfold depthOf in Hc.
  destruct ver; simpl in *;
    unfold OldReddit.getIndentDepth, NewReddit.getIndentDepth in *;
    (destruct (negb _); [reflexivity|]);
    simpl in *; rewrite lookup_empty in *;
    (destruct (depthCache c !! e) as [n|]; [apply Hc; reflexivity|reflexivity]).
Qed.

(** What does hold of the chain.  For every element classified as a
    comment, [computeAncestors] returns a chain that is not empty and ends
    with the element itself, and the length of the chain minus one is what
    [getDepth] returns.  [Nesting.wellNested] is a sufficient condition
    for the tree walker's [getIndentDepth] to return the same number. *)
Theorem chain_shape fuel st c e :
  coherent ver st -> depthsCoherent ver c ->
  isCommentThing ver (JsElem e) = true -> length (ancestors e) < fuel ->
  exists r st',
    computeAncestors ver fuel st (JsElem e) = Some (r, st') /\
    arrayAt st' r <> [] /\
    last (arrayAt st' r) = Some e /\
    getDepth ver fuel st (JsElem e)
    = Some ((Z.of_nat (length (arrayAt st' r)) - 1)%Z, st') /\
    (wellNested ver e = true ->
     fst (getIndentDepth ver c (JsElem e))
     = Num (Z.of_nat (length (arrayAt st' r)) - 1)).
Proof.
  intros Hco Hc He Hf. rewrite isCommentThing_JsElem in He.
  destruct (computeAncestors_spec ver fuel st (JsElem e) Hco ltac:(simpl; lia))
    as (r & st' & E & _ & A & _).
  simpl in A. rewrite He in A. apply arrayAt_lookup in A.
  exists r, st'. rewrite A. split; [exact E|].
  split; [apply chainOf_nonempty|]. split; [apply chainOf_last|].
  split.
  - unfold getDepth. rewrite E, A. f_equal. f_equal.
    pose proof (chainOf_nonempty ver e) as Hne.
    destruct (chainOf ver e); [congruence|]. simpl length. lia.
  - intros Hwn. rewrite (getIndentDepth_coherent c _ Hc).
    apply (depthOf_wellNested e He Hwn).
Qed.

End Layout.

(** [getIndentDepth] keeps the depth cache coherent. *)
Lemma getIndentDepth_keeps_coherent ver c v :
  depthsCoherent ver c -> depthsCoherent ver (snd (getIndentDepth ver c v)).
Proof.
  intros Hc. destruct v as [| | | |e]; try (destruct ver; exact Hc).
  pose proof (getIndentDepth_coherent ver c (JsElem e) Hc) as Hfst.
  unfold depthsCoherent, depthOf.
  destruct ver; simpl in *;
    unfold OldReddit.getIndentDepth, NewReddit.getIndentDepth in *.
  - destruct (negb (OldReddit.isCommentData (self e))) eqn:He; [exact Hc|].
    destruct (depthCache c !! e) as [n|] eqn:Hn; [exact Hc|].
    simpl in *. intros e' n'. rewrite lookup_insert. case_decide as Heq; [|apply Hc].
    subst e'. intros [= <-]. rewrite He. exact Hfst.
  - destruct (negb (NewReddit.isCommentData (self e))) eqn:He; [exact Hc|].
    destruct (depthCache c !! e) as [n|] eqn:Hn; [exact Hc|].
    simpl in *. intros e' n'. rewrite lookup_insert. case_decide as Heq; [|apply Hc].
    subst e'. intros [= <-]. rewrite He. exact Hfst.
Qed.

Lemma noCaches_coherent ver : depthsCoherent ver noCaches.
Proof. intros e n H. simpl in H. rewrite lookup_empty in H. discriminate. Qed.

Lemma chain_shape_witness :
  coherent Old initial /\ depthsCoherent Old noCaches /\
  isCommentThing Old (JsElem Pages.tidyReply) = true /\
  length (ancestors Pages.tidyReply) < 8 /\
  wellNested Old Pages.tidyReply = true /\
  exists r st',
    computeAncestors Old 8 initial (JsElem Pages.tidyReply) = Some (r, st') /\
    last (arrayAt st' r) = Some Pages.tidyReply /\
    fst (getIndentDepth Old noCaches (JsElem Pages.tidyReply))
    = Num (Z.of_nat (length (arrayAt st' r)) - 1).
Proof.
  split; [exact (initial_coherent Old)|]. split; [exact (noCaches_coherent Old)|].
  split; [reflexivity|]. split; [simpl; lia|]. split; [reflexivity|].
  destruct (chain_shape Old 8 initial noCaches Pages.tidyReply
              (initial_coherent Old) (noCaches_coherent Old) eq_refl
              ltac:(simpl; lia))
    as (r & st' & E & _ & L & _ & D).
  exists r, st'. split; [exact E|]. split; [exact L|]. apply D. reflexivity.
Defined.

(** C1.  In the first layout [getIndentDepth] loses the depth of
    replies.  An element whose id begins with [siteTable] ends the depth
    walk, and the replies to a comment sit in such a listing
    ([div#siteTable_t1_...]) inside the comment's [.child] container: the
    walk from a reply ends at the reply's parent element, before it has
    reached the container it is to count.  So for every classified comment
    whose parent element has such an id, [getIndentDepth] answers 0 (with
    nothing cached, or with a cache of depths the walk has computed); and
    when the comment has a parent comment, its chain has two elements or
    more, and the length of the chain minus one, which is what [getDepth]
    answers, is not what [getIndentDepth] answers. *)
Theorem reply_depth_lost fuel st c e d up p :
  coherent Old st -> depthsCoherent Old c ->
  isCommentThing Old (JsElem e) = true -> length (ancestors e) < fuel ->
  ancestors e = d :: up ->
  truthy (idOf d) && startsWith (idOf d) "siteTable" = true ->
  getParentThing Old (JsElem e) = Some p ->
  fst (getIndentDepth Old c (JsElem e)) = Num 0 /\
  exists r st',
    computeAncestors Old fuel st (JsElem e) = Some (r, st') /\
    last (arrayAt st' r) = Some e /\
    2 <= length (arrayAt st' r) /\
    getDepth Old fuel st (JsElem e)
    = Some ((Z.of_nat (length (arrayAt st' r)) - 1)%Z, st') /\
    Num (Z.of_nat (length (arrayAt st' r)) - 1)
    <> fst (getIndentDepth Old c (JsElem e)).
Proof.
  intros Hco Hc He Hf Hup Hid Hp.
  assert (D : fst (getIndentDepth Old c (JsElem e)) = Num 0).
  { rewrite (getIndentDepth_coherent Old c _ Hc).
    rewrite isCommentThing_JsElem in He. cbn [isCommentData] in He.
    cbn [getIndentDepth]. unfold OldReddit.getIndentDepth.
    rewrite He. cbn [negb noCaches depthCache]. rewrite lookup_empty. cbn [fst].
    rewrite Hup. cbn [OldReddit.depthLoop]. rewrite Hid.
    destruct (hasClass d "siteTable" && hasClass d "nestedlisting"); reflexivity. }
  split; [exact D|].
  destruct (chain_shape Old fuel st c e Hco Hc He Hf) as (r & st' & E & _ & L & G & _).
  exists r, st'. split; [exact E|]. split; [exact L|].
  assert (Hlen : 2 <= length (arrayAt st' r)).
  { rewrite isCommentThing_JsElem in He.
    destruct (computeAncestors_spec Old fuel st (JsElem e) Hco ltac:(simpl; lia))
      as (r0 & st0 & E0 & _ & A & _).
    rewrite E in E0. injection E0 as <- <-.
    cbn [chainOfValue] in A. rewrite He in A. apply arrayAt_lookup in A. rewrite A.
    rewrite (chainOf_unfold Old e), Hp, length_app. cbn [length].
    pose proof (chainOf_nonempty Old p) as Hne.
    destruct (chainOf Old p); [congruence|]. cbn [length]. lia. }
  split; [exact Hlen|]. split; [exact G|].
  rewrite D. intros [= Heq]. lia.
Qed.

Lemma reply_depth_lost_witness :
  fst (getIndentDepth Old noCaches (JsElem Pages.reply)) = Num 0 /\
  exists r st',
    computeAncestors Old 9 initial (JsElem Pages.reply) = Some (r, st') /\
    last (arrayAt st' r) = Some Pages.reply /\
    2 <= length (arrayAt st' r).
Proof.
  destruct (reply_depth_lost 9 initial noCaches Pages.reply Pages.nestedTable
              (Pages.childD :: Pages.topD :: Pages.aboveComments) Pages.topComment
              (initial_coherent Old) (noCaches_coherent Old) eq_refl
              ltac:(simpl; lia) eq_refl eq_refl eq_refl)
    as (D & r & st' & E & L & N & _).
  split; [exact D|]. exists r, st'. auto.
Defined.

(** On the first sample page the reply's chain has two elements, yet
    [getIndentDepth] answers 0 for it: the depth walk stops at the
    listing inside the [.child] container, whose id begins with
    [siteTable], before it has counted the container. *)
Lemma depth_disagreement :
  isCommentThing Old (JsElem Pages.reply) = true /\
  chainElements Old 9 initial (JsElem Pages.reply)
  = Some [Pages.topComment; Pages.reply] /\
  fst (getIndentDepth Old noCaches (JsElem Pages.reply)) = Num 0 /\
  (forall chain, chainElements Old 9 initial (JsElem Pages.reply) = Some chain ->
                 Num (Z.of_nat (length chain) - 1)
                 <> fst (getIndentDepth Old noCaches (JsElem Pages.reply))).
Proof.
  assert (E : chainElements Old 9 initial (JsElem Pages.reply)
              = Some [Pages.topComment; Pages.reply]) by (vm_compute; reflexivity).
  assert (D : fst (getIndentDepth Old noCaches (JsElem Pages.reply)) = Num 0)
    by (vm_compute; reflexivity).
  split; [reflexivity|]. split; [exact E|]. split; [exact D|].
  intros chain Hc. rewrite E in Hc. injection Hc as <-. rewrite D. discriminate.
Qed.

(** In the second layout the depth marker of the page is taken at its
    word: a comment directly under the tree root whose marker says 5 has a
    chain of one element and the indent depth 5. *)
Example depth_marker_trusted :
  isCommentThing New (JsElem Pages.shredditTop) = true /\
  chainElements New 4 initial (JsElem Pages.shredditTop) = Some [Pages.shredditTop] /\
  fst (getIndentDepth New noCaches (JsElem Pages.shredditTop)) = Num 5.
Proof. repeat split; vm_compute; reflexivity. Qed.

End DepthFacts.

Module ExcerptFacts.
Import Js Dom Selectors Pages.

Lemma trimStart_length t : length (trimStart t) <= length t.
Proof.
  induction t as [|c r IH]; simpl; [lia|].
  destruct (isTrimmable c); simpl; lia.
Qed.

Lemma trim_length t : length (trim t) <= length t.
Proof.
  unfold trim, trimEnd. rewrite length_rev.
  pose proof (trimStart_length (rev (trimStart t))) as H1.
  pose proof (trimStart_length t) as H2. rewrite length_rev in H1. lia.
Qed.

(** The excerpt is the first 150 code units of the trimmed text, followed
    by the marker or by nothing. *)
Lemma excerpt_shape t :
  excerptOfBody (Some t)
  = take 150 (trim t) ++ (if 150 <? length t then dots else []).
Proof.
  unfold excerptOfBody, slice0. destruct (150 <? length t); [reflexivity|].
  rewrite app_nil_r. reflexivity.
Qed.

(** A text of at most 150 code units comes back trimmed, with no marker. *)
Lemma excerpt_short t :
  length t <= 150 -> excerptOfBody (Some t) = trim t.
Proof.
  intros H. unfold excerptOfBody, slice0.
  destruct (150 <? length t) eqn:E; [apply Nat.ltb_lt in E; lia|].
  apply take_ge. pose proof (trim_length t). lia.
Qed.

(** When the trimmed text is cut, the marker follows the cut. *)
Lemma excerpt_truncated t :
  150 < length (trim t) ->
  excerptOfBody (Some t) = take 150 (trim t) ++ dots.
Proof.
  intros H. unfold excerptOfBody, slice0.
  destruct (150 <? length t) eqn:E; [reflexivity|].
  apply Nat.ltb_ge in E. pose proof (trim_length t). lia.
Qed.

(** On a body without white space around it the claim's two examples
    hold: more than 150 code units give the first 150 and the marker, at
    most 150 give the body itself. *)
Lemma excerpt_clean_long t :
  trim t = t -> 150 < length t -> excerptOfBody (Some t) = take 150 t ++ dots.
Proof. intros Ht Hl. rewrite excerpt_truncated; rewrite Ht; auto. Qed.

Lemma excerpt_clean_short t :
  trim t = t -> length t <= 150 -> excerptOfBody (Some t) = t.
Proof. intros Ht Hl. rewrite excerpt_short; auto. Qed.

Example excerpt_200 :
  excerptOfBody (Some (repeat 120%N 200)) = repeat 120%N 150 ++ dots.
Proof. vm_compute. reflexivity. Qed.

Example excerpt_100 :
  excerptOfBody (Some (repeat 120%N 100)) = repeat 120%N 100.
Proof. vm_compute. reflexivity. Qed.

(** C2, at the failing input.  The body text has 151 code units, 148 of
    them after trimming, so nothing is cut from the trimmed text; the
    excerpt nevertheless ends with the marker, in both layouts, because the
    test for the marker measures the untrimmed text. *)
Theorem marker_without_truncation :
  length paddedBody = 151 /\
  trim paddedBody = repeat 120%N 148 /\
  take 150 (trim paddedBody) = trim paddedBody /\
  OldReddit.getCommentMeta_excerpt (Some paddedBody) = repeat 120%N 148 ++ dots /\
  NewReddit.getCommentMeta_excerpt (Some paddedBody) = repeat 120%N 148 ++ dots.
Proof. repeat split; vm_compute; reflexivity. Qed.

End ExcerptFacts.

Module ActiveCommentFacts.
Import Js Dom ActiveComment Tracker Pages.

Section Tracker.
Context {World Error : Type}.
Variable ver : Selectors.RedditVersion.
Variable body : Element.
Implicit Types st : State World Error.

(** The message the tracker logs when the callback throws. *)
Let msg : string := "[ActiveComment] Callback error:".

(** What [setAnchored] does when it is given the node already anchored:
    nothing. *)
Lemma setAnchored_same st comment :
  comment = currentAnchored st -> setAnchored comment st = (st, Returned).
Proof.
  intros ->. unfold setAnchored. rewrite bool_decide_eq_true_2; reflexivity.
Qed.

(** What [setAnchored] does on a change: it returns normally, the new node
    is stored, and the callback, if there is one, has been called once with
    it; what the callback threw is in the console. *)
Lemma setAnchored_change st comment :
  comment <> currentAnchored st ->
  exists st',
    setAnchored comment st = (st', Returned) /\
    currentAnchored st' = comment /\
    isActive st' = isActive st /\
    onChangeCallback st' = onChangeCallback st /\
    match onChangeCallback st with
    | Some cb =>
        calls st' = calls st ++ [comment] /\
        world st' = fst (cb comment (world st)) /\
        consoleErrors st'
        = consoleErrors st ++ match snd (cb comment (world st)) with
                              | Some error => [(msg, error)]
                              | None => []
                              end
    | None => calls st' = calls st /\ world st' = world st /\
              consoleErrors st' = consoleErrors st
    end.
Proof.
  intros Hne. unfold setAnchored. rewrite bool_decide_eq_false_2 by exact Hne.
  simpl. destruct (onChangeCallback st) as [cb|] eqn:Hcb.
  - unfold tryCatch, callCallback. simpl.
    destruct (cb comment (world st)) as [w [error|]] eqn:Hout; simpl.
    + eexists. split; [reflexivity|]. simpl. repeat split; reflexivity.
    + eexists. split; [reflexivity|]. simpl. rewrite app_nil_r. repeat split; reflexivity.
  - eexists. split; [reflexivity|]. simpl. repeat split; reflexivity.
Qed.

Lemma handleDocumentClick_inside st target x :
  findCommentFromTarget ver body target = Some x ->
  handleDocumentClick ver body target st = (st, Returned).
Proof.
  intros Hx. unfold handleDocumentClick. rewrite Hx.
  destruct (negb (isActive st) || negb (bool_decide (is_Some (currentAnchored st))));
    reflexivity.
Qed.

(** A listener either leaves the tracker alone or hands a node other than
    the anchored one to [setAnchored]. *)
Lemma handleCommentClick_outcome st target :
  handleCommentClick ver body target st = (st, Returned)
  \/ exists x comment,
       findCommentFromTarget ver body target = Some x /\
       comment <> currentAnchored st /\
       handleCommentClick ver body target st = setAnchored comment st.
Proof.
  unfold handleCommentClick.
  destruct (negb (isActive st)); [left; reflexivity|].
  destruct (findCommentFromTarget ver body target) as [x|] eqn:Hx; [|left; reflexivity].
  destruct (negb (isValidClickTarget target x)); [left; reflexivity|].
  right. case_bool_decide as Heq.
  - exists x, None. split; [reflexivity|]. split; [congruence|reflexivity].
  - exists x, (Some x). split; [reflexivity|]. split; [exact Heq|reflexivity].
Qed.

Lemma handleDocumentClick_outcome st target :
  handleDocumentClick ver body target st = (st, Returned)
  \/ (None <> currentAnchored st /\
      handleDocumentClick ver body target st = setAnchored None st).
Proof.
  unfold handleDocumentClick.
  destruct (isActive st); simpl; [|left; reflexivity].
  case_bool_decide as Hs; simpl; [|left; reflexivity].
  destruct (findCommentFromTarget ver body target); [left; reflexivity|].
  destruct (closest target stickySelector); [left; reflexivity|].
  right. split; [|reflexivity]. destruct Hs as [y Hy]. congruence.
Qed.

Lemma valid_not_excluded target x :
  isValidClickTarget target x = true <-> ~ excludedControl target.
Proof.
  unfold isValidClickTarget, excludedControl.
  destruct (String.eqb_spec (tagName (self target)) "A") as [HA|HA];
    destruct (String.eqb_spec (tagName (self target)) "BUTTON") as [HB|HB];
    destruct (String.eqb_spec (tagName (self target)) "INPUT") as [HI|HI];
    destruct (String.eqb_spec (tagName (self target)) "TEXTAREA") as [HT|HT];
    try congruence; simpl;
    repeat case_bool_decide; simpl;
    try (split; [discriminate|intros Hn; exfalso; apply Hn; tauto]);
    try (split; [discriminate|intros Hn; exfalso; apply Hn; left; split; [assumption|];
         destruct (closest target bodySelector); [exfalso; eauto|reflexivity]]);
    split; try reflexivity; intros _ Hex;
    repeat match goal with
           | H : _ \/ _ |- _ => destruct H
           | H : _ /\ _ |- _ => destruct H
           | H : closest _ _ = None, H' : is_Some (closest _ _) |- _ =>
               rewrite H in H'; destruct H' as [? ?]; discriminate
           end; try congruence; try tauto.
Qed.

(** A click inside a comment is settled by the capture listener. *)
Lemma click_inside how st target x :
  findCommentFromTarget ver body target = Some x ->
  fst (click ver body how target st) = fst (handleCommentClick ver body target st) /\
  forall c, c ∈ snd (click ver body how target st) ->
            c = snd (handleCommentClick ver body target st) \/ c = Returned.
Proof.
  intros Hx. unfold click.
  destruct (handleCommentClick ver body target st) as [st1 c1]. destruct how; simpl.
  - split; [reflexivity|]. intros c Hc. apply list_elem_of_singleton in Hc. auto.
  - rewrite (handleDocumentClick_inside st1 target x Hx). simpl.
    split; [reflexivity|]. intros c Hc.
    apply elem_of_cons in Hc as [Hc|Hc]; [auto|].
    apply list_elem_of_singleton in Hc. auto.
Qed.

Lemma handleCommentClick_valid st target x :
  isActive st = true -> findCommentFromTarget ver body target = Some x ->
  isValidClickTarget target x = true ->
  handleCommentClick ver body target st
  = if bool_decide (Some x = currentAnchored st)
    then setAnchored None st else setAnchored (Some x) st.
Proof.
  intros Ha Hx Hv. unfold handleCommentClick. rewrite Ha, Hx, Hv. reflexivity.
Qed.

Lemma handleCommentClick_excluded st target x :
  findCommentFromTarget ver body target = Some x -> excludedControl target ->
  handleCommentClick ver body target st = (st, Returned).
Proof.
  intros Hx Hex. unfold handleCommentClick.
  destruct (negb (isActive st)); [reflexivity|]. rewrite Hx.
  destruct (isValidClickTarget target x) eqn:Hv; [|reflexivity].
  apply valid_not_excluded in Hv. contradiction.
Qed.

(** C3.  With the tracker active and a click whose nearest enclosing
    comment is [x]: a valid click anchors [x] from Idle, releases it when
    [x] is the anchored node, and moves the anchor to [x] from any other
    node; a click on an excluded control (a vote control among them)
    changes nothing at all.  Every listener returns normally.  This holds
    whether or not the click goes on to the bubble listener. *)
Theorem anchor_steps how st target x :
  isActive st = true ->
  findCommentFromTarget ver body target = Some x ->
  (forall c, c ∈ snd (click ver body how target st) -> c = Returned) /\
  (isValidClickTarget target x = true ->
   (stateOf st = Idle ->
    stateOf (fst (click ver body how target st)) = Anchored x) /\
   (stateOf st = Anchored x ->
    stateOf (fst (click ver body how target st)) = Idle) /\
   (forall y, stateOf st = Anchored y -> y <> x ->
              stateOf (fst (click ver body how target st)) = Anchored x)) /\
  (excludedControl target -> fst (click ver body how target st) = st).
Proof.
  intros Ha Hx. destruct (click_inside how st target x Hx) as [Hst Hc].
  rewrite Hst. split; [|split].
  - intros c Hin. destruct (Hc c Hin) as [ -> | -> ]; [|reflexivity].
    destruct (handleCommentClick_outcome st target) as [ -> | (x' & comment & _ & Hne & ->)];
      [reflexivity|].
    destruct (setAnchored_change st comment Hne) as (st' & -> & _). reflexivity.
  - intros Hv. rewrite (handleCommentClick_valid st target x Ha Hx Hv).
    unfold stateOf. split; [|split].
    + destruct (currentAnchored st) eqn:Hcur; [discriminate|]. intros _.
      rewrite bool_decide_eq_false_2 by discriminate.
      destruct (setAnchored_change st (Some x)) as (st' & E & C & _); [congruence|].
      rewrite E. simpl. rewrite C. reflexivity.
    + destruct (currentAnchored st) as [z|] eqn:Hcur; [|discriminate].
      intros [= ->]. rewrite bool_decide_eq_true_2 by reflexivity.
      destruct (setAnchored_change st None) as (st' & E & C & _); [congruence|].
      rewrite E. simpl. rewrite C. reflexivity.
    + intros y. destruct (currentAnchored st) as [z|] eqn:Hcur; [|discriminate].
      intros [= ->] Hne. rewrite bool_decide_eq_false_2 by congruence.
      destruct (setAnchored_change st (Some x)) as (st' & E & C & _); [congruence|].
      rewrite E. simpl. rewrite C. reflexivity.
  - intros Hex. rewrite (handleCommentClick_excluded st target x Hx Hex). reflexivity.
Qed.

(** C8.  With a callback registered: a change of the anchored node calls
    the callback exactly once, with the new node (or null); whether the
    callback returns or throws, [setAnchored] returns normally and the new
    node is the anchored one; what was thrown is written to the console.
    A click makes at most one such change, and every listener returns
    normally. *)
Theorem callback_contained st cb :
  onChangeCallback st = Some cb ->
  (forall comment, comment <> currentAnchored st ->
     exists st',
       setAnchored comment st = (st', Returned) /\
       currentAnchored st' = comment /\
       calls st' = calls st ++ [comment] /\
       world st' = fst (cb comment (world st)) /\
       consoleErrors st'
       = consoleErrors st ++ match snd (cb comment (world st)) with
                             | Some error => [(msg, error)]
                             | None => []
                             end) /\
  (forall how target,
     (forall c, c ∈ snd (click ver body how target st) -> c = Returned) /\
     (fst (click ver body how target st) = st
      \/ (currentAnchored (fst (click ver body how target st)) <> currentAnchored st /\
          calls (fst (click ver body how target st))
          = calls st ++ [currentAnchored (fst (click ver body how target st))]))).
Proof.
  intros Hcb. split.
  - intros comment Hne.
    destruct (setAnchored_change st comment Hne) as (st' & E & Hc & _ & _ & H).
    rewrite Hcb in H. destruct H as (H1 & H2 & H3). exists st'. auto.
  - intros how target.
    assert (Hset : forall comment, comment <> currentAnchored st ->
              snd (setAnchored comment st) = Returned /\
              currentAnchored (fst (setAnchored comment st)) <> currentAnchored st /\
              calls (fst (setAnchored comment st))
              = calls st ++ [currentAnchored (fst (setAnchored comment st))]).
    { intros comment Hne.
      destruct (setAnchored_change st comment Hne) as (st' & -> & Hc & _ & _ & H).
      rewrite Hcb in H. destruct H as (H1 & _). simpl. rewrite Hc. auto. }
    destruct (findCommentFromTarget ver body target) as [x|] eqn:Hx.
    + destruct (click_inside how st target x Hx) as [-> Hc].
      destruct (handleCommentClick_outcome st target)
        as [E|(x' & comment & _ & Hne & E)]; rewrite E in *.
      * split; [|left; reflexivity]. intros c Hin. destruct (Hc c Hin); auto.
      * destruct (Hset comment Hne) as (S1 & S2 & S3). rewrite S1 in Hc.
        split; [|right; auto]. intros c Hin. destruct (Hc c Hin); auto.
    + assert (Hcap : handleCommentClick ver body target st = (st, Returned)).
      { unfold handleCommentClick. rewrite Hx. destruct (negb (isActive st)); reflexivity. }
      unfold click. rewrite Hcap. destruct how; simpl.
      * split; [|left; reflexivity]. intros c Hin.
        apply list_elem_of_singleton in Hin. exact Hin.
      * destruct (handleDocumentClick_outcome st target) as [E|[Hne E]]; rewrite E.
        -- split; [|left; reflexivity]. intros c Hin. simpl in Hin.
           apply elem_of_cons in Hin as [Hin|Hin]; [exact Hin|].
           apply list_elem_of_singleton in Hin. exact Hin.
        -- destruct (Hset None Hne) as (S1 & S2 & S3).
           destruct (setAnchored None st) as [st' c']. simpl in *. subst c'.
           split; [|right; auto]. intros c Hin.
           apply elem_of_cons in Hin as [Hin|Hin]; [exact Hin|].
           apply list_elem_of_singleton in Hin. exact Hin.
Qed.

End Tracker.

Lemma anchor_steps_witness :
  isActive (sampleTracker None) = true /\
  findCommentFromTarget Selectors.Old Pages.body Pages.paragraph
  = Some Pages.topComment /\
  isValidClickTarget Pages.paragraph Pages.topComment = true /\
  stateOf (sampleTracker None) = Idle /\
  stateOf (fst (click Selectors.Old Pages.body CaptureThenBubble Pages.paragraph
                      (sampleTracker None)))
  = Anchored Pages.topComment.
Proof.
  split; [reflexivity|]. split; [vm_compute; reflexivity|].
  split; [vm_compute; reflexivity|]. split; [reflexivity|].
  apply (anchor_steps Selectors.Old Pages.body CaptureThenBubble (sampleTracker None)
           Pages.paragraph Pages.topComment eq_refl);
    [vm_compute; reflexivity|vm_compute; reflexivity|reflexivity].
Defined.

(** A click on the vote arrow of the top-level comment, from Idle and from
    Anchored, leaves the tracker as it was. *)
Example vote_click_ignored :
  excludedControl voteArrow /\
  fst (click Selectors.Old Pages.body CaptureThenBubble voteArrow (sampleTracker None))
  = sampleTracker None /\
  fst (click Selectors.Old Pages.body CaptureThenBubble voteArrow
             (sampleTracker (Some topComment)))
  = sampleTracker (Some topComment).
Proof.
  split; [|split; vm_compute; reflexivity].
  right. right. right. right. left. vm_compute. eauto.
Qed.

Lemma callback_contained_witness :
  onChangeCallback (sampleTracker None) = Some throwing /\
  exists st',
    setAnchored (Some Pages.topComment) (sampleTracker None) = (st', Returned) /\
    currentAnchored st' = Some Pages.topComment /\
    consoleErrors st' = [("[ActiveComment] Callback error:", "boom")].
Proof.
  split; [reflexivity|].
  destruct (callback_contained Selectors.Old Pages.body (sampleTracker None) throwing
              eq_refl) as [H _].
  destruct (H (Some Pages.topComment) ltac:(discriminate)) as (st' & E & C & _ & _ & L).
  exists st'. split; [exact E|]. split; [exact C|]. exact L.
Defined.

End ActiveCommentFacts.

Module MarkerFacts.
Import Js Dom StickyUI Header.

Lemma removeClass_nil e : removeClass e [] = [].
Proof. reflexivity. Qed.

Lemma removeClass_single e : removeClass e [e] = [].
Proof.
  unfold removeClass. rewrite filter_cons. destruct (decide (e <> e)); [congruence|].
  reflexivity.
Qed.

Lemma queryIcon_nil e : queryIcon [] e = None.
Proof. reflexivity. Qed.

Lemma queryIcon_single e : queryIcon [e] e = Some e.
Proof.
  unfold queryIcon. rewrite bool_decide_eq_true_2; [reflexivity|].
  apply list_elem_of_here.
Qed.

Lemma removeOne_single e : removeOne e [e] = [].
Proof. simpl. rewrite bool_decide_eq_true_2; reflexivity. Qed.

Lemma addClass_nil e : addClass e [] = [e].
Proof. reflexivity. Qed.

Lemma addClass_single e : addClass e [e] = [e].
Proof.
  unfold addClass. rewrite bool_decide_eq_true_2; [reflexivity|].
  apply list_elem_of_here.
Qed.

#[local] Arguments removeClass : simpl never.
#[local] Arguments addClass : simpl never.
#[local] Arguments queryIcon : simpl never.
#[local] Arguments removeOne : simpl never.

Lemma unmark_frame c p :
  inDocument (unmark c p) = inDocument p /\ headerRect (unmark c p) = headerRect p.
Proof. unfold unmark. destruct (queryIcon (icons p) c); auto. Qed.

Lemma mark_frame n p :
  inDocument (mark n p) = inDocument p /\ headerRect (mark n p) = headerRect p.
Proof. unfold mark. destruct (queryIcon (icons p) n); auto. Qed.

(** Unmarking the active element leaves no marker on the page. *)
Lemma unmark_exact c p :
  markerExact p (Some c) -> activeClass (unmark c p) = [] /\ icons (unmark c p) = [].
Proof.
  unfold markerExact, unmark. destruct (inDocument p c); intros [-> ->].
  - rewrite removeClass_single, queryIcon_single, removeOne_single. auto.
  - rewrite removeClass_nil, queryIcon_nil. auto.
Qed.

(** Marking an element on a page without markers gives it the one marker. *)
Lemma mark_clean n p :
  activeClass p = [] -> icons p = [] ->
  activeClass (mark n p) = [n] /\ icons (mark n p) = [n].
Proof.
  unfold mark. intros -> ->. rewrite addClass_nil, queryIcon_nil. auto.
Qed.

(** Marking the element that carries the marker adds no second one. *)
Lemma mark_again n p :
  activeClass p = [n] -> icons p = [n] ->
  activeClass (mark n p) = [n] /\ icons (mark n p) = [n].
Proof.
  unfold mark. intros -> ->. rewrite addClass_single, queryIcon_single. auto.
Qed.

(** The highlight update touches the page's markers and the module's
    record of the active element, nothing else. *)
Lemma highlight_frame new st :
  container (updateActiveHighlight new st) = container st /\
  isActive (updateActiveHighlight new st) = isActive st /\
  config (updateActiveHighlight new st) = config st /\
  currentChainIds (updateActiveHighlight new st) = currentChainIds st /\
  redditHeaderHeight (updateActiveHighlight new st) = redditHeaderHeight st /\
  selectors (updateActiveHighlight new st) = selectors st /\
  currentActiveComment (updateActiveHighlight new st) = new /\
  inDocument (page (updateActiveHighlight new st)) = inDocument (page st) /\
  headerRect (page (updateActiveHighlight new st)) = headerRect (page st).
Proof.
  unfold updateActiveHighlight. cbn.
  set (p1 := match currentActiveComment st with
             | Some cur => if bool_decide (Some cur <> new) then unmark cur (page st)
                           else page st
             | None => page st
             end).
  assert (H1 : inDocument p1 = inDocument (page st) /\ headerRect p1 = headerRect (page st)).
  { unfold p1. destruct (currentActiveComment st) as [c|]; [|auto].
    destruct (bool_decide (Some c <> new)); [apply unmark_frame|auto]. }
  destruct H1 as [H1 H2]. repeat split; try reflexivity.
  - destruct new as [n|]; [|exact H1].
    destruct (inDocument p1 n); [|exact H1]. rewrite (proj1 (mark_frame n p1)). exact H1.
  - destruct new as [n|]; [|exact H2].
    destruct (inDocument p1 n); [|exact H2]. rewrite (proj2 (mark_frame n p1)). exact H2.
Qed.

(** The marker state after the update is a function of the marker state
    before it. *)
Lemma highlight_page new st1 st2 :
  page st1 = page st2 -> currentActiveComment st1 = currentActiveComment st2 ->
  page (updateActiveHighlight new st1) = page (updateActiveHighlight new st2).
Proof. intros Hp Hc. unfold updateActiveHighlight. cbn. rewrite Hp, Hc. reflexivity. Qed.

(** The highlight update moves the marker: afterwards it is on the new
    active element, once, and nowhere else. *)
Lemma highlight_exact new st :
  markerExact (page st) (currentActiveComment st) ->
  markerExact (page (updateActiveHighlight new st)) new.
Proof.
  intros H. unfold updateActiveHighlight. cbn.
  set (p1 := match currentActiveComment st with
             | Some cur => if bool_decide (Some cur <> new) then unmark cur (page st)
                           else page st
             | None => page st
             end).
  assert (H1 : inDocument p1 = inDocument (page st) /\
               ((activeClass p1 = [] /\ icons p1 = [])
                \/ (currentActiveComment st = new /\ p1 = page st))).
  { unfold p1. destruct (currentActiveComment st) as [c|].
    - case_bool_decide as Hne.
      + split; [apply unmark_frame|]. left. apply unmark_exact, H.
      + split; [reflexivity|]. right. split; [|reflexivity].
        destruct (decide (Some c = new)); [assumption|contradiction].
    - split; [reflexivity|]. left. exact H. }
  destruct H1 as [Hdoc H1]. unfold markerExact.
  destruct new as [n|].
  - destruct (inDocument p1 n) eqn:Hn.
    + rewrite (proj1 (mark_frame n p1)), Hn.
      destruct H1 as [[Hc Hi]|[Hcur Hp]].
      * apply mark_clean; assumption.
      * rewrite Hp in *. rewrite Hcur in H. unfold markerExact in H.
        rewrite Hn in H. destruct H. apply mark_again; assumption.
    + rewrite Hn. destruct H1 as [[Hc Hi]|[Hcur Hp]]; [auto|].
      rewrite Hp in *. rewrite Hcur in H. unfold markerExact in H.
      rewrite Hn in H. exact H.
  - destruct H1 as [[Hc Hi]|[Hcur Hp]]; [auto|].
    rewrite Hp. rewrite Hcur in H. exact H.
Qed.

Lemma exact_carriers p cur e :
  markerExact p cur -> carries p e -> cur = Some e /\ inDocument p e = true.
Proof.
  unfold markerExact, carries. destruct cur as [c|].
  - destruct (inDocument p c) eqn:Hc; intros [-> ->] [H|H];
      try (apply list_elem_of_singleton in H; subst; auto); inversion H.
  - intros [-> ->] [H|H]; inversion H.
Qed.

Lemma exact_counts p cur :
  markerExact p cur -> length (activeClass p) <= 1 /\ length (icons p) <= 1.
Proof.
  unfold markerExact. destruct cur as [c|]; [destruct (inDocument p c)|];
    intros [-> ->]; simpl; lia.
Qed.

End MarkerFacts.

Module HeaderFacts.
Import Js Dom StickyUI Header MarkerFacts.

Lemma append_assoc (a b c : string) :
  String.append (String.append a b) c = String.append a (String.append b c).
Proof.
  induction a as [|x a IH]; [reflexivity|].
  change (String x (String.append (String.append a b) c)
          = String x (String.append a (String.append b c))).
  rewrite IH. reflexivity.
Qed.

(** Two fingerprints of the same origin and flag that differ by one more
    id at the end are different strings. *)
Lemma chainKey_longer opMeta compact (a b c : option string) :
  chainKey opMeta [a; b; c] compact <> chainKey opMeta [a; b] compact.
Proof.
  unfold chainKey, joinIds. cbn [map String.concat].
  intros H. apply String.app_inj in H. apply String.app_inj in H.
  rewrite !append_assoc in H.
  apply String.app_inj in H. apply String.app_inj in H. apply String.app_inj in H.
  discriminate.
Qed.

Section Layout.
Variable ver : Selectors.RedditVersion.

(** Asking for an id may fill the id cache, but never changes the answer
    to a later question. *)
Lemma getCommentId_stable c e e' :
  idFrom ver (snd (Selectors.getCommentId ver c (JsElem e))) e' = idFrom ver c e'.
Proof.
  unfold idFrom.
  destruct ver; simpl;
    unfold Selectors.OldReddit.getCommentId, Selectors.NewReddit.getCommentId.
  - destruct (Selectors.OldReddit.isCommentData (self e)) eqn:He; simpl; [|reflexivity].
    destruct (Selectors.idCache c !! e) as [i|] eqn:Hc; simpl; [reflexivity|].
    destruct (Selectors.OldReddit.readId (self e)) as [i|] eqn:Hr; simpl; [|reflexivity].
    destruct (truthy i) eqn:Ht; simpl; [|reflexivity].
    destruct (Selectors.OldReddit.isCommentData (self e')) eqn:He'; simpl; [|reflexivity].
    rewrite lookup_insert. case_decide as Heq.
    + subst e'. rewrite Hc, Hr, Ht. reflexivity.
    + destruct (Selectors.idCache c !! e'); [reflexivity|].
      destruct (Selectors.OldReddit.readId (self e')) as [i'|]; [|reflexivity].
      destruct (truthy i'); reflexivity.
  - destruct (Selectors.NewReddit.isCommentData (self e)) eqn:He; simpl; [|reflexivity].
    destruct (Selectors.idCache c !! e) as [i|] eqn:Hc; simpl; [reflexivity|].
    destruct (Selectors.NewReddit.readId (self e)) as [i|] eqn:Hr; simpl; [|reflexivity].
    destruct (truthy i) eqn:Ht; simpl; [|reflexivity].
    destruct (Selectors.NewReddit.isCommentData (self e')) eqn:He'; simpl; [|reflexivity].
    rewrite lookup_insert. case_decide as Heq.
    + subst e'. rewrite Hc, Hr, Ht. reflexivity.
    + destruct (Selectors.idCache c !! e'); [reflexivity|].
      destruct (Selectors.NewReddit.readId (self e')) as [i'|]; [|reflexivity].
      destruct (truthy i'); reflexivity.
Qed.

Lemma mapIds_spec c l :
  fst (mapIds ver c l) = map (idFrom ver c) l /\
  forall e, idFrom ver (snd (mapIds ver c l)) e = idFrom ver c e.
Proof.
  revert c. induction l as [|x r IH]; intros c; simpl; [auto|].
  destruct (Selectors.getCommentId ver c (JsElem x)) as [i c1] eqn:E1.
  destruct (mapIds ver c1 r) as [rest c2] eqn:E2. simpl.
  destruct (IH c1) as [H1 H2]. rewrite E2 in H1, H2. simpl in H1, H2.
  assert (Hst : forall e, idFrom ver c1 e = idFrom ver c e).
  { intros e. pose proof (getCommentId_stable c x e) as H. rewrite E1 in H. exact H. }
  split.
  - f_equal; [unfold idFrom; rewrite E1; reflexivity|].
    rewrite H1. apply map_ext. exact Hst.
  - intros e. rewrite H2. apply Hst.
Qed.

Lemma rowsOf_ext c c' l index compact :
  (forall e, idFrom ver c' e = idFrom ver c e) ->
  rowsOf ver c' l index compact = rowsOf ver c l index compact.
Proof.
  intros H. revert index. induction l as [|x r IH]; intros index; simpl; [reflexivity|].
  rewrite H, IH. reflexivity.
Qed.

Lemma createRows_spec c l index compact :
  fst (createRows ver c l index compact) = rowsOf ver c l index compact /\
  forall e, idFrom ver (snd (createRows ver c l index compact)) e = idFrom ver c e.
Proof.
  revert c index. induction l as [|x r IH]; intros c index; simpl; [auto|].
  unfold createRow.
  destruct (Selectors.getCommentId ver c (JsElem x)) as [i c1] eqn:E1.
  destruct (createRows ver c1 r (S index) compact) as [rows c2] eqn:E2. simpl.
  destruct (IH c1 (S index)) as [H1 H2]. rewrite E2 in H1, H2. simpl in H1, H2.
  assert (Hst : forall e, idFrom ver c1 e = idFrom ver c e).
  { intros e. pose proof (getCommentId_stable c x e) as H. rewrite E1 in H. exact H. }
  split.
  - f_equal; [unfold rowId, idFrom; rewrite E1; reflexivity|].
    rewrite H1. apply rowsOf_ext. exact Hst.
  - intros e. rewrite H2. apply Hst.
Qed.

Lemma position_frame st :
  page (updateContainerPosition st) = page st /\
  currentActiveComment (updateContainerPosition st) = currentActiveComment st /\
  currentChainIds (updateContainerPosition st) = currentChainIds st /\
  isActive (updateContainerPosition st) = isActive st /\
  selectors (updateContainerPosition st) = selectors st /\
  container (updateContainerPosition st)
  = match container st with
    | Some c => Some (mkContainer (visible c) (children c)
                                  (detectRedditHeaderHeight (page st)))
    | None => None
    end.
Proof.
  unfold updateContainerPosition. destruct (container st) as [c|] eqn:Hc; cbn; auto 10.
Qed.

(** What [hide] does when the container exists. *)
Lemma hide_unfold a st c :
  container st = Some c ->
  hide a st = updateActiveHighlight a
                (withChainIds [] (withContainer (Some (mkContainer false [] (top c))) st)).
Proof. intros H. unfold hide. rewrite H. reflexivity. Qed.

(** The unchanged path of [render]. *)
Lemma render_same chain depth compact active opMeta st c :
  isActive st = true -> container st = Some c -> visible c = true ->
  previousFingerprint st = fingerprint ver st chain depth compact opMeta ->
  render ver chain depth compact active opMeta st
  = updateActiveHighlight active
      (withSelectors (snd (mapIds ver (selectors st) (sliceTo depth chain)))
         (withConfig (mkConfig depth compact (theme (config st))
                               (manualColors (config st))) st)).
Proof.
  intros Ha Hc Hv Hkey. unfold render. rewrite Hc, Ha. cbn [negb selectors withConfig].
  destruct (mapIds_spec (selectors st) (sliceTo depth chain)) as [Hids _].
  destruct (mapIds ver (selectors st) (sliceTo depth chain)) as [ids sel1].
  cbn in Hids. subst ids. cbn [snd currentChainIds withSelectors withConfig].
  unfold previousFingerprint, fingerprint in Hkey. rewrite <- Hkey.
  rewrite String.eqb_refl, Hv. reflexivity.
Qed.

(** The rebuilding path of [render], when there is something to show. *)
Lemma render_rebuild chain depth compact active opMeta st c :
  isActive st = true -> container st = Some c ->
  (previousFingerprint st <> fingerprint ver st chain depth compact opMeta
   \/ visible c = false) ->
  (is_Some opMeta \/ sliceTo depth chain <> []) ->
  container (render ver chain depth compact active opMeta st)
  = Some (mkContainer true
            (originRows opMeta compact
             ++ rowsOf ver (selectors st) (sliceTo depth chain) 0 compact)
            (detectRedditHeaderHeight (page st))) /\
  currentChainIds (render ver chain depth compact active opMeta st)
  = [fingerprint ver st chain depth compact opMeta] /\
  isActive (render ver chain depth compact active opMeta st) = true /\
  (forall e, idFrom ver (selectors (render ver chain depth compact active opMeta st)) e
             = idFrom ver (selectors st) e) /\
  page (render ver chain depth compact active opMeta st)
  = page (updateActiveHighlight active st) /\
  currentActiveComment (render ver chain depth compact active opMeta st) = active.
Proof.
  intros Ha Hc Hdiff Hshow. unfold render. rewrite Hc, Ha.
  cbn [negb selectors withConfig].
  destruct (mapIds_spec (selectors st) (sliceTo depth chain)) as [Hids Hst1].
  destruct (mapIds ver (selectors st) (sliceTo depth chain)) as [ids sel1].
  cbn in Hids, Hst1. subst ids.
  cbn [currentChainIds withSelectors withConfig].
  change (chainKey opMeta (map (idFrom ver (selectors st)) (sliceTo depth chain)) compact)
    with (fingerprint ver st chain depth compact opMeta).
  change (String.concat "" (currentChainIds st)) with (previousFingerprint st).
  assert (Hcond : String.eqb (fingerprint ver st chain depth compact opMeta)
                             (previousFingerprint st) && visible c = false).
  { destruct Hdiff as [Hne|Hv].
    - apply andb_false_intro1, String.eqb_neq. congruence.
    - rewrite Hv. apply andb_false_r. }
  rewrite Hcond. cbn [selectors withChainIds withSelectors].
  destruct (createRows_spec sel1 (sliceTo depth chain) 0 compact) as [Hrows Hst2].
  destruct (createRows ver sel1 (sliceTo depth chain) 0 compact) as [rows sel2].
  cbn in Hrows, Hst2. subst rows.
  assert (Hhide : negb (bool_decide (is_Some opMeta))
                  && (length (sliceTo depth chain) =? 0) = false).
  { destruct Hshow as [Hop|Hne].
    - rewrite bool_decide_eq_true_2 by exact Hop. reflexivity.
    - destruct (sliceTo depth chain); [congruence|]. apply andb_false_r. }
  rewrite Hhide.
  match goal with
  | |- context [updateActiveHighlight active ?s] => set (st4 := s)
  end.
  destruct (highlight_frame active st4) as (F1 & F2 & F3 & F4 & F5 & F6 & F7 & F8 & F9).
  assert (Hc4 : container st4
                = Some (mkContainer (visible c)
                          (originRows opMeta compact
                           ++ rowsOf ver sel1 (sliceTo depth chain) 0 compact) (top c)))
    by reflexivity.
  rewrite F1, Hc4.
  match goal with
  | |- context [updateContainerPosition ?s] => set (st6 := s)
  end.
  destruct (position_frame st6) as (P1 & P2 & P3 & P4 & P5 & P6).
  rewrite P1, P2, P3, P4, P5, P6.
  unfold st6. cbn [container page currentActiveComment currentChainIds isActive
                   selectors withContainer visible children].
  rewrite F2, F4, F6, F7.
  unfold detectRedditHeaderHeight. rewrite F9.
  split.
  { f_equal. f_equal. f_equal. apply rowsOf_ext. exact Hst1. }
  split; [reflexivity|]. split; [exact Ha|].
  split. { intros e. cbn. rewrite Hst2. apply Hst1. }
  split; [|reflexivity].
  apply highlight_page; reflexivity.
Qed.

(** The rebuilding path of [render] when there is nothing to show: the
    header is hidden. *)
Lemma render_hides chain depth compact active st c :
  isActive st = true -> container st = Some c ->
  (previousFingerprint st <> fingerprint ver st chain depth compact None
   \/ visible c = false) ->
  sliceTo depth chain = [] ->
  container (render ver chain depth compact active None st)
  = Some (mkContainer false [] (top c)) /\
  currentChainIds (render ver chain depth compact active None st) = [] /\
  page (render ver chain depth compact active None st)
  = page (updateActiveHighlight None st) /\
  currentActiveComment (render ver chain depth compact active None st) = None.
Proof.
  intros Ha Hc Hdiff Hnil. unfold render. rewrite Hc, Ha.
  cbn [negb selectors withConfig].
  destruct (mapIds_spec (selectors st) (sliceTo depth chain)) as [Hids Hst1].
  destruct (mapIds ver (selectors st) (sliceTo depth chain)) as [ids sel1].
  cbn in Hids, Hst1. subst ids.
  cbn [currentChainIds withSelectors withConfig].
  change (chainKey None (map (idFrom ver (selectors st)) (sliceTo depth chain)) compact)
    with (fingerprint ver st chain depth compact None).
  change (String.concat "" (currentChainIds st)) with (previousFingerprint st).
  assert (Hcond : String.eqb (fingerprint ver st chain depth compact None)
                             (previousFingerprint st) && visible c = false).
  { destruct Hdiff as [Hne|Hv].
    - apply andb_false_intro1, String.eqb_neq. congruence.
    - rewrite Hv. apply andb_false_r. }
  rewrite Hcond. cbn [selectors withChainIds withSelectors].
  destruct (createRows ver sel1 (sliceTo depth chain) 0 compact) as [rows sel2].
  rewrite Hnil. cbn [length Nat.eqb andb negb].
  rewrite bool_decide_eq_false_2 by (intros [m Hm]; discriminate).
  cbn [negb andb].
  match goal with
  | |- context [hide None ?s] => set (st4 := s)
  end.
  assert (Hc4 : container st4 = Some (mkContainer (visible c) ([] ++ rows) (top c)))
    by reflexivity.
  rewrite (hide_unfold None st4 _ Hc4).
  match goal with
  | |- context [updateActiveHighlight None ?s] => set (st5 := s)
  end.
  destruct (highlight_frame None st5) as (F1 & F2 & F3 & F4 & F5 & F6 & F7 & F8 & F9).
  rewrite F1, F4, F7. split; [reflexivity|]. split; [reflexivity|].
  split; [|reflexivity]. apply highlight_page; reflexivity.
Qed.

(** Whatever [render] does, the markers and the recorded active element
    are left as they were or as one highlight update leaves them. *)
Lemma render_marker chain depth compact active opMeta st :
  (page (render ver chain depth compact active opMeta st) = page st /\
   currentActiveComment (render ver chain depth compact active opMeta st)
   = currentActiveComment st)
  \/ exists new,
       page (render ver chain depth compact active opMeta st)
       = page (updateActiveHighlight new st) /\
       currentActiveComment (render ver chain depth compact active opMeta st) = new.
Proof.
  destruct (container st) as [c|] eqn:Hc;
    [|left; unfold render; rewrite Hc; auto].
  destruct (isActive st) eqn:Ha;
    [|left; unfold render; rewrite Hc, Ha; auto].
  destruct (decide (previousFingerprint st = fingerprint ver st chain depth compact opMeta))
    as [Hk|Hk]; [destruct (visible c) eqn:Hv|].
  - right. exists active. rewrite (render_same _ _ _ _ _ _ c Ha Hc Hv Hk).
    destruct (highlight_frame active
                (withSelectors (snd (mapIds ver (selectors st) (sliceTo depth chain)))
                   (withConfig (mkConfig depth compact (theme (config st))
                                         (manualColors (config st))) st)))
      as (_ & _ & _ & _ & _ & _ & F7 & _).
    split; [apply highlight_page; reflexivity|exact F7].
  - right. destruct opMeta as [m|]; [|destruct (sliceTo depth chain) eqn:Hd].
    + exists active.
      destruct (render_rebuild chain depth compact active (Some m) st c Ha Hc
                  (or_intror Hv) (or_introl (ex_intro _ m eq_refl)))
        as (_ & _ & _ & _ & P & C). auto.
    + exists None.
      destruct (render_hides chain depth compact active st c Ha Hc (or_intror Hv) Hd)
        as (_ & _ & P & C). auto.
    + exists active.
      assert (Hne : sliceTo depth chain <> []) by (rewrite Hd; discriminate).
      destruct (render_rebuild chain depth compact active None st c Ha Hc
                  (or_intror Hv) (or_intror Hne))
        as (_ & _ & _ & _ & P & C). auto.
  - right. destruct opMeta as [m|]; [|destruct (sliceTo depth chain) eqn:Hd].
    + exists active.
      destruct (render_rebuild chain depth compact active (Some m) st c Ha Hc
                  (or_introl Hk) (or_introl (ex_intro _ m eq_refl)))
        as (_ & _ & _ & _ & P & C). auto.
    + exists None.
      destruct (render_hides chain depth compact active st c Ha Hc (or_introl Hk) Hd)
        as (_ & _ & P & C). auto.
    + exists active.
      assert (Hne : sliceTo depth chain <> []) by (rewrite Hd; discriminate).
      destruct (render_rebuild chain depth compact active None st c Ha Hc
                  (or_introl Hk) (or_intror Hne))
        as (_ & _ & _ & _ & P & C). auto.
Qed.

(** A [render] that has something to show records its [activeComment] as
    the active element. *)
Lemma render_active chain depth compact active opMeta st :
  isActive st = true -> is_Some (container st) ->
  (is_Some opMeta \/ sliceTo depth chain <> []) ->
  currentActiveComment (render ver chain depth compact active opMeta st) = active.
Proof.
  intros Ha [c Hc] Hshow.
  destruct (decide (previousFingerprint st = fingerprint ver st chain depth compact opMeta))
    as [Hk|Hk]; [destruct (visible c) eqn:Hv|].
  - rewrite (render_same _ _ _ _ _ _ c Ha Hc Hv Hk). apply highlight_frame.
  - apply (render_rebuild chain depth compact active opMeta st c Ha Hc (or_intror Hv) Hshow).
  - apply (render_rebuild chain depth compact active opMeta st c Ha Hc (or_introl Hk) Hshow).
Qed.

Lemma hide_marker a st :
  (container st = None /\ hide a st = st)
  \/ (is_Some (container st) /\
      page (hide a st) = page (updateActiveHighlight a st) /\
      currentActiveComment (hide a st) = a).
Proof.
  destruct (container st) as [c|] eqn:Hc.
  - right. split; [eauto|]. rewrite (hide_unfold a st c Hc).
    match goal with
    | |- context [updateActiveHighlight a ?s] => set (st1 := s)
    end.
    destruct (highlight_frame a st1) as (_ & _ & _ & _ & _ & _ & F7 & _).
    split; [apply highlight_page; reflexivity|exact F7].
  - left. split; [reflexivity|]. unfold hide. rewrite Hc. reflexivity.
Qed.

(** After a render with depth 3 of a chain of at least three ancestors the
    stored fingerprint is that of the call, whichever path was taken. *)
Lemma render_three e0 e1 e2 rest compact active opMeta st c :
  isActive st = true -> container st = Some c ->
  exists c1,
    container (render ver (e0 :: e1 :: e2 :: rest) 3 compact active opMeta st) = Some c1 /\
    isActive (render ver (e0 :: e1 :: e2 :: rest) 3 compact active opMeta st) = true /\
    previousFingerprint (render ver (e0 :: e1 :: e2 :: rest) 3 compact active opMeta st)
    = fingerprint ver st (e0 :: e1 :: e2 :: rest) 3 compact opMeta /\
    forall e, idFrom ver (selectors (render ver (e0 :: e1 :: e2 :: rest) 3 compact
                                            active opMeta st)) e
              = idFrom ver (selectors st) e.
Proof.
  intros Ha Hc. set (chain := e0 :: e1 :: e2 :: rest).
  destruct (decide (previousFingerprint st = fingerprint ver st chain 3 compact opMeta))
    as [Hk|Hk]; [destruct (visible c) eqn:Hv|].
  - rewrite (render_same _ _ _ _ _ _ c Ha Hc Hv Hk).
    match goal with
    | |- context [updateActiveHighlight active ?s] => set (st1 := s)
    end.
    destruct (highlight_frame active st1) as (F1 & F2 & _ & F4 & _ & F6 & _).
    exists c. unfold previousFingerprint. rewrite F1, F2, F4, F6.
    split; [exact Hc|]. split; [exact Ha|]. split; [exact Hk|].
    intros e. apply (mapIds_spec (selectors st) (sliceTo 3 chain)).
  - destruct (render_rebuild chain 3 compact active opMeta st c Ha Hc (or_intror Hv))
      as (R1 & R2 & R3 & R4 & _); [right; discriminate|].
    eexists. split; [exact R1|]. split; [exact R3|]. split; [|exact R4].
    unfold previousFingerprint. rewrite R2. reflexivity.
  - destruct (render_rebuild chain 3 compact active opMeta st c Ha Hc (or_introl Hk))
      as (R1 & R2 & R3 & R4 & _); [right; discriminate|].
    eexists. split; [exact R1|]. split; [exact R3|]. split; [|exact R4].
    unfold previousFingerprint. rewrite R2. reflexivity.
Qed.

(** C6.  With the header module active and its container in place: a call
    of [render] whose fingerprint is the one stored by the previous render,
    while the header is visible, leaves the container (rows, visibility,
    position) and the stored fingerprint as they are and does to the page
    what the highlight update alone does; and after a render with depth 3
    of a chain of at least three ancestors, a render of the same chain with
    depth 2 rebuilds the header: it is visible and holds the origin row
    (when origin metadata is given) followed by exactly the rows of the
    first two ancestors. *)
Theorem render_incremental chain depth compact active opMeta st c :
  isActive st = true -> container st = Some c ->
  (visible c = true ->
   previousFingerprint st = fingerprint ver st chain depth compact opMeta ->
   container (render ver chain depth compact active opMeta st) = Some c /\
   currentChainIds (render ver chain depth compact active opMeta st)
   = currentChainIds st /\
   page (render ver chain depth compact active opMeta st)
   = page (updateActiveHighlight active st) /\
   currentActiveComment (render ver chain depth compact active opMeta st) = active) /\
  (forall e0 e1 e2 rest, chain = e0 :: e1 :: e2 :: rest ->
   exists top',
     container (render ver chain 2 compact active opMeta
                       (render ver chain 3 compact active opMeta st))
     = Some (mkContainer true
               (originRows opMeta compact
                ++ [CommentRow e0 1 compact (rowId (idFrom ver (selectors st) e0));
                    CommentRow e1 2 compact (rowId (idFrom ver (selectors st) e1))])
               top')).
Proof.
  intros Ha Hc. split.
  - intros Hv Hk. rewrite (render_same _ _ _ _ _ _ c Ha Hc Hv Hk).
    match goal with
    | |- context [updateActiveHighlight active ?s] => set (st1 := s)
    end.
    destruct (highlight_frame active st1) as (F1 & _ & _ & F4 & _ & _ & F7 & _).
    rewrite F1, F4, F7. split; [exact Hc|]. split; [reflexivity|].
    split; [|reflexivity]. apply highlight_page; reflexivity.
  - intros e0 e1 e2 rest ->.
    destruct (render_three e0 e1 e2 rest compact active opMeta st c Ha Hc)
      as (c1 & C1 & A1 & K1 & S1).
    set (chain := e0 :: e1 :: e2 :: rest) in *.
    set (st1 := render ver chain 3 compact active opMeta st) in *.
    assert (Hk : previousFingerprint st1 <> fingerprint ver st1 chain 2 compact opMeta).
    { rewrite K1. unfold fingerprint.
      change (sliceTo 2 chain) with [e0; e1].
      change (sliceTo 3 chain) with [e0; e1; e2].
      cbn [map]. rewrite !S1. apply chainKey_longer. }
    destruct (render_rebuild chain 2 compact active opMeta st1 c1 A1 C1 (or_introl Hk))
      as (R1 & _); [right; discriminate|].
    eexists. rewrite R1. change (sliceTo 2 chain) with [e0; e1].
    cbn [rowsOf]. rewrite !S1. reflexivity.
Qed.

(** The marker invariant.  From a state in which the marker is where the
    module believes it to be, every call of [render], [hide] or the
    highlight update ends in such a state again: only the element recorded as active can carry the
    class or an icon, there is at most one of each, and the element that
    was active before and no longer is carries nothing.  The element the
    marker moves to is the argument of the highlight update, the argument
    of [hide] when the container exists, and the [activeComment] of a
    [render] that is active, has its container and has an origin row or an
    ancestor row to show.  Marking the active element again changes
    nothing. *)
Theorem marker_unique call st :
  markerExact (page st) (currentActiveComment st) ->
  markerExact (page (run ver call st)) (currentActiveComment (run ver call st)) /\
  (forall e, carries (page (run ver call st)) e ->
             currentActiveComment (run ver call st) = Some e) /\
  length (activeClass (page (run ver call st))) <= 1 /\
  length (icons (page (run ver call st))) <= 1 /\
  (forall old, currentActiveComment st = Some old ->
               currentActiveComment (run ver call st) <> Some old ->
               ~ carries (page (run ver call st)) old) /\
  (forall new, call = CallHighlight new ->
               currentActiveComment (run ver call st) = new) /\
  (forall a, call = CallHide a -> is_Some (container st) ->
             currentActiveComment (run ver call st) = a) /\
  (forall chain depth compact active opMeta,
     call = CallRender chain depth compact active opMeta ->
     isActive st = true -> is_Some (container st) ->
     (is_Some opMeta \/ sliceTo depth chain <> []) ->
     currentActiveComment (run ver call st) = active) /\
  (forall n, call = CallHighlight (Some n) -> currentActiveComment st = Some n ->
             activeClass (page (run ver call st)) = activeClass (page st) /\
             icons (page (run ver call st)) = icons (page st)).
Proof.
  intros H.
  assert (Hex : markerExact (page (run ver call st))
                            (currentActiveComment (run ver call st))).
  { destruct call as [chain depth compact active opMeta|a|new]; cbn [run].
    - destruct (render_marker chain depth compact active opMeta st)
        as [[-> ->]|(new & -> & ->)]; [exact H|apply highlight_exact, H].
    - destruct (hide_marker a st) as [[_ ->]|(_ & -> & ->)];
        [exact H|apply highlight_exact, H].
    - rewrite (proj1 (proj2 (proj2 (proj2 (proj2 (proj2 (proj2
                 (highlight_frame new st)))))))).
      apply highlight_exact, H. }
  split; [exact Hex|].
  split. { intros e He. apply (exact_carriers _ _ _ Hex He). }
  split; [apply (exact_counts _ _ Hex)|]. split; [apply (exact_counts _ _ Hex)|].
  split. { intros old _ Hne Hcar. apply Hne. apply (exact_carriers _ _ _ Hex Hcar). }
  split. { intros new ->. cbn [run]. apply highlight_frame. }
  split. { intros a -> Hsome. cbn [run].
           destruct (hide_marker a st) as [[Hn _]|(_ & _ & Hcur)]; [|exact Hcur].
           rewrite Hn in Hsome. destruct Hsome; discriminate. }
  split. { intros chain depth compact active opMeta -> Ha Hsome Hshow. cbn [run].
           apply render_active; assumption. }
  intros n -> Hcur. cbn [run].
  pose proof (highlight_exact (Some n) st H) as Hnew.
  destruct (highlight_frame (Some n) st) as (_ & _ & _ & _ & _ & _ & _ & F8 & _).
  rewrite Hcur in H. unfold markerExact in H, Hnew. rewrite F8 in Hnew.
  destruct (inDocument (page st) n); destruct H as [-> ->];
    destruct Hnew as [-> ->]; auto.
Qed.

(** C7.  [render] can take the marker off the active element.  When
    there is no origin metadata and no ancestor to show, and the header is
    not showing that very content already, [render] calls [hide()] without
    an argument, although it was given the active element: whatever that
    element is, the header then has recorded null as the active element
    and no element of the page carries the marker, the active element
    included, also when it carried the marker before the call. *)
Theorem render_strips_marker chain depth compact active st c :
  isActive st = true -> container st = Some c ->
  (previousFingerprint st <> fingerprint ver st chain depth compact None
   \/ visible c = false) ->
  sliceTo depth chain = [] ->
  markerExact (page st) (currentActiveComment st) ->
  currentActiveComment (render ver chain depth compact (Some active) None st) = None /\
  activeClass (page (render ver chain depth compact (Some active) None st)) = [] /\
  icons (page (render ver chain depth compact (Some active) None st)) = [] /\
  ~ carries (page (render ver chain depth compact (Some active) None st)) active.
Proof.
  intros Ha Hc Hdiff Hnil Hm.
  destruct (render_hides chain depth compact (Some active) st c Ha Hc Hdiff Hnil)
    as (_ & _ & P & C).
  pose proof (highlight_exact None st Hm) as [H1 H2].
  rewrite P. split; [exact C|]. split; [exact H1|]. split; [exact H2|].
  intros [Hin|Hin]; [rewrite H1 in Hin|rewrite H2 in Hin]; inversion Hin.
Qed.

End Layout.

(** The marker invariant holds at the start and is kept by the rest of the
    module's interface. *)
Lemma initial_exact p :
  activeClass p = [] -> icons p = [] ->
  markerExact (page (initial p)) (currentActiveComment (initial p)).
Proof. intros H1 H2. split; assumption. Qed.

Lemma init_exact options st :
  markerExact (page st) (currentActiveComment st) ->
  markerExact (page (init options st)) (currentActiveComment (init options st)).
Proof.
  intros H. unfold init. destruct (isActive st); [exact H|].
  unfold createContainer. cbn. destruct (container st); exact H.
Qed.

Lemma setTheme_exact th colors st :
  markerExact (page st) (currentActiveComment st) ->
  markerExact (page (setTheme th colors st)) (currentActiveComment (setTheme th colors st)).
Proof. intros H. exact H. Qed.

Lemma destroy_exact st :
  markerExact (page st) (currentActiveComment st) ->
  markerExact (page (destroy st)) (currentActiveComment (destroy st)).
Proof.
  intros H. unfold destroy. destruct (isActive st); cbn; [|exact H].
  destruct (currentActiveComment st) as [c|] eqn:Hc; cbn; [|rewrite Hc; exact H].
  apply unmark_exact. exact H.
Qed.

Lemma render_incremental_witness :
  isActive Pages.readyHeader = true /\
  container Pages.readyHeader = Some (mkContainer false [] 0) /\
  exists top',
    container (render Selectors.Old [Pages.topComment; Pages.reply; Pages.deepReply] 2
                 true (Some Pages.deepReply) (Some Pages.samplePost)
                 (render Selectors.Old [Pages.topComment; Pages.reply; Pages.deepReply] 3
                    true (Some Pages.deepReply) (Some Pages.samplePost)
                    Pages.readyHeader))
    = Some (mkContainer true
              [OPRow Pages.samplePost true;
               CommentRow Pages.topComment 1 true "t1_a";
               CommentRow Pages.reply 2 true "t1_b"] top').
Proof.
  split; [reflexivity|]. split; [reflexivity|].
  destruct (render_incremental Selectors.Old
              [Pages.topComment; Pages.reply; Pages.deepReply] 3 true
              (Some Pages.deepReply) (Some Pages.samplePost) Pages.readyHeader
              (mkContainer false [] 0) eq_refl eq_refl) as [_ H].
  destruct (H Pages.topComment Pages.reply Pages.deepReply [] eq_refl) as [top' Htop].
  exists top'. exact Htop.
Defined.

Lemma marker_unique_witness :
  markerExact (page Pages.readyHeader) (currentActiveComment Pages.readyHeader) /\
  markerExact
    (page (run Selectors.Old (CallHighlight (Some Pages.topComment)) Pages.readyHeader))
    (Some Pages.topComment).
Proof.
  assert (H0 : markerExact (page Pages.readyHeader)
                           (currentActiveComment Pages.readyHeader))
    by (split; reflexivity).
  split; [exact H0|].
  destruct (marker_unique Selectors.Old (CallHighlight (Some Pages.topComment))
              Pages.readyHeader H0) as (Hex & _ & _ & _ & _ & Hnew & _).
  rewrite (Hnew _ eq_refl) in Hex. exact Hex.
Defined.

(** The header is hidden and the top-level comment of the sample page is
    the active element and carries the marker; [render] is called for that
    comment with no ancestors and no origin metadata, as main.js calls it
    after a click in a top-level comment of a page for which
    [getOriginalPost] returns null. *)
Lemma render_strips_marker_witness :
  let st := updateActiveHighlight (Some Pages.topComment) Pages.readyHeader in
  activeClass (page st) = [Pages.topComment] /\
  icons (page st) = [Pages.topComment] /\
  currentActiveComment st = Some Pages.topComment /\
  currentActiveComment (render Selectors.Old [] 20 true (Some Pages.topComment) None st)
  = None /\
  activeClass (page (render Selectors.Old [] 20 true (Some Pages.topComment) None st))
  = [] /\
  icons (page (render Selectors.Old [] 20 true (Some Pages.topComment) None st)) = [].
Proof.
  cbv zeta.
  split; [reflexivity|]. split; [reflexivity|]. split; [reflexivity|].
  destruct (render_strips_marker Selectors.Old [] 20 true Pages.topComment
              (updateActiveHighlight (Some Pages.topComment) Pages.readyHeader)
              (mkContainer false [] 0) eq_refl eq_refl (or_intror eq_refl) eq_refl)
    as (H1 & H2 & H3 & _); [split; reflexivity|].
  auto.
Defined.

End HeaderFacts.

(* ===================================================================== *)
(** ** Further properties *)
(* ===================================================================== *)

Module NumberFacts.
Import Js.

#[local] Open Scope Z_scope.

(** Below [2 ^ 53] every integer is a Number. *)
Lemma toNumber_small z : Z.abs z < 2 ^ 53 -> toNumber z = Num z.
Proof.
  intros H. unfold toNumber, roundToDouble.
  assert (Hlog : (Z.log2 (Z.abs z) <? 53) = true).
  { apply Z.ltb_lt. destruct (Z.eq_dec (Z.abs z) 0) as [->|Hz]; [reflexivity|].
    apply Z.log2_lt_pow2; lia. }
  rewrite Hlog.
  assert (Hbig : (2 ^ 1024 <=? Z.abs z) = false).
  { apply Z.leb_gt. eapply Z.lt_trans; [exact H|]. vm_compute. reflexivity. }
  rewrite Hbig. f_equal. destruct (z <? 0) eqn:E; lia.
Qed.

(** From [2 ^ 53] on [parseInt] rounds: the digits of [2 ^ 53 + 1] give
    [2 ^ 53], those of [2 ^ 53 + 3] give [2 ^ 53 + 4]; a one with 309 zeros
    gives Infinity; [-0] is read as 0. *)
Example parseInt10_rounds :
  (parseInt10 "9007199254740993" = Num 9007199254740992) /\
  (parseInt10 "9007199254740995" = Num 9007199254740996) /\
  (parseInt10 "-9007199254740993" = Num (-9007199254740992)) /\
  (parseInt10 (String "1" (String.concat "" (repeat "0"%string 309))) = Infinity false) /\
  (parseInt10 "-0" = Num 0) /\
  (parseInt10 " 42px" = Num 42) /\
  (parseInt10 "px" = NaN).
Proof. repeat split; vm_compute; reflexivity. Qed.

End NumberFacts.

Module ThemeFacts.
Import Js JsMath Theme Channels.

#[local] Open Scope Z_scope.

Lemma hexDigit_range c d : hexDigit c = Some d -> 0 <= d <= 15.
Proof.
  destruct c as [[] [] [] [] [] [] [] []]; intros H; vm_compute in H;
    try discriminate; inversion H; subst; lia.
Qed.

Lemma hexDigit_plain c d :
  hexDigit c = Some d ->
  isStrWhiteSpace c = false /\ c <> "-"%char /\ c <> "+"%char
  /\ c <> "x"%char /\ c <> "X"%char.
Proof.
  destruct c as [[] [] [] [] [] [] [] []]; intros H; vm_compute in H;
    try discriminate; repeat split; try reflexivity; discriminate.
Qed.

Lemma parseInt16_pair c1 c2 d1 d2 :
  hexDigit c1 = Some d1 -> hexDigit c2 = Some d2 ->
  parseInt16 (String c1 (String c2 EmptyString)) = Num (16 * d1 + d2).
Proof.
  intros H1 H2.
  destruct (hexDigit_plain _ _ H1) as (Hw & Hm & Hp & _).
  destruct (hexDigit_plain _ _ H2) as (_ & _ & _ & Hx & HX).
  unfold parseInt16. cbn [skipWhite]. rewrite Hw.
  assert (E1 : match String c1 (String c2 "") with
               | String "-" r => (true, r)
               | String "+" r => (false, r)
               | _ => (false, String c1 (String c2 ""))
               end = (false, String c1 (String c2 ""))).
  { destruct c1 as [[] [] [] [] [] [] [] []]; try reflexivity;
      exfalso; first [apply Hp; reflexivity|apply Hm; reflexivity]. }
  rewrite E1.
  assert (E2 : match String c1 (String c2 "") with
               | String "0" (String "x" r) => r
               | String "0" (String "X" r) => r
               | _ => String c1 (String c2 "")
               end = String c1 (String c2 "")).
  { destruct c1 as [[] [] [] [] [] [] [] []]; try reflexivity;
      destruct c2 as [[] [] [] [] [] [] [] []]; try reflexivity;
      exfalso; first [apply HX; reflexivity|apply Hx; reflexivity]. }
  rewrite E2. cbn [readHex]. rewrite H1. cbn [readHex]. rewrite H2. cbn [default].
  pose proof (hexDigit_range _ _ H1). pose proof (hexDigit_range _ _ H2).
  rewrite NumberFacts.toNumber_small; [f_equal; unfold id; lia|].
  unfold id. change (2 ^ 53) with 9007199254740992. lia.
Qed.

Lemma hexChar_digit d : 0 <= d <= 15 -> hexDigit (hexChar d) = Some d.
Proof.
  intros H.
  assert (C : d = 0 \/ d = 1 \/ d = 2 \/ d = 3 \/ d = 4 \/ d = 5 \/ d = 6 \/ d = 7
              \/ d = 8 \/ d = 9 \/ d = 10 \/ d = 11 \/ d = 12 \/ d = 13 \/ d = 14
              \/ d = 15) by lia.
  repeat (destruct C as [->|C]; [reflexivity|]). subst. reflexivity.
Qed.

(** A channel value prints as two lower-case hex digits once padded. *)
Lemma channel_text z :
  0 <= z <= 255 ->
  padStart 2 "0" (toString16 (Num z))
  = String (hexChar (z / 16)) (String (hexChar (z mod 16)) EmptyString).
Proof.
  intros H. unfold toString16.
  destruct (z <? 0) eqn:Hneg; [lia|].
  destruct (Z.ltb_spec z 16) as [Hlt|Hge].
  - assert (E : forall f, hexDigits (S f) z "" = String (hexChar (z mod 16)) "").
    { intros f. cbn [hexDigits]. destruct (Z.ltb_spec z 16); [reflexivity|lia]. }
    rewrite E. rewrite (Z.div_small z 16) by lia. reflexivity.
  - assert (Hl : (1 <= Z.to_nat (Z.log2 z))%nat).
    { assert (4 <= Z.log2 z) by (apply Z.log2_le_pow2; simpl; lia). lia. }
    destruct (Z.to_nat (Z.log2 z)) as [|f] eqn:Hf; [lia|].
    cbn [hexDigits]. destruct (Z.ltb_spec z 16); [lia|].
    destruct (Z.ltb_spec (z / 16) 16) as [_|Hbad].
    + assert (Hq : z / 16 mod 16 = z / 16).
      { apply Z.mod_small. split; [apply Z.div_pos; lia|].
        apply Z.div_lt_upper_bound; lia. }
      rewrite Hq. reflexivity.
    + exfalso. assert (z / 16 < 16) by (apply Z.div_lt_upper_bound; lia). lia.
Qed.

Lemma adjust_clip a z : adjust (Num a) (Num z) = Num (clip (z + a)).
Proof. reflexivity. Qed.

Lemma clip_range z : 0 <= clip z <= 255.
Proof. unfold clip. lia. Qed.

Lemma isHexDigit_Some c : isHexDigit c = true -> exists d, hexDigit c = Some d.
Proof. unfold isHexDigit. destruct (hexDigit c) as [d|]; [eauto|discriminate]. Qed.

(** What [hexToRgb] accepts, and what it reads. *)
Lemma hexToRgb_Some hex c :
  hexToRgb hex = Some c ->
  exists x y z,
    c = mkRgb (Num x) (Num y) (Num z) /\
    0 <= x <= 255 /\ 0 <= y <= 255 /\ 0 <= z <= 255.
Proof.
  unfold hexToRgb. destruct (execHex hex) as [[[g1 g2] g3]|] eqn:E; [|discriminate].
  intros H. inversion H; subst c; clear H.
  unfold execHex in E.
  destruct (match hex with String "#" rest => rest | _ => hex end)
    as [|c1 [|c2 [|c3 [|c4 [|c5 [|c6 [|? ?]]]]]]]; try discriminate.
  destruct (isHexDigit c1) eqn:D1; [|discriminate].
  destruct (isHexDigit c2) eqn:D2; [|discriminate].
  destruct (isHexDigit c3) eqn:D3; [|discriminate].
  destruct (isHexDigit c4) eqn:D4; [|discriminate].
  destruct (isHexDigit c5) eqn:D5; [|discriminate].
  destruct (isHexDigit c6) eqn:D6; [|discriminate].
  cbn [andb] in E. inversion E; subst; clear E.
  destruct (isHexDigit_Some _ D1) as [d1 H1]. destruct (isHexDigit_Some _ D2) as [d2 H2].
  destruct (isHexDigit_Some _ D3) as [d3 H3]. destruct (isHexDigit_Some _ D4) as [d4 H4].
  destruct (isHexDigit_Some _ D5) as [d5 H5]. destruct (isHexDigit_Some _ D6) as [d6 H6].
  rewrite (parseInt16_pair _ _ _ _ H1 H2), (parseInt16_pair _ _ _ _ H3 H4),
    (parseInt16_pair _ _ _ _ H5 H6).
  pose proof (hexDigit_range _ _ H1). pose proof (hexDigit_range _ _ H2).
  pose proof (hexDigit_range _ _ H3). pose proof (hexDigit_range _ _ H4).
  pose proof (hexDigit_range _ _ H5). pose proof (hexDigit_range _ _ H6).
  exists (16 * d1 + d2), (16 * d3 + d4), (16 * d5 + d6).
  split; [reflexivity|]. lia.
Qed.

Lemma pair_app z s :
  String.append (pair z) s
  = String (hexChar (z / 16)) (String (hexChar (z mod 16)) s).
Proof. reflexivity. Qed.

Lemma hexChar_not_hash d : 0 <= d <= 15 -> hexChar d <> "#"%char.
Proof.
  intros H E. pose proof (hexChar_digit d H) as Hd. rewrite E in Hd. discriminate.
Qed.

(** Reading back what [adjustBrightness] prints. *)
Lemma hexToRgb_pairs x y z :
  0 <= x <= 255 -> 0 <= y <= 255 -> 0 <= z <= 255 ->
  hexToRgb (String "#" (String.append (pair x) (String.append (pair y) (pair z))))
  = Some (mkRgb (Num x) (Num y) (Num z)).
Proof.
  intros Hx Hy Hz.
  assert (D : forall v, 0 <= v <= 255 -> 0 <= v / 16 <= 15 /\ 0 <= v mod 16 <= 15).
  { intros v Hv. split.
    - split; [apply Z.div_pos; lia|].
      assert (v / 16 < 16) by (apply Z.div_lt_upper_bound; lia). lia.
    - pose proof (Z.mod_pos_bound v 16). lia. }
  destruct (D x Hx) as [Hx1 Hx2]. destruct (D y Hy) as [Hy1 Hy2].
  destruct (D z Hz) as [Hz1 Hz2].
  unfold hexToRgb, execHex. rewrite !pair_app. unfold pair, isHexDigit.
  rewrite !hexChar_digit by assumption. cbn [andb].
  rewrite (parseInt16_pair _ _ _ _ (hexChar_digit _ Hx1) (hexChar_digit _ Hx2)),
    (parseInt16_pair _ _ _ _ (hexChar_digit _ Hy1) (hexChar_digit _ Hy2)),
    (parseInt16_pair _ _ _ _ (hexChar_digit _ Hz1) (hexChar_digit _ Hz2)).
  rewrite <- (Z.div_mod x 16), <- (Z.div_mod y 16), <- (Z.div_mod z 16) by lia.
  reflexivity.
Qed.

(** The text [adjustBrightness] builds for a colour it can read. *)
Lemma adjustBrightness_text hex a x y z :
  hexToRgb hex = Some (mkRgb (Num x) (Num y) (Num z)) ->
  adjustBrightness hex (Num a)
  = String "#" (String.append (pair (clip (x + a)))
                  (String.append (pair (clip (y + a))) (pair (clip (z + a))))).
Proof.
  intros H. unfold adjustBrightness. rewrite H.
  cbn [r g b map String.concat]. rewrite !adjust_clip.
  rewrite !channel_text by apply clip_range.
  reflexivity.
Qed.

(** X1.  [adjustBrightness] leaves a string that [hexToRgb] cannot read
    as it is.  For one it can read (six hex digits in either case, with
    or without the leading [#]) every channel is a number from 0 to 255,
    and reading the result back with [hexToRgb] gives every channel
    moved by the amount and cut off at 0 and at 255. *)
Theorem adjustBrightness_round_trip hex a :
  match hexToRgb hex with
  | None => adjustBrightness hex (Num a) = hex
  | Some c =>
      exists x y z,
        c = mkRgb (Num x) (Num y) (Num z) /\
        0 <= x <= 255 /\ 0 <= y <= 255 /\ 0 <= z <= 255 /\
        hexToRgb (adjustBrightness hex (Num a))
        = Some (mkRgb (Num (Z.max 0 (Z.min 255 (x + a))))
                      (Num (Z.max 0 (Z.min 255 (y + a))))
                      (Num (Z.max 0 (Z.min 255 (z + a)))))
  end.
Proof.
  destruct (hexToRgb hex) as [c|] eqn:E.
  - destruct (hexToRgb_Some _ _ E) as (x & y & z & -> & Hx & Hy & Hz).
    exists x, y, z. repeat (split; [assumption || reflexivity|]).
    rewrite (adjustBrightness_text _ a _ _ _ E).
    apply hexToRgb_pairs; apply clip_range.
  - unfold adjustBrightness. rewrite E. reflexivity.
Qed.

(** X2.  Two adjustments in the same direction add up: brightening by
    [a] and then by [b] gives the same text as brightening by [a + b]
    at once, and so for darkening.  In particular adjusting by 0 twice is
    adjusting by 0 once: the result is already in the form
    [adjustBrightness] prints. *)
Theorem adjustBrightness_adds hex a b :
  (0 <= a /\ 0 <= b) \/ (a <= 0 /\ b <= 0) ->
  adjustBrightness (adjustBrightness hex (Num a)) (Num b)
  = adjustBrightness hex (Num (a + b)).
Proof.
  intros Hab.
  destruct (hexToRgb hex) as [c|] eqn:E.
  - destruct (hexToRgb_Some _ _ E) as (x & y & z & -> & Hx & Hy & Hz).
    rewrite (adjustBrightness_text _ a _ _ _ E), (adjustBrightness_text _ (a + b) _ _ _ E).
    rewrite (adjustBrightness_text _ b _ _ _
               (hexToRgb_pairs _ _ _ (clip_range _) (clip_range _) (clip_range _))).
    assert (C : forall v, 0 <= v <= 255 -> clip (clip (v + a) + b) = clip (v + (a + b))).
    { intros v Hv. unfold clip. lia. }
    rewrite !C by assumption. reflexivity.
  - unfold adjustBrightness. rewrite E. rewrite E. reflexivity.
Qed.

Lemma adjustBrightness_adds_witness :
  adjustBrightness (adjustBrightness "#1E3a5f" (Num 20)) (Num 240)
  = adjustBrightness "#1E3a5f" (Num 260).
Proof.
  apply (adjustBrightness_adds "#1E3a5f" 20 240). left. split; lia.
Defined.

End ThemeFacts.

Module UtilFacts.
Import Js JsMath Util Schedules.

Section Clamp.
#[local] Open Scope Z_scope.

(** X3.  With [min <= max] the result of [clamp] lies between the two
    bounds, is the value itself when that lies between them, and is the
    nearer bound otherwise.  With [min > max] the result is [max],
    whatever the value.  Clamping a second time changes nothing. *)
Theorem clamp_bounds (v lo hi : Z) :
  (lo <= hi ->
   exists z, clamp (Num v) (Num lo) (Num hi) = Num z /\ lo <= z <= hi /\
             (lo <= v <= hi -> z = v) /\ (v < lo -> z = lo) /\ (hi < v -> z = hi)) /\
  (hi < lo -> clamp (Num v) (Num lo) (Num hi) = Num hi) /\
  clamp (clamp (Num v) (Num lo) (Num hi)) (Num lo) (Num hi)
  = clamp (Num v) (Num lo) (Num hi).
Proof.
  unfold clamp, mathMin, mathMax. split; [|split].
  - intros H. exists (Z.min (Z.max v lo) hi). split; [reflexivity|]. lia.
  - intros H. f_equal. lia.
  - f_equal. lia.
Qed.

End Clamp.

Section Timers.
Variable Args : Type.
#[local] Open Scope Z_scope.
#[local] Abbreviation spaced := (Schedules.spaced Args).
#[local] Abbreviation heldBack := (Schedules.heldBack Args).

Lemma throttle_spaced_from interval evs :
  forall clock st prev,
    timely (stepThrottled interval) timeoutId evs clock st = true ->
    lastTime st <= clock ->
    (forall p, prev = Some p -> p = lastTime st) ->
    (forall t, timeoutId st = Some t -> lastTime st + interval <= due t) ->
    spaced interval prev (snd (run (stepThrottled interval) evs st)).
Proof.
  induction evs as [|ev r IH]; intros clock st prev Ht Hc Hp Hd; [exact I|].
  cbn [timely] in Ht. apply andb_prop in Ht as [Ht Hr]. apply andb_prop in Ht as [Hclk Hev].
  apply Z.leb_le in Hclk.
  cbn [run].
  destruct (stepThrottled interval ev st) as [st1 out] eqn:Es. cbn [fst] in Hr.
  specialize (IH (timeOf ev) st1).
  destruct (run (stepThrottled interval) r st1) as [st2 log] eqn:Er. cbn [snd] in *.
  destruct ev as [now a|now|now]; cbn [timeOf stepThrottled] in *.
  - unfold throttled in Es.
    destruct (interval - (now - lastTime st) <=? 0) eqn:Erem.
    + apply Z.leb_le in Erem. inversion Es; subst st1 out; clear Es.
      cbn [map app spaced]. split.
      * destruct prev as [p|]; [|exact I]. rewrite (Hp p eq_refl). lia.
      * apply IH; cbn; try assumption; try lia; try congruence;
          try (intros t Habs; discriminate).
    + apply Z.leb_gt in Erem.
      destruct (timeoutId st) as [tm|] eqn:Etm; inversion Es; subst st1 out; clear Es;
        cbn [map app]; apply IH; try assumption.
      * lia.
      * rewrite Etm. exact Hd.
      * cbn. lia.
      * intros t Ht'. cbn in Ht'. inversion Ht'; subst t. cbn. lia.
  - unfold throttledTimeout in Es.
    destruct (timeoutId st) as [tm|] eqn:Etm; [|discriminate Hev].
    apply Z.leb_le in Hev. inversion Es; subst st1 out; clear Es.
    cbn [map app spaced]. split.
    + destruct prev as [p|]; [|exact I]. rewrite (Hp p eq_refl).
      specialize (Hd tm eq_refl). lia.
    + apply IH; cbn; try assumption; try lia; try congruence;
        try (intros t Habs; discriminate).
  - inversion Es; subst st1 out; clear Es. cbn [map app].
    apply IH; cbn; try assumption; try lia; try (intros t Habs; discriminate).
Qed.

(** X4.  A throttled function never runs twice within [interval]: with
    the events in the order of the clock and the timer firing no earlier
    than it was set for, any two successive calls of the wrapped function
    are at least [interval] apart, whether they were made at once or by
    the timer. *)
Theorem throttle_spacing interval evs :
  timely (stepThrottled interval) timeoutId evs 0 throttle = true ->
  spaced interval None (snd (run (stepThrottled interval) evs throttle)).
Proof.
  intros H. apply (throttle_spaced_from interval evs 0 throttle None H); cbn.
  - lia.
  - intros p Hp; discriminate.
  - intros t Ht; discriminate.
Qed.

Lemma throttle_waiting interval (more : list (Event Args)) :
  forall (st : Throttled Args) tm,
    timeoutId st = Some tm ->
    Forall (heldBack interval (lastTime st)) more ->
    run (stepThrottled interval) more st = (st, []).
Proof.
  induction more as [|ev r IH]; intros st tm Htm Hall; [reflexivity|].
  inversion Hall as [|? ? (now & a & -> & Hrem) Hr]; subst.
  cbn [run stepThrottled]. unfold throttled.
  destruct (interval - (now - lastTime st) <=? 0) eqn:E; [apply Z.leb_le in E; lia|].
  rewrite Htm. rewrite (IH st tm Htm Hr). reflexivity.
Qed.

(** X5.  The call that is held back first is the one the timer makes
    later: when a call has to wait and no timer is armed, its arguments are
    the ones the wrapped function gets when the timer fires, and the calls
    that arrive in between, while the wait lasts, are dropped with their
    arguments and make no call of their own. *)
Theorem throttle_keeps_first interval st now a more t :
  timeoutId st = None ->
  0 < interval - (now - lastTime st) ->
  Forall (heldBack interval (lastTime st)) more ->
  exists st1,
    run (stepThrottled interval) (Call now a :: more) st = (st1, []) /\
    lastTime st1 = lastTime st /\
    throttledTimeout t st1 = (mkThrottled t None, [a]).
Proof.
  intros Hno Hrem Hall.
  set (st0 := mkThrottled (lastTime st)
                (Some (mkTimer (now + (interval - (now - lastTime st))) a))).
  exists st0. cbn [run stepThrottled]. unfold throttled.
  destruct (interval - (now - lastTime st) <=? 0) eqn:E; [apply Z.leb_le in E; lia|].
  rewrite Hno. fold st0.
  rewrite (throttle_waiting interval more st0 _ eq_refl Hall).
  repeat split.
Qed.

Lemma run_app {St} (step : Event Args -> St -> St * list Args) evs1 evs2 st :
  run step (evs1 ++ evs2) st
  = (fst (run step evs2 (fst (run step evs1 st))),
     snd (run step evs1 st) ++ snd (run step evs2 (fst (run step evs1 st)))).
Proof.
  revert st. induction evs1 as [|ev r IH]; intros st; cbn [run app].
  - cbn. destruct (run step evs2 st); reflexivity.
  - destruct (step ev st) as [st1 out]. rewrite IH.
    destruct (run step r st1) as [st2 log]. cbn [fst snd].
    rewrite app_assoc. reflexivity.
Qed.

Lemma run_fst_step {St} (step : Event Args -> St -> St * list Args) ev r st :
  fst (run step (ev :: r) st) = fst (run step r (fst (step ev st))).
Proof.
  cbn [run]. destruct (step ev st) as [st1 out]. cbn [fst].
  destruct (run step r st1); reflexivity.
Qed.

Lemma timely_app {St} (step : Event Args -> St -> St * list Args) pending evs ev :
  forall clock st,
    timely step pending (evs ++ [ev]) clock st = true ->
    timely step pending evs clock st = true /\
    (forall e, e ∈ evs -> timeOf e <= timeOf ev) /\
    clock <= timeOf ev /\
    timely step pending [ev] (timeOf ev) (fst (run step evs st)) = true.
Proof.
  induction evs as [|e r IH]; intros clock st H.
  - cbn [app] in H. cbn [timely] in H.
    apply andb_prop in H as [H _]. apply andb_prop in H as [Hc He].
    apply Z.leb_le in Hc.
    split; [reflexivity|]. split; [intros e0 He0; inversion He0|]. split; [exact Hc|].
    cbn [run fst timely]. rewrite He, Z.leb_refl. reflexivity.
  - cbn [app timely] in H.
    apply andb_prop in H as [H Hr]. apply andb_prop in H as [Hc He].
    apply Z.leb_le in Hc.
    destruct (IH _ _ Hr) as (Hr1 & Hle & Hclk & Hlast).
    split; [cbn [timely]; rewrite Hr1, He; apply Z.leb_le in Hc; rewrite Hc; reflexivity|].
    split.
    + intros e0 He0. apply elem_of_cons in He0 as [->|He0]; [exact Hclk|apply Hle, He0].
    + split; [lia|]. rewrite run_fst_step. exact Hlast.
Qed.

(** What a debounced function is waiting for after some events. *)
Lemma debounce_pending delay (evs : list (Event Args)) :
  forall (st : Debounced Args) (tm : Timer Args),
    fst (run (stepDebounced delay) evs st) = Some tm ->
    (evs = [] /\ st = Some tm) \/
    (exists pre now, evs = pre ++ [Call now (args tm)]
                     /\ due tm = now + Z.max 0 delay).
Proof.
  induction evs as [|ev r IH] using rev_ind; intros st tm H.
  - left. split; [reflexivity|exact H].
  - right. rewrite run_app in H. cbn [fst] in H.
    destruct ev as [now a|now|now]; cbn [run stepDebounced] in H.
    + cbn in H. inversion H; subst tm. exists r, now. split; reflexivity.
    + unfold debouncedTimeout in H.
      destruct (fst (run (stepDebounced delay) r st)); cbn in H; discriminate.
    + cbn in H. discriminate.
Qed.

(** X6.  A debounced function runs only after a quiet time: when its
    timer fires, the event just before was a call, the wrapped function
    is called once, with the arguments of that call, and every call made so
    far lies at least [delay] back. *)
Theorem debounce_quiet delay (evs : list (Event Args)) t :
  timely (stepDebounced delay) id (evs ++ [Timeout t]) 0 debounce = true ->
  exists pre now a,
    evs = pre ++ [Call now a] /\
    snd (run (stepDebounced delay) (evs ++ [Timeout t]) debounce)
    = snd (run (stepDebounced delay) evs debounce) ++ [(t, a)] /\
    fst (run (stepDebounced delay) (evs ++ [Timeout t]) debounce) = None /\
    forall t1 a1, Call t1 a1 ∈ evs -> t1 + delay <= t.
Proof.
  intros H. destruct (timely_app _ _ _ _ _ _ H) as (_ & Hle & _ & Hlast).
  cbn [timely timeOf] in Hlast. unfold id in Hlast.
  destruct (fst (run (stepDebounced delay) evs debounce)) as [tm|] eqn:Est;
    [|rewrite andb_false_r in Hlast; discriminate].
  apply andb_prop in Hlast as [Hlast _]. apply andb_prop in Hlast as [_ Hdue].
  apply Z.leb_le in Hdue.
  destruct (debounce_pending delay evs debounce tm Est) as [[_ Habs]|(pre & now & -> & Hd)];
    [discriminate|].
  exists pre, now, (args tm). split; [reflexivity|].
  rewrite (run_app _ (pre ++ [Call now (args tm)]) [Timeout t]). cbn [fst snd].
  rewrite Est. cbn [run stepDebounced debouncedTimeout map app timeOf fst snd].
  split; [reflexivity|]. split; [reflexivity|].
  intros t1 a1 Hin.
  assert (H1 : t1 <= now).
  { apply elem_of_app in Hin as [Hin|Hin].
    - destruct (timely_app _ _ _ _ _ _
                  (proj1 (timely_app _ _ _ _ _ _ H))) as (_ & Hle' & _).
      apply (Hle' (Call t1 a1) Hin).
    - apply list_elem_of_singleton in Hin. inversion Hin; subst. lia. }
  lia.
Qed.

End Timers.

Lemma throttle_spacing_witness :
  timely (stepThrottled 100) timeoutId
         [Call 1000 "a"; Call 1030 "b"; Call 1060 "c"; Timeout 1100; Call 1150 "d";
          Timeout 1200] 0 throttle = true /\
  spaced string 100 None
    (snd (run (stepThrottled 100)
              [Call 1000 "a"; Call 1030 "b"; Call 1060 "c"; Timeout 1100;
               Call 1150 "d"; Timeout 1200] throttle)).
Proof.
  split; [reflexivity|].
  apply (throttle_spacing string 100). reflexivity.
Defined.

Lemma throttle_keeps_first_witness :
  exists st1,
    run (stepThrottled 100) [Call 1030 "b"; Call 1060 "c"; Call 1090 "d"]
        (mkThrottled 1000 None) = (st1, []) /\
    lastTime st1 = 1000%Z /\
    throttledTimeout 1100 st1 = (mkThrottled 1100%Z None, ["b"]).
Proof.
  apply (throttle_keeps_first string 100 (mkThrottled 1000 None) 1030 "b"
           [Call 1060 "c"; Call 1090 "d"] 1100).
  - reflexivity.
  - cbn. lia.
  - repeat constructor; eexists _, _; (split; [reflexivity|cbn; lia]).
Defined.

Lemma debounce_quiet_witness :
  exists pre now a,
    [Call 10 "a"; Call 40 "b"; Call 70 "c"] = pre ++ [Call now a] /\
    snd (run (stepDebounced 50) ([Call 10 "a"; Call 40 "b"; Call 70 "c"] ++ [Timeout 125])
             debounce)
    = snd (run (stepDebounced 50) [Call 10 "a"; Call 40 "b"; Call 70 "c"] debounce)
      ++ [(125%Z, a)] /\
    fst (run (stepDebounced 50) ([Call 10 "a"; Call 40 "b"; Call 70 "c"] ++ [Timeout 125])
             debounce) = None /\
    forall t1 a1, Call t1 a1 ∈ [Call 10 "a"; Call 40 "b"; Call 70 "c"] ->
                  (t1 + 50 <= 125)%Z.
Proof.
  apply (debounce_quiet string 50 [Call 10 "a"; Call 40 "b"; Call 70 "c"] 125).
  reflexivity.
Defined.

Section Emitter.
Variables Data World Error : Type.
Variable behaviour : Listener -> Data -> World -> World * option Error.

Lemma subscribers_on ls event cb ev :
  subscribers (on event cb ls) ev
  = if bool_decide (ev = event) then setAdd cb (subscribers ls event)
    else subscribers ls ev.
Proof.
  unfold subscribers, on, Listeners in *.
  destruct (ls !! event) as [s|] eqn:E.
  - rewrite E. case_bool_decide as Hev.
    + subst ev. rewrite lookup_insert_eq. reflexivity.
    + rewrite lookup_insert_ne by congruence. reflexivity.
  - rewrite lookup_insert_eq. case_bool_decide as Hev.
    + subst ev. rewrite lookup_insert_eq. reflexivity.
    + rewrite !lookup_insert_ne by congruence. reflexivity.
Qed.

Lemma subscribers_off ls event cb ev :
  subscribers (off event cb ls) ev
  = if bool_decide (ev = event) then setDelete cb (subscribers ls event)
    else subscribers ls ev.
Proof.
  unfold subscribers, off, Listeners in *.
  destruct (ls !! event) as [s|] eqn:E.
  - case_bool_decide as Hev.
    + subst ev. rewrite lookup_insert_eq. reflexivity.
    + rewrite lookup_insert_ne by congruence. reflexivity.
  - case_bool_decide as Hev; [subst ev; rewrite E|]; reflexivity.
Qed.

Lemma subscribers_empty ev : subscribers ∅ ev = [].
Proof. unfold subscribers, Listeners. rewrite lookup_empty. reflexivity. Qed.

Lemma setAdd_elem cb s x : x ∈ setAdd cb s <-> x = cb \/ x ∈ s.
Proof.
  unfold setAdd. case_bool_decide as H.
  - split; [auto|]. intros [->|Hx]; assumption.
  - rewrite elem_of_app, list_elem_of_singleton. tauto.
Qed.

Lemma setAdd_NoDup cb s : NoDup s -> NoDup (setAdd cb s).
Proof.
  intros H. unfold setAdd. case_bool_decide as Hin; [exact H|].
  apply NoDup_app. split; [exact H|]. split.
  - intros x Hx Hx'. apply list_elem_of_singleton in Hx'. subst. contradiction.
  - apply NoDup_singleton.
Qed.

Lemma setDelete_elem cb s x : x ∈ setDelete cb s <-> x <> cb /\ x ∈ s.
Proof. unfold setDelete. rewrite list_elem_of_filter. tauto. Qed.

Lemma setDelete_NoDup cb s : NoDup s -> NoDup (setDelete cb s).
Proof. apply NoDup_filter. Qed.

Lemma after_snoc ops op : after (ops ++ [op]) = apply op (after ops).
Proof. unfold after. rewrite fold_left_app. reflexivity. Qed.

Lemma listening_snoc ops op event cb :
  listening (ops ++ [op]) event cb <->
  op = On event cb \/ (listening ops event cb /\ op <> Off event cb /\ op <> Clear).
Proof.
  split.
  - intros (pre & post & E & Hpost).
    destruct post as [|p post' _] using rev_ind.
    + apply app_inj_tail in E as [_ ->]. left. reflexivity.
    + rewrite app_comm_cons, app_assoc in E. apply app_inj_tail in E as [-> ->].
      right. split.
      * exists pre, post'. split; [reflexivity|].
        intros o Ho. apply Hpost. apply elem_of_app. left. exact Ho.
      * apply Hpost. apply elem_of_app. right. apply list_elem_of_singleton. reflexivity.
  - intros [->|((pre & post & -> & Hpost) & H1 & H2)].
    + exists ops, []. split; [reflexivity|]. intros o Ho. inversion Ho.
    + exists pre, (post ++ [op]). split; [rewrite <- app_assoc; reflexivity|].
      intros o Ho. apply elem_of_app in Ho as [Ho|Ho]; [apply Hpost, Ho|].
      apply list_elem_of_singleton in Ho. subst o. split; assumption.
Qed.

Lemma after_subscribers ops :
  forall event,
    NoDup (subscribers (after ops) event) /\
    forall cb, cb ∈ subscribers (after ops) event <-> listening ops event cb.
Proof.
  induction ops as [|op ops IH] using rev_ind; intros event.
  - unfold after. cbn [fold_left]. rewrite subscribers_empty. split; [apply NoDup_nil_2|].
    intros cb. split; [intros H; inversion H|].
    intros (pre & post & E & _). destruct pre; discriminate.
  - rewrite after_snoc. destruct (IH event) as [Hnd Hiff].
    destruct op as [e c|e c|]; cbn [apply].
    + rewrite subscribers_on. case_bool_decide as He.
      * subst e. split; [apply setAdd_NoDup, Hnd|].
        intros cb. rewrite setAdd_elem, listening_snoc, Hiff.
        split.
        -- intros [->|H]; [left; reflexivity|].
           destruct (decide (cb = c)) as [->|Hne]; [left; reflexivity|].
           right. split; [exact H|]. split; discriminate.
        -- intros [H|[H _]]; [inversion H; subst; left; reflexivity|right; exact H].
      * split; [exact Hnd|]. intros cb. rewrite listening_snoc, Hiff. split.
        -- intros H. right. split; [exact H|]. split; discriminate.
        -- intros [H|[H _]]; [inversion H; subst; contradiction|exact H].
    + rewrite subscribers_off. case_bool_decide as He.
      * subst e. split; [apply setDelete_NoDup, Hnd|].
        intros cb. rewrite setDelete_elem, listening_snoc, Hiff. split.
        -- intros [Hne H]. right. split; [exact H|]. split; [|discriminate].
           intros E. inversion E; subst. contradiction.
        -- intros [H|[H [Hoff _]]]; [discriminate|]. split; [|exact H].
           intros ->. apply Hoff. reflexivity.
      * split; [exact Hnd|]. intros cb. rewrite listening_snoc, Hiff. split.
        -- intros H. right. split; [exact H|]. split; [|discriminate].
           intros E. inversion E; subst. contradiction.
        -- intros [H|[H _]]; [discriminate|exact H].
    + unfold clear. rewrite subscribers_empty.
      split; [apply NoDup_nil_2|]. intros cb. rewrite listening_snoc. split.
      * intros H; inversion H.
      * intros [H|[_ [_ H]]]; [discriminate|contradiction].
Qed.

Lemma deliver_all data s :
  forall o,
    calls (fold_left (fun acc cb => deliver behaviour data cb acc) s o)
    = calls o ++ map (fun cb => (cb, data)) s /\
    length (consoleErrors o)
    <= length (consoleErrors (fold_left (fun acc cb => deliver behaviour data cb acc) s o))
    <= length (consoleErrors o) + length s.
Proof.
  induction s as [|cb r IH]; intros o; cbn [fold_left map].
  - rewrite app_nil_r. cbn. split; [reflexivity|lia].
  - destruct (IH (deliver behaviour data cb o)) as [Hc He]. rewrite Hc.
    unfold deliver in *. destruct (behaviour cb data (world o)) as [w [e|]];
      cbn [calls consoleErrors] in *; rewrite <- app_assoc; cbn [app];
      (split; [reflexivity|]); try rewrite length_app in He; cbn [length] in *; lia.
Qed.

(** X7.  An emitter calls, for an event, exactly the listeners whose
    latest registration for that event has not been taken back by [off]
    or by [clear]: each of them once, however often it was registered,
    and all of them even when some throw (an exception goes to the console
    and the next listener is called). *)
Theorem emit_delivers ops event data o :
  calls (emit behaviour event data (after ops) o)
  = calls o ++ map (fun cb => (cb, data)) (subscribers (after ops) event) /\
  NoDup (subscribers (after ops) event) /\
  forall cb, cb ∈ subscribers (after ops) event <-> listening ops event cb.
Proof.
  split; [|apply after_subscribers].
  unfold emit, subscribers. destruct (after ops !! event) as [s|]; cbn [default map].
  - apply deliver_all.
  - rewrite app_nil_r. reflexivity.
Qed.

End Emitter.

Section Perf.
Variable Time : Type.
Variable minus : Time -> Time -> Time.
Variable zero : Time.
#[local] Abbreviation samplesOf := (Schedules.samplesOf Time).
#[local] Abbreviation windowed := (Schedules.windowed Time).

Lemma windowed_samplesOf st name : windowed st -> length (samplesOf st name) <= 100.
Proof.
  intros H. unfold samplesOf. destruct (samples st !! name) as [l|] eqn:E; cbn; [|lia].
  apply (H _ _ E).
Qed.

Lemma callEnd_samples name start now st :
  samples (snd (callEnd Time minus zero (Stop name start) now st))
  = <[name := let pushed := samplesOf st name ++ [minus now start] in
              if 100 <? length pushed then tail pushed else pushed]>
      (samples st).
Proof.
  unfold callEnd, samplesOf. cbn [snd].
  destruct (samples st !! name) as [l|] eqn:E; cbn [samples enabled].
  - rewrite E. reflexivity.
  - rewrite lookup_insert_eq. cbn [default]. rewrite insert_insert_eq. reflexivity.
Qed.

Lemma windowed_apply op st :
  windowed st -> windowed (perfApply Time minus zero op st).
Proof.
  intros H. destruct op as [e|e now|]; cbn [perfApply].
  - unfold setPerfEnabled. destruct e; cbn [negb]; [exact H|].
    intros name l Hl. cbn in Hl. rewrite lookup_empty in Hl. discriminate.
  - destruct e as [|name start]; [exact H|].
    intros n l Hl. rewrite callEnd_samples in Hl.
    destruct (decide (n = name)) as [->|Hne].
    + rewrite lookup_insert_eq in Hl. inversion Hl; subst l; clear Hl.
      pose proof (windowed_samplesOf st name H) as Hw.
      rewrite length_app. cbn [length].
      destruct (Nat.ltb_spec 100 (length (samplesOf st name) + 1)) as [Hlt|Hge].
      * destruct (samplesOf st name) as [|x r]; cbn in *; [lia|].
        rewrite length_app. cbn. lia.
      * rewrite length_app. cbn. lia.
    + rewrite lookup_insert_ne in Hl by congruence. apply (H _ _ Hl).
  - intros name l Hl. cbn in Hl. rewrite lookup_empty in Hl. discriminate.
Qed.

Lemma windowed_after ops : windowed (perfAfter Time minus zero ops).
Proof.
  unfold perfAfter.
  assert (G : forall st, windowed st ->
                         windowed (fold_left (fun st op => perfApply Time minus zero op st)
                                             ops st)).
  { induction ops as [|op r IH]; intros st H; [exact H|].
    cbn [fold_left]. apply IH, windowed_apply, H. }
  apply G. intros name l Hl. cbn in Hl. rewrite lookup_empty in Hl. discriminate.
Qed.

(** X8.  The store never holds more than 100 samples for a name, and no
    empty list: whatever calls were made before, ending a measurement
    appends its duration to the samples of its name and, when that makes
    101, drops the oldest one, so that what is kept are the latest
    durations in the order they were measured. *)
Theorem perf_window ops name start now :
  let st := perfAfter Time minus zero ops in
  let st' := snd (callEnd Time minus zero (Stop name start) now st) in
  (forall n l, samples st' !! n = Some l -> 1 <= length l <= 100) /\
  samplesOf st' name
  = drop (length (samplesOf st name) + 1 - 100)
         (samplesOf st name ++ [minus now start]) /\
  forall n, n <> name -> samplesOf st' n = samplesOf st n.
Proof.
  intros st st'.
  pose proof (windowed_after ops) as Hw. fold st in Hw.
  split; [apply (windowed_apply (Ended Time (Stop name start) now) st Hw)|].
  unfold st'. split.
  - unfold samplesOf at 1. rewrite callEnd_samples, lookup_insert_eq. cbn [default].
    pose proof (windowed_samplesOf st name Hw) as Hlen.
    rewrite length_app. cbn [length].
    destruct (Nat.ltb_spec 100 (length (samplesOf st name) + 1)) as [Hlt|Hge].
    + replace (length (samplesOf st name) + 1 - 100) with 1 by lia.
      destruct (samplesOf st name); reflexivity.
    + replace (length (samplesOf st name) + 1 - 100) with 0 by lia. reflexivity.
  - intros n Hn. unfold samplesOf. rewrite callEnd_samples.
    rewrite lookup_insert_ne by congruence. reflexivity.
Qed.

(** X9.  A measurement is recorded or not by what the switch said when it
    began.  One begun while tracking was off records nothing, even if
    tracking is on when it ends.  One begun while tracking was on is
    recorded even if tracking was switched off, and the store emptied, in
    the meantime: the store then holds that one sample while tracking is
    off. *)
Theorem perf_switch name t0 t1 (st st' : PerfMetrics Time) :
  (enabled st = false ->
   callEnd Time minus zero (perfStart Time name t0 st) t1 st' = (zero, st')) /\
  (enabled st = true ->
   callEnd Time minus zero (perfStart Time name t0 st) t1
           (setPerfEnabled Time false st')
   = (minus t1 t0, mkPerf false {[name := [minus t1 t0]]})).
Proof.
  split; intros H; unfold perfStart; rewrite H; cbn [negb].
  - reflexivity.
  - unfold callEnd, setPerfEnabled. cbn [negb samples enabled].
    rewrite lookup_empty. cbn [samples enabled]. rewrite lookup_insert_eq. cbn [default app].
    cbn. rewrite insert_insert_eq. reflexivity.
Qed.

End Perf.

End UtilFacts.

Module PageFacts.
Import Js Dom Css Document PageSelectors.
Import Selectors (RedditVersion, Old, New).

(** The two ways of lowering a name agree on plain ASCII names. *)
Lemma lower_char c :
  lower_ascii c = asciiLower c
  \/ (128 <= nat_of_ascii (lower_ascii c) /\ 128 <= nat_of_ascii (asciiLower c)).
Proof.
  destruct c as [[] [] [] [] [] [] [] []]; vm_compute;
    first [left; reflexivity | right; split; lia].
Qed.

Lemma lower_plain s :
  forall t, plain t -> String.eqb (toLowerCase s) t = String.eqb (asciiLowerCase s) t.
Proof.
  induction s as [|c r IH]; intros [|c' t] Ht; try reflexivity.
  destruct Ht as [Hc Ht]. cbn [toLowerCase asciiLowerCase String.eqb].
  rewrite (IH t Ht).
  destruct (lower_char c) as [->|[H1 H2]]; [reflexivity|].
  destruct (Ascii.eqb_spec (lower_ascii c) c') as [E1|_];
    [subst c'; lia|].
  destruct (Ascii.eqb_spec (asciiLower c) c') as [E2|_];
    [subst c'; lia|]. reflexivity.
Qed.

(** On the selectors [Dom.closest] knows, both ways of matching agree. *)
Lemma matches_ofSimple scope x sel :
  matches scope x (map ofSimple sel) = Dom.matches (self x) sel.
Proof.
  unfold matches, Dom.matches. induction sel as [|s r IH]; [reflexivity|].
  cbn [map existsb]. rewrite IH. f_equal.
  destruct s; unfold matchesComplex, ofSimple, one, matchesCompound; cbn;
    rewrite !andb_true_r; reflexivity.
Qed.

Lemma closestFrom_find scope sel up :
  forall d,
    closestFrom d up sel
    = List.find (fun x => matches scope x (map ofSimple sel))
                (mkElement d up :: handles up).
Proof.
  induction up as [|p up' IH]; intros d;
    cbn [handles List.find closestFrom]; rewrite matches_ofSimple; cbn [self].
  - reflexivity.
  - destruct (Dom.matches d sel); [reflexivity|].
    rewrite IH. reflexivity.
Qed.

Lemma closest_ofSimple e sel : closest e (map ofSimple sel) = Dom.closest e sel.
Proof.
  unfold closest, Dom.closest. destruct e as [d up]. cbn [self ancestors].
  symmetry. apply closestFrom_find.
Qed.

Lemma old_comment_selector scope e :
  matches scope e [one [Class "thing"; Class "comment"]]
  = Selectors.OldReddit.isCommentData (self e).
Proof.
  unfold matches, matchesComplex, one, matchesCompound, Selectors.OldReddit.isCommentData.
  cbn. rewrite !andb_true_r, orb_false_r. reflexivity.
Qed.

Lemma tag_selector scope e name :
  matches scope e [one [Tag name]] = String.eqb (asciiLowerCase (tagName (self e))) name.
Proof.
  unfold matches, matchesComplex, one, matchesCompound.
  cbn. rewrite !andb_true_r, orb_false_r. reflexivity.
Qed.

Lemma attr_selector scope e name value :
  matches scope e [one [AttrIs name value]]
  = bool_decide (getAttribute (self e) name = Some value).
Proof.
  unfold matches, matchesComplex, one, matchesCompound.
  cbn. rewrite !andb_true_r, orb_false_r. reflexivity.
Qed.

Lemma new_comment_data e :
  Selectors.NewReddit.isCommentData (self e)
  = matches None e [one [Tag "shreddit-comment"]]
    || matches None e [one [AttrIs "data-testid" "comment"]].
Proof.
  rewrite tag_selector, attr_selector. unfold Selectors.NewReddit.isCommentData.
  rewrite lower_plain; [reflexivity|].
  cbn [plain]. repeat (split; [apply Nat.ltb_lt; vm_compute; reflexivity|]). exact I.
Qed.

Lemma querySelectorAll_elem doc sel e :
  e ∈ querySelectorAll doc sel <-> e ∈ elements doc /\ matches None e sel = true.
Proof.
  unfold querySelectorAll. rewrite !list_elem_of_In. apply List.filter_In.
Qed.

(** X10.  In the first layout [getAllCommentThings] returns exactly the
    elements of the page that [isCommentThing] accepts.  In the second
    layout it returns only such elements, but it can leave some out: an
    element that [isCommentThing] accepts for its [data-testid] alone is
    left out whenever the page has a [shreddit-comment] element. *)
Theorem comments_listed doc e :
  (e ∈ OldReddit.getAllCommentThings doc <->
   e ∈ elements doc /\ Selectors.isCommentThing Old (JsElem e) = true) /\
  (e ∈ NewReddit.getAllCommentThings doc ->
   e ∈ elements doc /\ Selectors.isCommentThing New (JsElem e) = true) /\
  (e ∈ elements doc -> Selectors.isCommentThing New (JsElem e) = true ->
   e ∉ NewReddit.getAllCommentThings doc ->
   asciiLowerCase (tagName (self e)) <> "shreddit-comment" /\
   exists e', e' ∈ elements doc /\ asciiLowerCase (tagName (self e')) = "shreddit-comment").
Proof.
  cbn [Selectors.isCommentThing Selectors.OldReddit.isCommentThing
       Selectors.NewReddit.isCommentThing].
  split; [|split].
  - unfold OldReddit.getAllCommentThings.
    rewrite querySelectorAll_elem, old_comment_selector. reflexivity.
  - unfold NewReddit.getAllCommentThings. rewrite new_comment_data.
    destruct (0 <? length (querySelectorAll doc [one [Tag "shreddit-comment"]]));
      rewrite querySelectorAll_elem; intros [H1 H2]; (split; [exact H1|]);
      rewrite H2; [reflexivity|apply orb_true_r].
  - intros Hin Hc Hout. rewrite new_comment_data in Hc.
    unfold NewReddit.getAllCommentThings in Hout.
    destruct (querySelectorAll doc [one [Tag "shreddit-comment"]]) as [|e' r] eqn:Hq;
      cbn [length Nat.ltb Nat.leb] in Hout.
    + exfalso. apply Hout. apply querySelectorAll_elem. split; [exact Hin|].
      apply orb_true_iff in Hc as [Hc|Hc]; [|exact Hc].
      assert (He : e ∈ querySelectorAll doc [one [Tag "shreddit-comment"]])
        by (apply querySelectorAll_elem; auto).
      rewrite Hq in He. inversion He.
    + split.
      * intros Ht. apply Hout. rewrite <- Hq. apply querySelectorAll_elem.
        split; [exact Hin|]. rewrite tag_selector, Ht. reflexivity.
      * assert (He : e' ∈ querySelectorAll doc [one [Tag "shreddit-comment"]])
          by (rewrite Hq; left).
        apply querySelectorAll_elem in He as [H1 H2]. rewrite tag_selector in H2.
        exists e'. split; [exact H1|]. apply String.eqb_eq, H2.
Qed.

Lemma find_is_Some {A} (f : A -> bool) l x :
  x ∈ l -> f x = true -> is_Some (List.find f l).
Proof.
  induction l as [|a r IH]; intros Hx Hf; [inversion Hx|].
  cbn [List.find]. destruct (f a) eqn:Ha; [eauto|].
  apply elem_of_cons in Hx as [->|Hx]; [congruence|]. apply IH; assumption.
Qed.

(** X11.  The first answer of [detectRedditVersion] is final: it is
    remembered, and every later call returns it whatever the page has
    become.  For the first answer the signs of the first layout come
    first: a page with an element that the first layout classifies as a
    comment is taken for the first layout even when it has
    [shreddit-comment] elements as well. *)
Theorem version_detected_once doc memo :
  snd (detectRedditVersion doc memo) = Some (fst (detectRedditVersion doc memo)) /\
  (forall doc', detectRedditVersion doc' (snd (detectRedditVersion doc memo))
                = detectRedditVersion doc memo) /\
  (forall v, memo = Some v -> fst (detectRedditVersion doc memo) = v) /\
  (memo = None ->
   (exists e, e ∈ elements doc /\ Selectors.isCommentThing Old (JsElem e) = true) ->
   fst (detectRedditVersion doc memo) = Old).
Proof.
  assert (Hfix : snd (detectRedditVersion doc memo)
                 = Some (fst (detectRedditVersion doc memo))).
  { unfold detectRedditVersion. destruct memo as [v|]; [reflexivity|].
    repeat match goal with
           | |- context [if ?b then _ else _] => destruct b
           end; reflexivity. }
  split; [exact Hfix|]. split; [|split].
  - intros doc'. rewrite Hfix. cbn [detectRedditVersion].
    rewrite <- Hfix. destruct (detectRedditVersion doc memo); reflexivity.
  - intros v ->. reflexivity.
  - intros -> (e & Hin & Hc). cbn [Selectors.isCommentThing
      Selectors.OldReddit.isCommentThing] in Hc.
    unfold detectRedditVersion.
    rewrite (bool_decide_eq_true_2
               (is_Some (querySelector doc [one [Class "thing"; Class "comment"]]))).
    + reflexivity.
    + unfold querySelector. apply (find_is_Some _ _ e Hin).
      rewrite old_comment_selector. exact Hc.
Qed.

(** A descendant step that matches names an ancestor that matches. *)
Lemma descendant_step scope c up :
  matchesContext scope [(Descendant, c)] up = true ->
  exists x, x ∈ handles up /\ matchesCompound scope x c = true.
Proof.
  cbn [matchesContext]. induction up as [|p up' IH]; [discriminate|].
  rewrite andb_true_r. intros H. apply orb_true_iff in H as [H|H].
  - exists (mkElement p up'). split; [left|exact H].
  - destruct (IH H) as (x & Hx & Hm). exists x. split; [right; exact Hx|exact Hm].
Qed.

Lemma inside_class scope e c sub :
  matchesComplex scope e (inside [[Class c]] sub) = true ->
  exists x, x ∈ handles (ancestors e) /\ hasClass (self x) c = true.
Proof.
  unfold matchesComplex, inside. cbn [subject context map rev app].
  intros H. apply andb_true_iff in H as [_ H].
  destruct (descendant_step _ _ _ H) as (x & Hx & Hc).
  exists x. split; [exact Hx|].
  unfold matchesCompound in Hc. cbn in Hc. rewrite andb_true_r in Hc. exact Hc.
Qed.

Lemma either_class scope x a b :
  matches scope x [one [Class a]; one [Class b]]
  = hasClass (self x) a || hasClass (self x) b.
Proof.
  unfold matches, matchesComplex, one, matchesCompound. cbn.
  rewrite !andb_true_r, orb_false_r. reflexivity.
Qed.

Lemma closest_is_Some e sel x :
  x ∈ e :: handles (ancestors e) -> matches (Some e) x sel = true ->
  is_Some (closest e sel).
Proof. intros Hx Hm. unfold closest. apply (find_is_Some _ _ x Hx Hm). Qed.

(** X12.  The two ways of recognising a "load more comments" control
    agree in the first layout: every element that [getAllMoreComments]
    returns is accepted by [isMoreCommentsLink].  In the second layout they
    agree except for the elements found by their [slot] attribute alone,
    which [getAllMoreComments] returns and [isMoreCommentsLink] may
    refuse. *)
Theorem more_comments_agree doc e :
  (e ∈ getAllMoreComments Old doc -> isMoreCommentsLink Old (JsElem e) = true) /\
  (e ∈ getAllMoreComments New doc ->
   isMoreCommentsLink New (JsElem e) = true
   \/ getAttribute (self e) "slot" = Some "more-comments-permalink").
Proof.
  split.
  - unfold getAllMoreComments. rewrite querySelectorAll_elem. intros [_ Hm].
    cbn [isMoreCommentsLink]. apply bool_decide_eq_true.
    unfold matches in Hm. cbn [existsb] in Hm. rewrite orb_false_r in Hm.
    apply orb_true_iff in Hm as [Hm|Hm];
      destruct (inside_class _ _ _ _ Hm) as (x & Hx & Hc);
      apply (closest_is_Some e _ x); try (right; exact Hx);
      rewrite either_class, Hc; [reflexivity|apply orb_true_r].
  - unfold getAllMoreComments. rewrite querySelectorAll_elem. intros [_ Hm].
    unfold matches in Hm. cbn [existsb] in Hm. rewrite orb_false_r in Hm.
    apply orb_true_iff in Hm as [Hm|Hm]; [|apply orb_true_iff in Hm as [Hm|Hm]].
    + left. cbn [isMoreCommentsLink]. apply orb_true_iff. left.
      unfold elMatches, matches. cbn [existsb]. rewrite orb_false_r.
      exact Hm.
    + left. cbn [isMoreCommentsLink]. apply orb_true_iff. right.
      apply bool_decide_eq_true. apply (closest_is_Some e _ e); [left|].
      unfold matches. cbn [existsb]. rewrite orb_false_r. exact Hm.
    + right. unfold matchesComplex, one, matchesCompound in Hm. cbn in Hm.
      rewrite !andb_true_r in Hm. apply bool_decide_eq_true in Hm. exact Hm.
Qed.

(** X13.  Comment metadata is read from the page once.  When
    [getCommentMeta] has returned metadata for an element, that is a
    classified comment, the metadata is in the cache, and every later call
    for the element returns the same metadata without looking at the page,
    whatever the contents of the page have become.  The answer is null
    for what is not a classified comment and, in the first layout, for a
    comment with nothing cached and no [.entry] child; in no other case.
    An answer of null is not remembered: the cache is left as it was. *)
Theorem meta_read_once ver doc cache v :
  (forall m cache',
     getCommentMeta ver doc cache v = (Some m, cache') ->
     (exists e, v = JsElem e /\ Selectors.isCommentThing ver v = true /\
                cache' !! e = Some m) /\
     (forall doc', getCommentMeta ver doc' cache' v = (Some m, cache'))) /\
  (fst (getCommentMeta ver doc cache v) = None <->
   Selectors.isCommentThing ver v = false
   \/ (ver = Old /\
       exists e, v = JsElem e /\ cache !! e = None /\
                 querySelectorIn doc e [mkComplex [Class "entry"] [(Child, [Scope])]]
                 = None)) /\
  (forall cache', getCommentMeta ver doc cache v = (None, cache') -> cache' = cache).
Proof.
  destruct ver; cbn [getCommentMeta];
    (split; [intros m cache' H|split; [|intros cache' H]]).
  - unfold OldReddit.getCommentMeta in *.
    destruct v as [| | | |e]; try discriminate.
    cbn [Selectors.isCommentThing Selectors.OldReddit.isCommentThing].
    destruct (Selectors.OldReddit.isCommentData (self e)) eqn:Hc; cbn [negb] in *;
      [|discriminate].
    assert (Hin : cache' !! e = Some m).
    { destruct (cache !! e) as [cached|] eqn:Hca.
      - inversion H; subst. exact Hca.
      - destruct (querySelectorIn doc e _); [|discriminate].
        inversion H; subst. apply lookup_insert_eq. }
    split; [exists e; auto|].
    intros doc'. rewrite Hin. reflexivity.
  - unfold OldReddit.getCommentMeta.
    destruct v as [| | | |e];
      cbn [Selectors.isCommentThing Selectors.OldReddit.isCommentThing fst];
      try (split; [intros _; left; reflexivity|reflexivity]).
    destruct (Selectors.OldReddit.isCommentData (self e)) eqn:Hc; cbn [negb];
      [|split; [intros _; left; reflexivity|reflexivity]].
    destruct (cache !! e) as [cached|] eqn:Hca; cbn [fst].
    + split; [discriminate|].
      intros [Hf|(_ & e' & He & Hn & _)]; [discriminate|].
      inversion He; subst e'. congruence.
    + destruct (querySelectorIn doc e _) as [entry|] eqn:Hq; cbn [fst].
      * split; [discriminate|].
        intros [Hf|(_ & e' & He & _ & Hn)]; [discriminate|].
        inversion He; subst e'. congruence.
      * split; [|reflexivity]. intros _. right. split; [reflexivity|].
        exists e. auto.
  - unfold OldReddit.getCommentMeta in *.
    destruct v as [| | | |e]; try (inversion H; reflexivity).
    destruct (Selectors.OldReddit.isCommentData (self e)); cbn [negb] in *;
      [|inversion H; reflexivity].
    destruct (cache !! e); [discriminate|].
    destruct (querySelectorIn doc e _); [discriminate|]. inversion H; reflexivity.
  - unfold NewReddit.getCommentMeta in *.
    destruct v as [| | | |e]; try discriminate.
    cbn [Selectors.isCommentThing Selectors.NewReddit.isCommentThing].
    destruct (Selectors.NewReddit.isCommentData (self e)) eqn:Hc; cbn [negb] in *;
      [|discriminate].
    assert (Hin : cache' !! e = Some m).
    { destruct (cache !! e) as [cached|] eqn:Hca.
      - inversion H; subst. exact Hca.
      - inversion H; subst. apply lookup_insert_eq. }
    split; [exists e; auto|].
    intros doc'. rewrite Hin. reflexivity.
  - unfold NewReddit.getCommentMeta.
    destruct v as [| | | |e];
      cbn [Selectors.isCommentThing Selectors.NewReddit.isCommentThing fst];
      try (split; [intros _; left; reflexivity|reflexivity]).
    destruct (Selectors.NewReddit.isCommentData (self e)) eqn:Hc; cbn [negb];
      [|split; [intros _; left; reflexivity|reflexivity]].
    destruct (cache !! e) as [cached|]; cbn [fst];
      (split; [discriminate|]);
      (intros [Hf|(Hf & _)]; discriminate).
  - unfold NewReddit.getCommentMeta in *.
    destruct v as [| | | |e]; try (inversion H; reflexivity).
    destruct (Selectors.NewReddit.isCommentData (self e)); cbn [negb] in *;
      [|inversion H; reflexivity].
    destruct (cache !! e); discriminate.
Qed.

End PageFacts.

Module ThreadFacts.
Import Js Dom Ancestors Chains Threads SelectorsFacts AncestorsFacts.

#[local] Arguments alloc : simpl never.
#[local] Arguments sliceCopy : simpl never.

Section Layout.
Variable ver : Selectors.RedditVersion.
#[local] Abbreviation nearest := (Threads.nearest ver).

(** The answers of ancestors.js on caches that agree with the page. *)
Lemma answers fuel st v :
  coherent ver st -> rank v <= fuel ->
  chainElements ver fuel st v = Some (chainOfValue ver v) /\
  (exists st', getDepth ver fuel st v
               = Some (Z.max 0 (Z.of_nat (length (chainOfValue ver v)) - 1), st')) /\
  (exists st', getTopLevelAncestor ver fuel st v
               = Some (head (chainOfValue ver v), st')).
Proof.
  intros Hco Hr.
  destruct (computeAncestors_spec ver fuel st v Hco Hr) as (r & st' & E & _ & A & _).
  pose proof (arrayAt_lookup _ _ _ A) as B.
  unfold chainElements, getDepth, getTopLevelAncestor. rewrite E, B, top_head.
  split; [reflexivity|]. split; eexists; reflexivity.
Qed.

Lemma nearest_value fuel st a b :
  coherent ver st -> rank a <= fuel -> rank b <= fuel ->
  exists st',
    findCommonAncestor ver fuel st a b
    = Some (scanDown (list_to_set (chainOfValue ver a)) (chainOfValue ver b)
                     (length (chainOfValue ver b)), st').
Proof.
  intros Hco Ha Hb.
  destruct (computeAncestors_spec ver fuel st a Hco Ha)
    as (r1 & st1 & E1 & F1 & A1 & Co1 & N1 & X1 & G1).
  destruct (computeAncestors_spec ver fuel st1 b Co1 Hb)
    as (r2 & st2 & E2 & F2 & A2 & Co2 & N2 & X2 & G2).
  pose proof (arrayAt_lookup _ _ _ (X2 _ _ A1)) as B1.
  pose proof (arrayAt_lookup _ _ _ A2) as B2.
  exists st2. unfold findCommonAncestor. rewrite E1, E2, B1, B2. reflexivity.
Qed.

(** X14.  A reply is one level deeper than its parent: on caches that agree
    with the page, the chain of a comment with a parent comment is the
    chain of the parent followed by the comment, its depth is the parent's
    depth plus one, and both have the same top-level ancestor.  A comment
    without a parent comment has the chain that holds just itself, depth
    0, and is its own top-level ancestor. *)
Theorem reply_extends_parent fuel st e :
  coherent ver st -> rank (JsElem e) <= fuel ->
  Selectors.isCommentData ver (self e) = true ->
  match Selectors.getParentThing ver (JsElem e) with
  | Some p =>
      exists cp dp top st1 st2 st3 st4,
        chainElements ver fuel st (JsElem p) = Some cp /\
        chainElements ver fuel st (JsElem e) = Some (cp ++ [e]) /\
        getDepth ver fuel st (JsElem p) = Some (dp, st1) /\
        getDepth ver fuel st (JsElem e) = Some ((dp + 1)%Z, st2) /\
        getTopLevelAncestor ver fuel st (JsElem p) = Some (Some top, st3) /\
        getTopLevelAncestor ver fuel st (JsElem e) = Some (Some top, st4)
  | None =>
      exists st2 st4,
        chainElements ver fuel st (JsElem e) = Some [e] /\
        getDepth ver fuel st (JsElem e) = Some (0%Z, st2) /\
        getTopLevelAncestor ver fuel st (JsElem e) = Some (Some e, st4)
  end.
Proof.
  intros Hco Hr He.
  destruct (answers fuel st (JsElem e) Hco Hr) as (C & [st2 D] & [st4 T]).
  cbn [chainOfValue] in C, D, T. rewrite He in C, D, T.
  pose proof (chainOf_unfold ver e) as Hu.
  destruct (Selectors.getParentThing ver (JsElem e)) as [p|] eqn:Hp.
  - destruct (getParentThing_spec _ _ _ Hp) as [Hpc _].
    pose proof (getParentThing_strict _ _ _ Hp) as Hlt.
    assert (Hrp : rank (JsElem p) <= fuel) by (simpl in *; lia).
    destruct (answers fuel st (JsElem p) Hco Hrp) as (Cp & [st1 Dp] & [st3 Tp]).
    cbn [chainOfValue] in Cp, Dp, Tp. rewrite Hpc in Cp, Dp, Tp.
    pose proof (chainOf_nonempty ver p) as Hne.
    destruct (chainOf ver p) as [|top rest] eqn:Ecp; [congruence|].
    rewrite Hu in C, D, T.
    exists (top :: rest), (Z.max 0 (Z.of_nat (length (top :: rest)) - 1)), top,
      st1, st2, st3, st4.
    split; [exact Cp|]. split; [exact C|]. split; [exact Dp|].
    split; [|split; [exact Tp|exact T]].
    rewrite D. f_equal. f_equal. rewrite length_app. cbn [length]. lia.
  - rewrite Hu in C, D, T. exists st2, st4. auto.
Qed.

(** The members of a comment's chain are comments. *)
Lemma chainOf_comments e :
  Selectors.isCommentData ver (self e) = true ->
  forall x, x ∈ chainOf ver e -> Selectors.isCommentData ver (self x) = true.
Proof.
  induction e as [e IH] using (chain_ind ver). intros He x.
  rewrite (chainOf_unfold ver e).
  destruct (Selectors.getParentThing ver (JsElem e)) as [p|] eqn:Hp.
  - rewrite elem_of_app, list_elem_of_singleton. intros [Hx| ->]; [|exact He].
    destruct (getParentThing_spec _ _ _ Hp) as [Hpc _].
    apply (IH p eq_refl Hpc x Hx).
  - rewrite list_elem_of_singleton. intros ->. exact He.
Qed.

Lemma split_twice (l : list Element) pre x s pre' y s' :
  NoDup l -> l = pre ++ x :: s -> l = pre' ++ y :: s' -> y ∈ pre -> x ∈ pre' -> False.
Proof.
  intros Hnd H1 H2 Hy Hx.
  apply list_elem_of_split in Hy as (p1 & p2 & ->).
  rewrite <- app_assoc in H1. cbn [app] in H1.
  rewrite H1 in Hnd, H2.
  destruct (NoDup_split_unique _ _ _ _ _ Hnd H2) as [<- _].
  apply NoDup_app in Hnd as (_ & Hdis & _).
  apply (Hdis x Hx). right. rewrite elem_of_app, elem_of_cons. auto.
Qed.

Lemma nearest_sym a b : nearest a b = nearest b a.
Proof.
  assert (G : forall a b x, nearest a b = Some x -> nearest b a = Some x).
  { clear a b. intros a b x Hab.
    destruct (scan_nearest ver a b x Hab) as (Hxa & Hxb & pre & s1 & s2 & Ha & Hb & Hdis).
    destruct (nearest b a) as [y|] eqn:Hba.
    - destruct (scan_nearest ver b a y Hba)
        as (Hyb & Hya & pre' & s1' & s2' & Hb' & Ha' & Hdis').
      destruct (decide (y = x)) as [->|Hne]; [reflexivity|]. exfalso.
      pose proof (chainOfValue_NoDup ver a) as Hnda.
      pose proof (chainOfValue_NoDup ver b) as Hndb.
      assert (Hy : y ∈ pre).
      { pose proof Hya as Hya2. pose proof Hyb as Hyb2.
        rewrite Ha in Hya2. rewrite Hb in Hyb2.
        rewrite elem_of_app, elem_of_cons in Hya2, Hyb2.
        destruct Hya2 as [?|[?|Hs1]]; [assumption|contradiction|].
        destruct Hyb2 as [?|[?|Hs2]]; [assumption|contradiction|].
        exfalso. exact (Hdis y Hs1 Hs2). }
      assert (Hx : x ∈ pre').
      { pose proof Hxa as Hxa2. pose proof Hxb as Hxb2.
        rewrite Ha' in Hxa2. rewrite Hb' in Hxb2.
        rewrite elem_of_app, elem_of_cons in Hxa2, Hxb2.
        destruct Hxb2 as [?|[?|Hs1]]; [assumption|congruence|].
        destruct Hxa2 as [?|[?|Hs2]]; [assumption|congruence|].
        exfalso. exact (Hdis' x Hs1 Hs2). }
      exact (split_twice _ _ _ _ _ _ _ Hnda Ha Ha' Hy Hx).
    - exfalso. exact (scan_none ver b a Hba x Hxb Hxa). }
  destruct (nearest a b) as [x|] eqn:Hab.
  - symmetry. apply G, Hab.
  - destruct (nearest b a) as [y|] eqn:Hba; [|reflexivity].
    apply G in Hba. congruence.
Qed.

Lemma nearest_member e x :
  Selectors.isCommentData ver (self e) = true ->
  x ∈ chainOf ver e -> nearest (JsElem e) (JsElem x) = Some x.
Proof.
  intros He Hx. unfold nearest. cbn [chainOfValue].
  rewrite He, (chainOf_comments e He x Hx).
  pose proof (chainOf_last ver x) as Hl. apply last_Some in Hl as [init Hinit].
  rewrite Hinit, length_app. cbn [length].
  replace (length init + 1) with (S (length init)) by lia.
  cbn [scanDown].
  rewrite lookup_app_r by lia. rewrite Nat.sub_diag. cbn [lookup list_lookup].
  rewrite bool_decide_eq_true_2; [reflexivity|].
  apply elem_of_list_to_set. exact Hx.
Qed.

(** X15.  On caches that agree with the page the order of the two
    arguments of [findCommonAncestor] does not matter for the element it
    returns, and for a comment and a member of its own chain (the comment
    itself or one of its ancestors) it returns that member. *)
Theorem common_ancestor_symmetric fuel st a b :
  coherent ver st -> rank a <= fuel -> rank b <= fuel ->
  (exists res st1 st2,
     findCommonAncestor ver fuel st a b = Some (res, st1) /\
     findCommonAncestor ver fuel st b a = Some (res, st2)) /\
  (forall e x, a = JsElem e -> b = JsElem x ->
     Selectors.isCommentData ver (self e) = true -> x ∈ chainOf ver e ->
     exists st1, findCommonAncestor ver fuel st a b = Some (Some x, st1)).
Proof.
  intros Hco Ha Hb.
  destruct (nearest_value fuel st a b Hco Ha Hb) as [st1 E1].
  destruct (nearest_value fuel st b a Hco Hb Ha) as [st2 E2].
  split.
  - exists (nearest a b), st1, st2. split; [exact E1|].
    rewrite E2. fold (nearest b a). rewrite (nearest_sym b a). reflexivity.
  - intros e x -> -> He Hx. exists st1. rewrite E1. fold (nearest (JsElem e) (JsElem x)).
    rewrite (nearest_member e x He Hx). reflexivity.
Qed.

(** X16.  [invalidate] forgets the two entries of the element it is given
    and nothing else: the entries of every other element, its descendants
    among them, stay, and a chain that is still cached is served from the
    cache without another look at the page.  On caches that agree with
    the page it changes no answer. *)
Theorem invalidate_forgets_one fuel st e :
  parentCache (invalidate st (JsElem e)) !! e = None /\
  chainCache (invalidate st (JsElem e)) !! e = None /\
  (forall d, d <> e ->
     parentCache (invalidate st (JsElem e)) !! d = parentCache st !! d /\
     chainCache (invalidate st (JsElem e)) !! d = chainCache st !! d) /\
  (forall d r, d <> e -> Selectors.isCommentData ver (self d) = true ->
     chainCache st !! d = Some r ->
     chainElements ver fuel (invalidate st (JsElem e)) (JsElem d) = Some (arrayAt st r)) /\
  (forall v, coherent ver st -> rank v <= fuel ->
     chainElements ver fuel (invalidate st (JsElem e)) v = chainElements ver fuel st v).
Proof.
  split; [cbn [invalidate parentCache]; apply lookup_delete_eq|].
  split; [cbn [invalidate chainCache]; apply lookup_delete_eq|].
  split. { intros d Hd. cbn [invalidate parentCache chainCache].
           rewrite !lookup_delete_ne by congruence. auto. }
  split.
  - intros d r Hd Hc Hr. unfold chainElements, computeAncestors.
    rewrite isCommentThing_JsElem, Hc. cbn [negb invalidate chainCache].
    rewrite lookup_delete_ne by congruence. rewrite Hr.
    unfold sliceCopy.
    destruct (alloc _ _) as [r' st'] eqn:Ea.
    destruct (alloc_props _ _ _ _ Ea) as (_ & Hh & _).
    unfold arrayAt at 1. rewrite Hh, lookup_insert_eq. reflexivity.
  - intros v Hco Hr.
    destruct (answers fuel st v Hco Hr) as (-> & _).
    destruct (answers fuel (invalidate st (JsElem e)) v
                (invalidate_coherent ver st (JsElem e) Hco) Hr) as (-> & _).
    reflexivity.
Qed.

End Layout.

Lemma reply_extends_parent_witness :
  exists cp, chainElements Selectors.Old 9 initial (JsElem Pages.reply)
             = Some (cp ++ [Pages.reply]).
Proof.
  pose proof (reply_extends_parent Selectors.Old 9 initial Pages.reply
                (initial_coherent Selectors.Old) ltac:(simpl; lia) eq_refl) as H.
  change (Selectors.getParentThing Selectors.Old (JsElem Pages.reply))
    with (Some Pages.topComment) in H.
  destruct H as (cp & dp & top & st1 & st2 & st3 & st4 & _ & H & _).
  exists cp. exact H.
Defined.

Lemma common_ancestor_symmetric_witness :
  exists res st1 st2,
    findCommonAncestor Selectors.Old 9 initial (JsElem Pages.reply)
                       (JsElem Pages.topComment) = Some (res, st1) /\
    findCommonAncestor Selectors.Old 9 initial (JsElem Pages.topComment)
                       (JsElem Pages.reply) = Some (res, st2).
Proof.
  apply (common_ancestor_symmetric Selectors.Old 9 initial (JsElem Pages.reply)
           (JsElem Pages.topComment) (initial_coherent Selectors.Old));
    simpl; lia.
Defined.

End ThreadFacts.

Module TargetFacts.
Import Js Dom ActiveComment Threads.

Section Tracker.
Variable ver : Selectors.RedditVersion.
Variable body : Element.



End Tracker.

End TargetFacts.

Module MarkerDepthFacts.
Import Js Dom Selectors Markers.

Lemma new_depthLoop_NaN cur : NewReddit.depthLoop cur NaN = NaN.
Proof.
  induction cur as [|d up IH]; [reflexivity|]. cbn [NewReddit.depthLoop incr].
  destruct (truthy (tagName d) && String.eqb (toLowerCase (tagName d)) "shreddit-comment");
    destruct (truthy (tagName d)
              && String.eqb (toLowerCase (tagName d)) "shreddit-comment-tree");
    auto.
Qed.

Lemma tree_not_comment d :
  Nesting.isTag d "shreddit-comment-tree" = true ->
  Nesting.isTag d "shreddit-comment" = false.
Proof.
  unfold Nesting.isTag. intros H. apply andb_true_iff in H as [-> H].
  apply String.eqb_eq in H. rewrite H. reflexivity.
Qed.

(** The fallback loop counts the [shreddit-comment] elements below the
    root of the comment tree. *)
Lemma new_depthLoop_count cur :
  forall n,
    NewReddit.depthLoop cur (Num n)
    = Num (n + Z.of_nat (length (List.filter
                                   (fun d => Nesting.isTag d "shreddit-comment")
                                   (belowTreeRoot cur)))).
Proof.
  induction cur as [|d up IH]; intros n; cbn [NewReddit.depthLoop belowTreeRoot].
  - cbn. f_equal. lia.
  - change (truthy (tagName d) && String.eqb (toLowerCase (tagName d)) "shreddit-comment")
      with (Nesting.isTag d "shreddit-comment").
    change (truthy (tagName d)
            && String.eqb (toLowerCase (tagName d)) "shreddit-comment-tree")
      with (Nesting.isTag d "shreddit-comment-tree").
    destruct (Nesting.isTag d "shreddit-comment-tree") eqn:Ht.
    + rewrite (tree_not_comment d Ht). cbn. f_equal. lia.
    + cbn [List.filter].
      destruct (Nesting.isTag d "shreddit-comment"); cbn [incr length];
        rewrite IH; f_equal; lia.
Qed.

Lemma belowTreeRoot_length up : length (belowTreeRoot up) <= length up.
Proof.
  induction up as [|d r IH]; cbn [belowTreeRoot length]; [lia|].
  destruct (Nesting.isTag d "shreddit-comment-tree"); cbn [length]; lia.
Qed.

(** X18.  In the second layout a comment's own [depth] attribute decides
    what [getIndentDepth] answers when nothing is cached.  An attribute
    that [parseInt] reads as a number other than 0 is the answer as it
    stands, negative numbers and the infinities included, whatever the
    nesting.  An attribute that [parseInt] cannot read gives NaN: the
    count starts from NaN and stays NaN.  Only a missing or empty
    attribute, or one read as 0, gives the count: the number of
    [shreddit-comment] elements among the parent elements of the comment
    below the first [shreddit-comment-tree], which is at most the number
    of parent elements.  Whatever the answer, it is cached. *)
Theorem new_depth_marker c e :
  NewReddit.isCommentData (self e) = true ->
  depthCache c !! e = None ->
  let marker := parseInt10 (default "0" (orElse (getAttribute (self e) "depth")
                                                (Some "0"))) in
  let answer := fst (NewReddit.getIndentDepth c (JsElem e)) in
  (forall z, marker = Num z -> z <> 0%Z -> answer = Num z) /\
  (forall s, marker = Infinity s -> answer = Infinity s) /\
  (marker = NaN -> answer = NaN) /\
  (marker = Num 0 -> answer = Num (Z.of_nat (enclosingComments e))) /\
  enclosingComments e <= length (ancestors e) /\
  depthCache (snd (NewReddit.getIndentDepth c (JsElem e))) !! e = Some answer.
Proof.
  intros He Hc marker answer.
  unfold answer, NewReddit.getIndentDepth. rewrite He, Hc. cbn [negb fst snd].
  fold marker. split; [|split; [|split; [|split; [|split]]]].
  - intros z Hz Hne. rewrite Hz. cbn [falsyNum].
    destruct (Z.eqb_spec z 0); [contradiction|reflexivity].
  - intros sg Hz. rewrite Hz. reflexivity.
  - intros Hz. rewrite Hz. cbn [falsyNum]. apply new_depthLoop_NaN.
  - intros Hz. rewrite Hz. cbn [falsyNum Z.eqb].
    rewrite new_depthLoop_count. reflexivity.
  - unfold enclosingComments.
    pose proof (belowTreeRoot_length (ancestors e)) as H1.
    pose proof (List.filter_length_le
                  (fun d => Nesting.isTag d "shreddit-comment")
                  (belowTreeRoot (ancestors e))) as H2.
    lia.
  - unfold setDepth. cbn [depthCache]. apply lookup_insert_eq.
Qed.

Lemma new_depth_marker_witness :
  fst (NewReddit.getIndentDepth noCaches (JsElem Pages.shredditTop)) = Num 5 /\
  fst (NewReddit.getIndentDepth noCaches (JsElem unmarkedReply)) = Num 1.
Proof.
  split.
  - destruct (new_depth_marker noCaches Pages.shredditTop eq_refl (lookup_empty _))
      as (H & _).
    apply (H 5%Z); [reflexivity|discriminate].
  - destruct (new_depth_marker noCaches unmarkedReply eq_refl (lookup_empty _))
      as (_ & _ & _ & H & _).
    apply H. reflexivity.
Defined.

End MarkerDepthFacts.

Module MainFacts.
Import Js Dom Main Running.

#[local] Arguments StickyUI.render : simpl never.
#[local] Arguments StickyUI.hide : simpl never.
#[local] Arguments StickyUI.updateActiveHighlight : simpl never.
#[local] Arguments Ancestors.computeAncestors : simpl never.
#[local] Arguments Ancestors.alloc : simpl never.
#[local] Arguments StickyUI.sliceTo : simpl never.

Section Page.
Variable ver : Selectors.RedditVersion.
Variable body : Element.
Variable originalPost : option StickyUI.OpMeta.
Variable fuel : nat.
Variable Error : Type.
#[local] Abbreviation worldReady := (Running.worldReady ver).
#[local] Abbreviation walkable := (Running.walkable ver fuel).
#[local] Abbreviation ready := (Running.ready ver originalPost fuel Error).
#[local] Abbreviation clicks := (Running.clicks ver body Error).
#[local] Abbreviation headerFollows := (Running.headerFollows ver originalPost Error).

(** [l.slice(0, -1)] drops the last element. *)
Lemma sliceTo_init {A} (l : list A) x : StickyUI.sliceTo (-1) (l ++ [x]) = l.
Proof.
  unfold StickyUI.sliceTo. cbn [Z.ltb Z.compare].
  rewrite length_app. cbn [length].
  replace (Z.to_nat (Z.of_nat (length l + 1) + -1)) with (length l) by lia.
  rewrite take_app_length. reflexivity.
Qed.

(** The chain of a comment ends in the comment itself. *)
Lemma chain_split x :
  exists anc, Chains.chainOf ver x = anc ++ [x].
Proof.
  pose proof (AncestorsFacts.chainOf_last ver x) as H.
  apply last_Some in H. exact H.
Qed.

(** What [handleActiveCommentChange] computes for a comment: the chain
    without the comment itself, in an array of its own. *)
Lemma handle_comment x w :
  stickyAncestorsEnabled (settings w) = true ->
  Selectors.isCommentData ver (self x) = true ->
  Chains.coherent ver (ancestors w) ->
  Chains.rank (JsElem x) <= fuel ->
  exists anc a2,
    Chains.chainOf ver x = anc ++ [x] /\
    Chains.coherent ver a2 /\
    handleActiveCommentChange ver originalPost fuel (Some x) w
    = Some (withSticky
              (StickyUI.render ver anc (stickyDepth (settings w))
                 (stickyCompact (settings w)) (Some x) originalPost (sticky w))
              (withAncestors a2 (withCurrent (Some x) w))).
Proof.
  intros Hen Hx Hco Hr.
  destruct (chain_split x) as [anc Hanc].
  unfold handleActiveCommentChange. rewrite Hen. cbn [negb].
  cbn [ancestors withCurrent settings sticky].
  destruct (AncestorsFacts.computeAncestors_spec ver fuel (ancestors w) (JsElem x) Hco Hr)
    as (r & a1 & E & _ & Hr1 & Hco1 & _).
  rewrite E.
  cbn [Chains.chainOfValue] in Hr1. rewrite Hx in Hr1.
  rewrite (AncestorsFacts.arrayAt_lookup _ _ _ Hr1), Hanc, sliceTo_init.
  destruct (Ancestors.alloc anc a1) as [r2 a2] eqn:Ea.
  destruct (AncestorsFacts.coherent_alloc ver _ _ _ _ Hco1 Ea) as (Hco2 & _ & _ & _ & Hr2 & _).
  rewrite (AncestorsFacts.arrayAt_lookup _ _ _ Hr2).
  exists anc, a2. split; [reflexivity|]. split; [exact Hco2|]. reflexivity.
Qed.

(** [render] neither switches the module off nor loses the container. *)
Lemma render_keeps chain depth compact active opMeta st :
  StickyUI.isActive (StickyUI.render ver chain depth compact active opMeta st)
  = StickyUI.isActive st /\
  (is_Some (StickyUI.container st) ->
   is_Some (StickyUI.container (StickyUI.render ver chain depth compact active opMeta st))).
Proof.
  unfold StickyUI.render.
  destruct (StickyUI.container st) as [c0|] eqn:Hc; [|split; [reflexivity|intros [? ?]; discriminate]].
  destruct (StickyUI.isActive st) eqn:Ha; cbn [negb];
    [|split; [exact Ha|rewrite Hc; eauto]].
  destruct (StickyUI.mapIds _ _ _) as [ids sel1].
  match goal with
  | |- context [if ?b then _ else _] => destruct b
  end.
  - match goal with
    | |- context [StickyUI.updateActiveHighlight active ?s] =>
        destruct (MarkerFacts.highlight_frame active s) as (F1 & F2 & _)
    end.
    rewrite F1, F2. cbn. rewrite Hc, Ha. eauto.
  - destruct (StickyUI.createRows _ _ _ _ _) as [rows sel2].
    match goal with
    | |- context [if ?b then _ else _] => destruct b
    end.
    + unfold StickyUI.hide. cbn [StickyUI.container StickyUI.withSelectors
        StickyUI.withContainer StickyUI.withChainIds StickyUI.withConfig].
      match goal with
      | |- context [StickyUI.updateActiveHighlight None ?s] =>
          destruct (MarkerFacts.highlight_frame None s) as (F1 & F2 & _)
      end.
      rewrite F1, F2. cbn. rewrite Ha. eauto.
    + match goal with
      | |- context [StickyUI.updateActiveHighlight active ?s] =>
          destruct (MarkerFacts.highlight_frame active s) as (F1 & F2 & _);
          set (st5 := StickyUI.updateActiveHighlight active s) in *
      end.
      cbn in F1, F2. rewrite F1.
      match goal with
      | |- context [StickyUI.updateContainerPosition ?s] =>
          destruct (HeaderFacts.position_frame s) as (_ & _ & _ & P4 & _ & P6)
      end.
      rewrite P4, P6. cbn. rewrite F2, Ha. eauto.
Qed.

(** The header [render] builds when it is not showing yet. *)
Lemma render_hidden chain depth compact x st c :
  StickyUI.isActive st = true ->
  StickyUI.container st = Some c ->
  StickyUI.visible c = false ->
  Header.markerExact (StickyUI.page st) (StickyUI.currentActiveComment st) ->
  let st' := StickyUI.render ver chain depth compact (Some x) originalPost st in
  ((is_Some originalPost \/ StickyUI.sliceTo depth chain <> []) ->
   StickyUI.container st'
   = Some (StickyUI.mkContainer true
             (Header.originRows originalPost compact
              ++ Header.rowsOf ver (StickyUI.selectors st)
                   (StickyUI.sliceTo depth chain) 0 compact)
             (StickyUI.detectRedditHeaderHeight (StickyUI.page st))) /\
   StickyUI.currentActiveComment st' = Some x /\
   Header.markerExact (StickyUI.page st') (Some x)) /\
  (originalPost = None -> StickyUI.sliceTo depth chain = [] ->
   StickyUI.container st' = Some (StickyUI.mkContainer false [] (StickyUI.top c)) /\
   StickyUI.currentActiveComment st' = None /\
   Header.markerExact (StickyUI.page st') None).
Proof.
  intros Ha Hc Hv Hm st'. unfold st'. split.
  - intros Hshow.
    destruct (HeaderFacts.render_rebuild ver chain depth compact (Some x) originalPost st c
                Ha Hc (or_intror Hv) Hshow) as (R1 & _ & _ & _ & R5 & R6).
    split; [exact R1|]. split; [exact R6|].
    rewrite R5. apply MarkerFacts.highlight_exact, Hm.
  - intros Hop Hn. rewrite Hop.
    destruct (HeaderFacts.render_hides ver chain depth compact (Some x) st c
                Ha Hc (or_intror Hv) Hn) as (R1 & _ & R3 & R4).
    split; [exact R1|]. split; [exact R4|].
    rewrite R3. apply MarkerFacts.highlight_exact, Hm.
Qed.

(** What [hide] leaves of the header when the container exists. *)
Lemma hide_result a st c :
  StickyUI.container st = Some c ->
  StickyUI.container (StickyUI.hide a st)
  = Some (StickyUI.mkContainer false [] (StickyUI.top c)) /\
  StickyUI.currentChainIds (StickyUI.hide a st) = [] /\
  StickyUI.isActive (StickyUI.hide a st) = StickyUI.isActive st /\
  StickyUI.currentActiveComment (StickyUI.hide a st) = a /\
  (Header.markerExact (StickyUI.page st) (StickyUI.currentActiveComment st) ->
   Header.markerExact (StickyUI.page (StickyUI.hide a st)) a).
Proof.
  intros Hc. rewrite (HeaderFacts.hide_unfold a st c Hc).
  match goal with
  | |- context [StickyUI.updateActiveHighlight a ?s] => set (st1 := s)
  end.
  destruct (MarkerFacts.highlight_frame a st1) as (F1 & F2 & _ & F4 & _ & _ & F7 & _).
  rewrite F1, F2, F4, F7. repeat split.
  intros Hm. apply MarkerFacts.highlight_exact. exact Hm.
Qed.

(** Any run of the callback on a ready world finishes and leaves a ready
    world. *)
Lemma handle_keeps_ready a w :
  worldReady w ->
  (forall x, a = Some x -> walkable x) ->
  exists w',
    handleActiveCommentChange ver originalPost fuel a w = Some w' /\
    worldReady w' /\ currentActiveComment w' = a /\
    (a = None -> StickyUI.isVisible (sticky w') = false).
Proof.
  intros (Hen & Hco & Ha & [c Hc] & Hm) Hx.
  destruct a as [x|].
  - destruct (Hx x eq_refl) as [Hcx Hr].
    destruct (handle_comment x w Hen Hcx Hco Hr) as (anc & a2 & Hanc & Hco2 & E).
    eexists. split; [exact E|].
    cbn [currentActiveComment settings ancestors sticky withSticky withAncestors withCurrent].
    split; [|split; [reflexivity|discriminate]].
    unfold worldReady.
    cbn [currentActiveComment settings ancestors sticky withSticky withAncestors withCurrent].
    destruct (render_keeps anc (stickyDepth (settings w)) (stickyCompact (settings w))
                (Some x) originalPost (sticky w)) as [K1 K2].
    split; [exact Hen|]. split; [exact Hco2|]. split; [rewrite K1; exact Ha|].
    split; [apply K2; rewrite Hc; eauto|].
    destruct (HeaderFacts.render_marker ver anc (stickyDepth (settings w))
                (stickyCompact (settings w)) (Some x) originalPost (sticky w))
      as [[-> ->]|(new & -> & ->)]; [exact Hm|].
    apply MarkerFacts.highlight_exact, Hm.
  - unfold handleActiveCommentChange. rewrite Hen. cbn [negb].
    eexists. split; [reflexivity|].
    cbn [currentActiveComment settings ancestors sticky withSticky withCurrent].
    destruct (hide_result None (sticky w) c Hc) as (H1 & H2 & H3 & H4 & H5).
    split; [|split; [reflexivity|]].
    + unfold worldReady.
      cbn [currentActiveComment settings ancestors sticky withSticky withCurrent].
      split; [exact Hen|]. split; [exact Hco|]. split; [rewrite H3; exact Ha|].
      split; [rewrite H1; eauto|]. rewrite H4. exact (H5 Hm).
    + intros _. unfold StickyUI.isVisible. rewrite H1. reflexivity.
Qed.

(** The comment a click is attributed to is a classified comment. *)
Lemma findFrom_comment d up x :
  ActiveComment.findFrom ver body d up = Some x ->
  Selectors.isCommentData ver (self x) = true.
Proof.
  revert d. induction up as [|p up' IH]; intros d; cbn [ActiveComment.findFrom];
    case_bool_decide; try discriminate;
    destruct (Selectors.isCommentData ver d) eqn:Hd; try discriminate.
  - intros [= <-]. exact Hd.
  - intros [= <-]. exact Hd.
  - apply IH.
Qed.

(** One change of the anchored node in a ready system. *)
Lemma setAnchored_ready comment (sys : System Error) :
  ready sys ->
  comment <> ActiveComment.currentAnchored sys ->
  (forall x, comment = Some x -> walkable x) ->
  exists sys' w w',
    ActiveComment.setAnchored comment sys = (sys', ActiveComment.Returned) /\
    ActiveComment.world sys = Some w /\
    worldReady w /\
    (ActiveComment.currentAnchored sys = None -> StickyUI.isVisible (sticky w) = false) /\
    handleActiveCommentChange ver originalPost fuel comment w = Some w' /\
    ActiveComment.world sys' = Some w' /\
    ActiveComment.currentAnchored sys' = comment /\
    ActiveComment.consoleErrors sys' = ActiveComment.consoleErrors sys /\
    ActiveComment.calls sys' = ActiveComment.calls sys ++ [comment] /\
    ready sys'.
Proof.
  intros (Hact & Hcb & Hwalk & w & Hw & Hwr & Hcur & Hidle) Hne Hx.
  destruct (ActiveCommentFacts.setAnchored_change sys comment Hne)
    as (sys' & E & C1 & C2 & C3 & C4).
  rewrite Hcb in C4. destruct C4 as (C4 & C5 & C6).
  rewrite Hw in C5. cbn [onActiveChange fst snd] in C5, C6.
  rewrite app_nil_r in C6.
  destruct (handle_keeps_ready comment w Hwr Hx) as (w' & Hh & Hwr' & Hc' & Hv').
  rewrite Hh in C5.
  exists sys', w, w'. split; [exact E|]. split; [exact Hw|]. split; [exact Hwr|].
  split; [exact Hidle|]. split; [exact Hh|].
  split; [exact C5|]. split; [exact C1|]. split; [exact C6|]. split; [exact C4|].
  split; [rewrite C2; exact Hact|]. split; [rewrite C3; exact Hcb|].
  split; [rewrite C1; exact Hx|].
  exists w'. split; [exact C5|]. split; [exact Hwr'|]. split; [rewrite C1; exact Hc'|].
  rewrite C1. exact Hv'.
Qed.

(** The three ways the capture listener can end. *)
Lemma handleCommentClick_cases target (sys : System Error) :
  ActiveComment.handleCommentClick ver body target sys = (sys, ActiveComment.Returned)
  \/ exists x,
       ActiveComment.findCommentFromTarget ver body target = Some x /\
       ActiveComment.isValidClickTarget target x = true /\
       ((ActiveComment.currentAnchored sys = Some x /\
         ActiveComment.handleCommentClick ver body target sys
         = ActiveComment.setAnchored None sys)
        \/ (ActiveComment.currentAnchored sys <> Some x /\
            ActiveComment.handleCommentClick ver body target sys
            = ActiveComment.setAnchored (Some x) sys)).
Proof.
  unfold ActiveComment.handleCommentClick.
  destruct (negb (ActiveComment.isActive sys)); [left; reflexivity|].
  destruct (ActiveComment.findCommentFromTarget ver body target) as [x|] eqn:Hx;
    [|left; reflexivity].
  destruct (ActiveComment.isValidClickTarget target x) eqn:Hv; cbn [negb];
    [|left; reflexivity].
  right. exists x. split; [reflexivity|]. split; [exact Hv|].
  case_bool_decide as Heq; [left|right]; split; congruence.
Qed.

Lemma capture_keeps_ready target (sys : System Error) :
  ready sys ->
  (forall x, ActiveComment.findCommentFromTarget ver body target = Some x ->
             Chains.rank (JsElem x) <= fuel) ->
  ready (fst (ActiveComment.handleCommentClick ver body target sys)) /\
  ActiveComment.consoleErrors (fst (ActiveComment.handleCommentClick ver body target sys))
  = ActiveComment.consoleErrors sys.
Proof.
  intros Hr Hfuel.
  destruct (handleCommentClick_cases target sys)
    as [->|(x & Hx & _ & [[Hcur ->]|[Hcur ->]])]; [split; [exact Hr|reflexivity]| |].
  - destruct (setAnchored_ready None sys Hr)
      as (sys' & w & w' & -> & _ & _ & _ & _ & _ & _ & Hce & _ & Hr');
      [congruence|discriminate|].
    split; [exact Hr'|exact Hce].
  - destruct (setAnchored_ready (Some x) sys Hr)
      as (sys' & w & w' & -> & _ & _ & _ & _ & _ & _ & Hce & _ & Hr');
      [congruence| |].
    + intros y [= <-]. split; [apply (findFrom_comment _ _ _ Hx)|apply Hfuel, Hx].
    + split; [exact Hr'|exact Hce].
Qed.

Lemma bubble_keeps_ready target (sys : System Error) :
  ready sys ->
  ready (fst (ActiveComment.handleDocumentClick ver body target sys)) /\
  ActiveComment.consoleErrors (fst (ActiveComment.handleDocumentClick ver body target sys))
  = ActiveComment.consoleErrors sys.
Proof.
  intros Hr.
  destruct (ActiveCommentFacts.handleDocumentClick_outcome ver body sys target)
    as [->|[Hne ->]]; [split; [exact Hr|reflexivity]|].
  destruct (setAnchored_ready None sys Hr)
    as (sys' & w & w' & -> & _ & _ & _ & _ & _ & _ & Hce & _ & Hr');
    [congruence|discriminate|].
  split; [exact Hr'|exact Hce].
Qed.

Lemma click_ready how target (sys : System Error) :
  ready sys ->
  (forall x, ActiveComment.findCommentFromTarget ver body target = Some x ->
             Chains.rank (JsElem x) <= fuel) ->
  ready (fst (ActiveComment.click ver body how target sys)) /\
  ActiveComment.consoleErrors (fst (ActiveComment.click ver body how target sys))
  = ActiveComment.consoleErrors sys.
Proof.
  intros Hr Hfuel.
  destruct (capture_keeps_ready target sys Hr Hfuel) as [Hr1 He1].
  unfold ActiveComment.click.
  destruct (ActiveComment.handleCommentClick ver body target sys) as [sys1 c1].
  cbn [fst] in Hr1, He1. destruct how; cbn [fst]; [split; assumption|].
  destruct (bubble_keeps_ready target sys1 Hr1) as [Hr2 He2].
  destruct (ActiveComment.handleDocumentClick ver body target sys1) as [sys2 c2].
  cbn [fst] in *. split; [exact Hr2|congruence].
Qed.

(** The content script once [updateStickyAncestors] has run on the
    freshly loaded modules. *)
Lemma startup_ready p :
  StickyUI.activeClass p = [] -> StickyUI.icons p = [] ->
  ready (updateStickyAncestors ver originalPost fuel Error (loaded Error p)).
Proof.
  intros H1 H2. unfold updateStickyAncestors, loaded, ready.
  cbn [ActiveComment.world settings DEFAULTS stickyAncestorsEnabled
       ActiveComment.init ActiveComment.isActive withWorld
       ActiveComment.onChangeCallback ActiveComment.currentAnchored].
  split; [reflexivity|]. split; [reflexivity|]. split; [discriminate|].
  eexists. split; [reflexivity|].
  cbn [currentActiveComment withSticky sticky ancestors settings].
  split; [|split; [reflexivity|]].
  - unfold worldReady. cbn [settings stickyAncestorsEnabled withSticky sticky ancestors].
    split; [reflexivity|]. split; [apply AncestorsFacts.initial_coherent|].
    split; [reflexivity|]. split; [cbn; eauto|].
    apply HeaderFacts.init_exact, HeaderFacts.initial_exact; assumption.
  - intros _. reflexivity.
Qed.

(** Where [render] leaves the header's record of the active comment. *)
Lemma render_current chain depth compact active opMeta st :
  StickyUI.isActive st = true -> is_Some (StickyUI.container st) ->
  (StickyUI.currentActiveComment (StickyUI.render ver chain depth compact active opMeta st)
   = active
   \/ StickyUI.currentActiveComment (StickyUI.render ver chain depth compact active opMeta st)
      = None) /\
  ((is_Some opMeta \/ StickyUI.sliceTo depth chain <> []) ->
   StickyUI.currentActiveComment (StickyUI.render ver chain depth compact active opMeta st)
   = active /\
   StickyUI.isVisible (StickyUI.render ver chain depth compact active opMeta st) = true).
Proof.
  intros Ha [c Hc].
  assert (Hsame : StickyUI.visible c = true ->
                  Header.previousFingerprint st
                  = Header.fingerprint ver st chain depth compact opMeta ->
                  StickyUI.currentActiveComment
                    (StickyUI.render ver chain depth compact active opMeta st) = active /\
                  StickyUI.isVisible
                    (StickyUI.render ver chain depth compact active opMeta st) = true).
  { intros Hv Hk. rewrite (HeaderFacts.render_same ver _ _ _ _ _ _ c Ha Hc Hv Hk).
    match goal with
    | |- context [StickyUI.updateActiveHighlight active ?s] =>
        destruct (MarkerFacts.highlight_frame active s) as (F1 & _ & _ & _ & _ & _ & F7 & _)
    end.
    split; [exact F7|]. unfold StickyUI.isVisible. rewrite F1. cbn. rewrite Hc. exact Hv. }
  assert (Hshown : (Header.previousFingerprint st
                    <> Header.fingerprint ver st chain depth compact opMeta
                    \/ StickyUI.visible c = false) ->
                   (is_Some opMeta \/ StickyUI.sliceTo depth chain <> []) ->
                   StickyUI.currentActiveComment
                     (StickyUI.render ver chain depth compact active opMeta st) = active /\
                   StickyUI.isVisible
                     (StickyUI.render ver chain depth compact active opMeta st) = true).
  { intros Hdiff Hshow.
    destruct (HeaderFacts.render_rebuild ver chain depth compact active opMeta st c
                Ha Hc Hdiff Hshow) as (R1 & _ & _ & _ & _ & R6).
    split; [exact R6|]. unfold StickyUI.isVisible. rewrite R1. reflexivity. }
  assert (Hcase : (StickyUI.visible c = true /\
                   Header.previousFingerprint st
                   = Header.fingerprint ver st chain depth compact opMeta)
                  \/ (Header.previousFingerprint st
                      <> Header.fingerprint ver st chain depth compact opMeta
                      \/ StickyUI.visible c = false)).
  { destruct (decide (Header.previousFingerprint st
                      = Header.fingerprint ver st chain depth compact opMeta)) as [Hk|Hk];
      [destruct (StickyUI.visible c) eqn:Hv|]; auto. }
  split.
  - destruct Hcase as [[Hv Hk]|Hdiff]; [left; apply (Hsame Hv Hk)|].
    destruct opMeta as [m|]; [left; apply (Hshown Hdiff); left; eauto|].
    destruct (StickyUI.sliceTo depth chain) eqn:Hd.
    + right. apply (HeaderFacts.render_hides ver chain depth compact active st c
                      Ha Hc Hdiff Hd).
    + left. apply (Hshown Hdiff). right. try rewrite Hd. discriminate.
  - intros Hshow. destruct Hcase as [[Hv Hk]|Hdiff];
      [apply (Hsame Hv Hk)|apply (Hshown Hdiff Hshow)].
Qed.

(** Where a run of the callback leaves the header's record. *)
Lemma handle_follows a w w' :
  worldReady w ->
  (forall x, a = Some x -> walkable x) ->
  handleActiveCommentChange ver originalPost fuel a w = Some w' ->
  (StickyUI.currentActiveComment (sticky w') = a
   \/ StickyUI.currentActiveComment (sticky w') = None) /\
  forall x anc,
    a = Some x -> Chains.chainOf ver x = anc ++ [x] ->
    is_Some originalPost \/ StickyUI.sliceTo (stickyDepth (settings w')) anc <> [] ->
    StickyUI.currentActiveComment (sticky w') = Some x /\
    StickyUI.isVisible (sticky w') = true.
Proof.
  intros (Hen & Hco & Ha & Hcont & Hm) Hx E.
  destruct a as [x|].
  - destruct (Hx x eq_refl) as [Hcx Hr].
    destruct (handle_comment x w Hen Hcx Hco Hr) as (anc & a2 & Hanc & _ & E').
    rewrite E' in E. injection E as <-.
    cbn [sticky settings withSticky withAncestors withCurrent].
    destruct (render_current anc (stickyDepth (settings w)) (stickyCompact (settings w))
                (Some x) originalPost (sticky w) Ha Hcont) as [R1 R2].
    split; [exact R1|].
    intros x0 anc0 [= <-] Hanc0 Hshow.
    rewrite Hanc in Hanc0. apply app_inj_tail in Hanc0 as [<- _].
    apply R2, Hshow.
  - unfold handleActiveCommentChange in E. rewrite Hen in E. cbn [negb] in E.
    injection E as <-. cbn [sticky withSticky withCurrent].
    destruct Hcont as [c Hc].
    destruct (hide_result None (sticky w) c Hc) as (_ & _ & _ & H4 & _).
    split; [left; exact H4|]. intros x anc Habs. discriminate.
Qed.

Lemma setAnchored_follows comment (sys : System Error) :
  ready sys ->
  comment <> ActiveComment.currentAnchored sys ->
  (forall x, comment = Some x -> walkable x) ->
  headerFollows (fst (ActiveComment.setAnchored comment sys)).
Proof.
  intros Hr Hne Hx.
  destruct (setAnchored_ready comment sys Hr Hne Hx)
    as (sys' & w & w' & -> & _ & Hwr & _ & Hh & Hw' & Hcur & _).
  cbn [fst]. destruct (handle_follows comment w w' Hwr Hx Hh) as [F1 F2].
  exists w'. rewrite Hcur. split; [exact Hw'|]. split; [exact F1|exact F2].
Qed.

Lemma click_follows how target (sys : System Error) :
  ready sys -> headerFollows sys ->
  (forall x, ActiveComment.findCommentFromTarget ver body target = Some x ->
             Chains.rank (JsElem x) <= fuel) ->
  headerFollows (fst (ActiveComment.click ver body how target sys)).
Proof.
  intros Hr Hf Hfuel.
  assert (H1 : headerFollows (fst (ActiveComment.handleCommentClick ver body target sys))).
  { destruct (handleCommentClick_cases target sys)
      as [->|(x & Hx & _ & [[Hcur ->]|[Hcur ->]])]; [exact Hf| |].
    - apply (setAnchored_follows None sys Hr); [congruence|discriminate].
    - apply (setAnchored_follows (Some x) sys Hr); [congruence|].
      intros y [= <-]. split; [apply (findFrom_comment _ _ _ Hx)|apply Hfuel, Hx]. }
  destruct (capture_keeps_ready target sys Hr Hfuel) as [Hr1 _].
  unfold ActiveComment.click.
  destruct (ActiveComment.handleCommentClick ver body target sys) as [sys1 c1].
  cbn [fst] in H1, Hr1. destruct how; cbn [fst]; [exact H1|].
  destruct (ActiveCommentFacts.handleDocumentClick_outcome ver body sys1 target)
    as [E|[Hne E]]; rewrite E; [exact H1|].
  pose proof (setAnchored_follows None sys1 Hr1) as H2.
  destruct (ActiveComment.setAnchored None sys1) as [sys2 c2]. cbn [fst] in *.
  apply H2; [congruence|discriminate].
Qed.

(** X19.  Clicks never take the running content script out of order.
    From the freshly loaded modules, after [updateStickyAncestors] and
    any number of clicks anywhere on the page, delivered either way, with
    rounds enough for the walks from the comments clicked in: every run of
    the callback has finished and none has thrown; main.js and the tracker
    agree on the active comment, which is a comment; the caches agree with
    the page; the marker is on no element but the one the header has
    recorded as active; and the header is hidden whenever nothing is
    anchored.  The header follows the tracker as far as there is something
    to show: the comment it has recorded as active is the anchored one or
    null, and it is the anchored one, with the header showing, whenever
    the page has origin metadata or the anchored comment has an ancestor
    within the depth.  When there is nothing to show, as for a top-level
    comment on a page without origin metadata, the header's record is the
    anchored comment or null. *)
Theorem clicks_keep_ready p l :
  StickyUI.activeClass p = [] -> StickyUI.icons p = [] ->
  (forall how target x,
     (how, target) ∈ l ->
     ActiveComment.findCommentFromTarget ver body target = Some x ->
     Chains.rank (JsElem x) <= fuel) ->
  let sys := clicks l (updateStickyAncestors ver originalPost fuel Error (loaded Error p)) in
  ready sys /\
  ActiveComment.consoleErrors sys = [] /\
  exists w,
    ActiveComment.world sys = Some w /\
    currentActiveComment w = ActiveComment.currentAnchored sys /\
    Chains.coherent ver (ancestors w) /\
    (forall e, Header.carries (StickyUI.page (sticky w)) e ->
               StickyUI.currentActiveComment (sticky w) = Some e) /\
    (ActiveComment.currentAnchored sys = None -> StickyUI.isVisible (sticky w) = false) /\
    (StickyUI.currentActiveComment (sticky w) = ActiveComment.currentAnchored sys
     \/ StickyUI.currentActiveComment (sticky w) = None) /\
    (forall x anc,
       ActiveComment.currentAnchored sys = Some x ->
       Chains.chainOf ver x = anc ++ [x] ->
       is_Some originalPost \/ StickyUI.sliceTo (stickyDepth (settings w)) anc <> [] ->
       StickyUI.currentActiveComment (sticky w) = Some x /\
       StickyUI.isVisible (sticky w) = true).
Proof.
  intros H1 H2 Hfuel sys.
  assert (G : forall l0 s0,
             ready s0 -> headerFollows s0 -> ActiveComment.consoleErrors s0 = [] ->
             (forall how target x, (how, target) ∈ l0 ->
                ActiveComment.findCommentFromTarget ver body target = Some x ->
                Chains.rank (JsElem x) <= fuel) ->
             ready (clicks l0 s0) /\ headerFollows (clicks l0 s0) /\
             ActiveComment.consoleErrors (clicks l0 s0) = []).
  { induction l0 as [|[how target] r IH]; intros s0 Hr Hfo He Hf; [auto|].
    cbn [clicks].
    assert (Hx : forall x, ActiveComment.findCommentFromTarget ver body target = Some x ->
                           Chains.rank (JsElem x) <= fuel)
      by (intros x Hx; apply (Hf how target x); [left|exact Hx]).
    destruct (click_ready how target s0 Hr Hx) as [Hr1 He1].
    apply IH; [exact Hr1|apply (click_follows how target s0 Hr Hfo Hx)|congruence|].
    intros how' target' x' Hin. apply (Hf how' target' x'). right. exact Hin. }
  assert (Hstart : headerFollows
                     (updateStickyAncestors ver originalPost fuel Error (loaded Error p))).
  { eexists. split; [reflexivity|]. split; [left; reflexivity|].
    intros x anc Habs. discriminate. }
  destruct (G l _ (startup_ready p H1 H2) Hstart eq_refl Hfuel) as (Hr & Hfo & He).
  fold sys in Hr, Hfo, He. split; [exact Hr|]. split; [exact He|].
  destruct Hr as (_ & _ & _ & w & Hw & (_ & Hco & _ & _ & Hm) & Hcur & Hidle).
  destruct Hfo as (w0 & Hw0 & F1 & F2).
  rewrite Hw in Hw0. injection Hw0 as <-.
  exists w. split; [exact Hw|]. split; [exact Hcur|]. split; [exact Hco|].
  split; [intros e He'; apply (MarkerFacts.exact_carriers _ _ _ Hm He')|].
  split; [exact Hidle|]. split; [exact F1|exact F2].
Qed.

(** X20.  A valid click in a comment while nothing is anchored anchors the
    comment, calls the callback once with it, and fills the header from
    the comment's chain without the comment itself: the origin row, when
    the page has origin metadata, then one row for each of the first
    [stickyDepth] ancestors, outermost first and numbered from 1; the
    marker is on the comment and nowhere else.  When there is neither
    origin metadata nor an ancestor to show, the header stays hidden and
    the comment gets no marker, although it is anchored. *)
Theorem click_shows_thread how target x (sys : System Error) :
  ready sys ->
  ActiveComment.currentAnchored sys = None ->
  ActiveComment.findCommentFromTarget ver body target = Some x ->
  ActiveComment.isValidClickTarget target x = true ->
  Chains.rank (JsElem x) <= fuel ->
  exists w w' anc c,
    ActiveComment.world sys = Some w /\
    StickyUI.container (sticky w) = Some c /\
    ActiveComment.world (fst (ActiveComment.click ver body how target sys)) = Some w' /\
    ActiveComment.currentAnchored (fst (ActiveComment.click ver body how target sys))
    = Some x /\
    ActiveComment.calls (fst (ActiveComment.click ver body how target sys))
    = ActiveComment.calls sys ++ [Some x] /\
    currentActiveComment w' = Some x /\
    Chains.chainOf ver x = anc ++ [x] /\
    ((is_Some originalPost \/ StickyUI.sliceTo (stickyDepth (settings w)) anc <> []) ->
     StickyUI.container (sticky w')
     = Some (StickyUI.mkContainer true
               (Header.originRows originalPost (stickyCompact (settings w))
                ++ Header.rowsOf ver (StickyUI.selectors (sticky w))
                     (StickyUI.sliceTo (stickyDepth (settings w)) anc) 0
                     (stickyCompact (settings w)))
               (StickyUI.detectRedditHeaderHeight (StickyUI.page (sticky w)))) /\
     StickyUI.currentActiveComment (sticky w') = Some x /\
     Header.markerExact (StickyUI.page (sticky w')) (Some x)) /\
    (originalPost = None ->
     StickyUI.sliceTo (stickyDepth (settings w)) anc = [] ->
     StickyUI.container (sticky w') = Some (StickyUI.mkContainer false [] (StickyUI.top c)) /\
     StickyUI.currentActiveComment (sticky w') = None /\
     Header.markerExact (StickyUI.page (sticky w')) None).
Proof.
  intros Hr Hidle Hx Hv Hfuel.
  destruct (ActiveCommentFacts.click_inside ver body how sys target x Hx) as [-> _].
  rewrite (ActiveCommentFacts.handleCommentClick_valid ver body sys target x
             (proj1 Hr) Hx Hv).
  rewrite Hidle. rewrite bool_decide_eq_false_2 by discriminate.
  assert (Hwalk : walkable x) by (split; [apply (findFrom_comment _ _ _ Hx)|exact Hfuel]).
  destruct (setAnchored_ready (Some x) sys Hr)
    as (sys' & w & w' & -> & Hw & Hwr & Hvis & Hh & Hw' & Hcur' & _ & Hcalls & _).
  { rewrite Hidle. discriminate. }
  { intros y [= <-]. exact Hwalk. }
  cbn [fst].
  destruct Hwr as (Hen & Hco & Ha & [c Hc] & Hm).
  destruct (handle_comment x w Hen (proj1 Hwalk) Hco Hfuel) as (anc & a2 & Hanc & _ & E).
  rewrite E in Hh. inversion Hh; subst w'; clear Hh.
  eexists w, _, anc, c. split; [exact Hw|]. split; [exact Hc|]. split; [exact Hw'|].
  split; [exact Hcur'|]. split; [exact Hcalls|].
  cbn [currentActiveComment sticky withSticky withAncestors withCurrent].
  split; [reflexivity|]. split; [exact Hanc|].
  assert (Hv' : StickyUI.visible c = false).
  { specialize (Hvis Hidle). unfold StickyUI.isVisible in Hvis. rewrite Hc in Hvis.
    exact Hvis. }
  apply (render_hidden anc _ _ x (sticky w) c Ha Hc Hv' Hm).
Qed.

(** X21.  A valid click in the anchored comment, or a click outside every
    comment and outside the header that reaches the bubble listener,
    releases the anchor: the callback is called once, with null, and the
    header is hidden: its rows are gone, the stored fingerprint is
    dropped, and no element carries the marker any more. *)
Theorem click_releases how target x (sys : System Error) :
  ready sys ->
  ActiveComment.currentAnchored sys = Some x ->
  (ActiveComment.findCommentFromTarget ver body target = Some x /\
   ActiveComment.isValidClickTarget target x = true)
  \/ (ActiveComment.findCommentFromTarget ver body target = None /\
      closest target ActiveComment.stickySelector = None /\
      how = ActiveComment.CaptureThenBubble) ->
  exists w' c,
    ActiveComment.world (fst (ActiveComment.click ver body how target sys)) = Some w' /\
    ActiveComment.currentAnchored (fst (ActiveComment.click ver body how target sys))
    = None /\
    ActiveComment.calls (fst (ActiveComment.click ver body how target sys))
    = ActiveComment.calls sys ++ [None] /\
    currentActiveComment w' = None /\
    StickyUI.container (sticky w') = Some (StickyUI.mkContainer false [] (StickyUI.top c)) /\
    StickyUI.currentChainIds (sticky w') = [] /\
    StickyUI.currentActiveComment (sticky w') = None /\
    StickyUI.activeClass (StickyUI.page (sticky w')) = [] /\
    StickyUI.icons (StickyUI.page (sticky w')) = [].
Proof.
  intros Hr Hcur Hcase.
  assert (Hstep : fst (ActiveComment.click ver body how target sys)
                  = fst (ActiveComment.setAnchored None sys)).
  { destruct Hcase as [[Hx Hv]|(Hx & Hs & ->)].
    - destruct (ActiveCommentFacts.click_inside ver body how sys target x Hx) as [-> _].
      rewrite (ActiveCommentFacts.handleCommentClick_valid ver body sys target x
                 (proj1 Hr) Hx Hv).
      rewrite Hcur, bool_decide_eq_true_2 by reflexivity. reflexivity.
    - unfold ActiveComment.click, ActiveComment.handleCommentClick.
      rewrite (proj1 Hr), Hx. cbn [negb].
      unfold ActiveComment.handleDocumentClick.
      rewrite (proj1 Hr), Hcur, Hx, Hs. cbn [negb orb].
      rewrite bool_decide_eq_true_2 by eauto. cbn [negb].
      destruct (ActiveComment.setAnchored None sys). reflexivity. }
  rewrite Hstep.
  destruct (setAnchored_ready None sys Hr)
    as (sys' & w & w' & -> & Hw & Hwr & _ & Hh & Hw' & Hcur' & _ & Hcalls & _).
  { rewrite Hcur. discriminate. }
  { discriminate. }
  cbn [fst].
  destruct Hwr as (Hen & Hco & Ha & [c Hc] & Hm).
  unfold handleActiveCommentChange in Hh. rewrite Hen in Hh. cbn [negb] in Hh.
  inversion Hh; subst w'; clear Hh.
  eexists _, c. split; [exact Hw'|]. split; [exact Hcur'|]. split; [exact Hcalls|].
  cbn [currentActiveComment sticky withSticky withCurrent].
  destruct (hide_result None (sticky w) c Hc) as (H1 & H2 & _ & H4 & H5).
  split; [reflexivity|]. split; [exact H1|]. split; [exact H2|]. split; [exact H4|].
  exact (H5 Hm).
Qed.

(** A fingerprint is never the empty string. *)
Lemma chainKey_nonempty opMeta ids compact :
  StickyUI.chainKey opMeta ids compact <> "".
Proof.
  unfold StickyUI.chainKey.
  match goal with
  | |- String.append ?a _ <> _ => destruct a; discriminate
  end.
Qed.

(** What [setTheme] leaves as it was. *)
Lemma setTheme_frame th colors st :
  StickyUI.container (StickyUI.setTheme th colors st) = StickyUI.container st /\
  StickyUI.isActive (StickyUI.setTheme th colors st) = StickyUI.isActive st /\
  StickyUI.page (StickyUI.setTheme th colors st) = StickyUI.page st /\
  StickyUI.currentActiveComment (StickyUI.setTheme th colors st)
  = StickyUI.currentActiveComment st /\
  StickyUI.selectors (StickyUI.setTheme th colors st) = StickyUI.selectors st /\
  Header.previousFingerprint (StickyUI.setTheme th colors st) = "".
Proof. repeat split. Qed.

(** X22.  A change of the depth, the compact mode, the theme or the manual
    colours while a comment is anchored rebuilds the header at once, with
    the new settings and for the same comment, whether or not the rows
    come out the same: [setTheme] drops the stored fingerprint first.  The
    tracker is not touched.  When the new settings leave nothing to show
    (no origin metadata and no ancestor within the depth) the header is
    hidden and the anchored comment loses its marker. *)
Theorem settings_change_rerenders changes x s w (sys : System Error) :
  ready sys ->
  ActiveComment.currentAnchored sys = Some x ->
  ActiveComment.world sys = Some w ->
  applyChanges changes (settings w) false false = (s, false, true) ->
  stickyAncestorsEnabled s = true ->
  let sys' := handleSettingsChange ver originalPost fuel Error changes "sync" sys in
  ready sys' /\
  ActiveComment.currentAnchored sys' = Some x /\
  ActiveComment.calls sys' = ActiveComment.calls sys /\
  exists w' anc c,
    ActiveComment.world sys' = Some w' /\
    StickyUI.container (sticky w) = Some c /\
    settings w' = s /\
    Chains.chainOf ver x = anc ++ [x] /\
    ((is_Some originalPost \/ StickyUI.sliceTo (stickyDepth s) anc <> []) ->
     StickyUI.container (sticky w')
     = Some (StickyUI.mkContainer true
               (Header.originRows originalPost (stickyCompact s)
                ++ Header.rowsOf ver (StickyUI.selectors (sticky w))
                     (StickyUI.sliceTo (stickyDepth s) anc) 0 (stickyCompact s))
               (StickyUI.detectRedditHeaderHeight (StickyUI.page (sticky w)))) /\
     Header.markerExact (StickyUI.page (sticky w')) (Some x)) /\
    (originalPost = None -> StickyUI.sliceTo (stickyDepth s) anc = [] ->
     StickyUI.container (sticky w') = Some (StickyUI.mkContainer false [] (StickyUI.top c)) /\
     Header.markerExact (StickyUI.page (sticky w')) None).
Proof.
  intros Hr Hcur Hw Hch Hen sys'.
  destruct Hr as (Hact & Hcb & Hwalk & w0 & Hw0 & Hwr & Hcur0 & Hidle).
  rewrite Hw in Hw0. inversion Hw0; subst w0; clear Hw0.
  destruct Hwr as (_ & Hco & Ha & [c Hc] & Hm).
  destruct (Hwalk x Hcur) as [Hcx Hrank].
  set (st1 := StickyUI.setTheme (stickyTheme s) (manualColors s) (sticky w)).
  set (w1 := withSticky st1 (withSettings s w)).
  assert (E : sys' = withWorld Error
                       (handleActiveCommentChange ver originalPost fuel (Some x) w1)
                       (withWorld Error (Some (withSettings s w)) sys)).
  { unfold sys', handleSettingsChange. cbn [String.eqb Ascii.eqb Bool.eqb negb].
    rewrite Hw, Hch, Hen. cbn [andb]. unfold rerenderStickyUI.
    cbn [currentActiveComment withSticky withSettings settings sticky].
    rewrite Hcur0, Hcur. reflexivity. }
  destruct (handle_comment x w1) as (anc & a2 & Hanc & Hco2 & Eh);
    [exact Hen|exact Hcx|exact Hco|exact Hrank|].
  cbn [settings sticky w1 withSticky withSettings] in Eh.
  destruct (setTheme_frame (stickyTheme s) (manualColors s) (sticky w))
    as (T1 & T2 & T3 & T4 & T5 & T6). fold st1 in T1, T2, T3, T4, T5, T6.
  assert (Ha1 : StickyUI.isActive st1 = true) by (rewrite T2; exact Ha).
  assert (Hc1 : StickyUI.container st1 = Some c) by (rewrite T1; exact Hc).
  assert (Hm1 : Header.markerExact (StickyUI.page st1) (StickyUI.currentActiveComment st1))
    by (rewrite T3, T4; exact Hm).
  assert (Hdiff : forall chain depth compact,
             Header.previousFingerprint st1
             <> Header.fingerprint ver st1 chain depth compact originalPost).
  { intros chain depth compact. rewrite T6. intros Habs. symmetry in Habs.
    exact (chainKey_nonempty _ _ _ Habs). }
  rewrite E, Eh.
  split.
  { split; [exact Hact|]. split; [exact Hcb|]. split; [exact Hwalk|].
    eexists. split; [reflexivity|].
    cbn [currentActiveComment withSticky withAncestors withCurrent withWorld
         ActiveComment.currentAnchored].
    split; [|split; [symmetry; exact Hcur|rewrite Hcur; discriminate]].
    unfold worldReady.
    cbn [settings ancestors sticky withSticky withAncestors withCurrent withSettings].
    destruct (render_keeps anc (stickyDepth s) (stickyCompact s) (Some x) originalPost st1)
      as [K1 K2].
    split; [exact Hen|]. split; [exact Hco2|]. split; [rewrite K1; exact Ha1|].
    split; [apply K2; rewrite Hc1; eauto|].
    destruct (HeaderFacts.render_marker ver anc (stickyDepth s) (stickyCompact s)
                (Some x) originalPost st1) as [[-> ->]|(new & -> & ->)]; [exact Hm1|].
    apply MarkerFacts.highlight_exact, Hm1. }
  split; [exact Hcur|]. split; [reflexivity|].
  eexists _, anc, c. split; [reflexivity|]. split; [exact Hc|].
  cbn [settings sticky withSticky withAncestors withCurrent withSettings].
  split; [reflexivity|]. split; [exact Hanc|]. split.
  - intros Hshow.
    destruct (HeaderFacts.render_rebuild ver anc (stickyDepth s) (stickyCompact s)
                (Some x) originalPost st1 c Ha1 Hc1 (or_introl (Hdiff _ _ _)) Hshow)
      as (R1 & _ & _ & _ & R5 & _).
    rewrite T3, T5 in R1. split; [exact R1|].
    rewrite R5. apply MarkerFacts.highlight_exact, Hm1.
  - intros Hop Hn. revert Hdiff. rewrite Hop. intros Hdiff.
    destruct (HeaderFacts.render_hides ver anc (stickyDepth s) (stickyCompact s)
                (Some x) st1 c Ha1 Hc1 (or_introl (Hdiff _ _ _)) Hn)
      as (R1 & _ & R3 & _).
    split; [exact R1|]. rewrite R3. apply MarkerFacts.highlight_exact, Hm1.
Qed.

(** What [StickyUI.destroy] leaves of an active header module. *)
Lemma destroy_result st :
  StickyUI.isActive st = true ->
  Header.markerExact (StickyUI.page st) (StickyUI.currentActiveComment st) ->
  StickyUI.isActive (StickyUI.destroy st) = false /\
  StickyUI.container (StickyUI.destroy st) = None /\
  StickyUI.currentActiveComment (StickyUI.destroy st) = None /\
  StickyUI.activeClass (StickyUI.page (StickyUI.destroy st)) = [] /\
  StickyUI.icons (StickyUI.page (StickyUI.destroy st)) = [].
Proof.
  intros Ha Hm. pose proof (HeaderFacts.destroy_exact st Hm) as Hd.
  unfold StickyUI.destroy in *. rewrite Ha in *. cbn [negb] in *.
  destruct (StickyUI.currentActiveComment st) as [cur|] eqn:Ecur; cbn in Hd |- *.
  - repeat (split; [reflexivity|]). exact Hd.
  - rewrite Ecur in *. repeat (split; [reflexivity|]). exact Hd.
Qed.

(** X23.  Switching the feature off through the settings takes everything
    down: the tracker stops listening and forgets its callback and its
    anchor without calling the callback, the header's container is
    removed, no element carries the marker, and main.js forgets the active
    comment; the caches of ancestors.js stay.  From then on a click changes
    nothing. *)
Theorem disabling_tears_down changes s r w (sys : System Error) :
  ready sys ->
  ActiveComment.world sys = Some w ->
  applyChanges changes (settings w) false false = (s, true, r) ->
  stickyAncestorsEnabled s = false ->
  let sys' := handleSettingsChange ver originalPost fuel Error changes "sync" sys in
  ActiveComment.isActive sys' = false /\
  ActiveComment.onChangeCallback sys' = None /\
  ActiveComment.currentAnchored sys' = None /\
  ActiveComment.calls sys' = ActiveComment.calls sys /\
  (exists w',
     ActiveComment.world sys' = Some w' /\
     settings w' = s /\
     currentActiveComment w' = None /\
     ancestors w' = ancestors w /\
     StickyUI.isActive (sticky w') = false /\
     StickyUI.container (sticky w') = None /\
     StickyUI.currentActiveComment (sticky w') = None /\
     StickyUI.activeClass (StickyUI.page (sticky w')) = [] /\
     StickyUI.icons (StickyUI.page (sticky w')) = []) /\
  forall how target, fst (ActiveComment.click ver body how target sys') = sys'.
Proof.
  intros Hr Hw Hch Hen sys'.
  destruct Hr as (Hact & Hcb & Hwalk & w0 & Hw0 & Hwr & Hcur0 & Hidle).
  rewrite Hw in Hw0. inversion Hw0; subst w0; clear Hw0.
  destruct Hwr as (_ & Hco & Ha & [c Hc] & Hm).
  assert (E : sys' = withWorld Error
                       (Some (withCurrent None
                                (withSticky (StickyUI.destroy (sticky w)) (withSettings s w))))
                       (ActiveComment.mkState false None None (Some (withSettings s w))
                          (ActiveComment.consoleErrors sys) (ActiveComment.calls sys))).
  { unfold sys', handleSettingsChange. cbn [String.eqb Ascii.eqb Bool.eqb negb].
    rewrite Hw, Hch. unfold updateStickyAncestors.
    cbn [ActiveComment.world withWorld settings withSettings].
    rewrite Hen. unfold ActiveComment.destroy.
    cbn [ActiveComment.isActive withWorld]. rewrite Hact. cbn [negb].
    reflexivity. }
  rewrite E. cbn [withWorld ActiveComment.isActive ActiveComment.onChangeCallback
                   ActiveComment.currentAnchored ActiveComment.calls ActiveComment.world].
  repeat (split; [reflexivity|]). split.
  - eexists. split; [reflexivity|].
    cbn [settings currentActiveComment ancestors sticky withCurrent withSticky withSettings].
    repeat (split; [reflexivity|]).
    exact (destroy_result (sticky w) Ha Hm).
  - intros how target. unfold ActiveComment.click, ActiveComment.handleCommentClick,
      ActiveComment.handleDocumentClick. cbn [ActiveComment.isActive negb orb].
    destruct how; reflexivity.
Qed.

End Page.

Lemma started_ready :
  ready Selectors.Old (Some Pages.samplePost) 9 Empty_set Sessions.started.
Proof. apply startup_ready; reflexivity. Qed.

Lemma paragraph_comment :
  ActiveComment.findCommentFromTarget Selectors.Old Pages.body Pages.paragraph
  = Some Pages.topComment.
Proof. vm_compute. reflexivity. Qed.

Lemma anchored_ready :
  ready Selectors.Old (Some Pages.samplePost) 9 Empty_set Sessions.anchored /\
  ActiveComment.currentAnchored Sessions.anchored = Some Pages.topComment.
Proof.
  split.
  - apply (click_ready Selectors.Old Pages.body (Some Pages.samplePost) 9 Empty_set);
      [exact started_ready|].
    intros x Hx. rewrite paragraph_comment in Hx. inversion Hx. simpl. lia.
  - vm_compute. reflexivity.
Qed.

Lemma clicks_keep_ready_witness :
  ready Selectors.Old (Some Pages.samplePost) 9 Empty_set
    (clicks Selectors.Old Pages.body Empty_set
       [(ActiveComment.CaptureThenBubble, Pages.paragraph);
        (ActiveComment.CaptureOnly, Pages.voteArrow);
        (ActiveComment.CaptureThenBubble, Pages.body)]
       Sessions.started).
Proof.
  apply (clicks_keep_ready Selectors.Old Pages.body (Some Pages.samplePost) 9 Empty_set
           Pages.plainPage
           [(ActiveComment.CaptureThenBubble, Pages.paragraph);
            (ActiveComment.CaptureOnly, Pages.voteArrow);
            (ActiveComment.CaptureThenBubble, Pages.body)]);
    [reflexivity|reflexivity|].
  intros how target x Hin Hx.
  repeat (apply elem_of_cons in Hin as [Hin|Hin];
          [inversion Hin; subst; vm_compute in Hx; inversion Hx; simpl; lia|]).
  inversion Hin.
Defined.

Lemma click_shows_thread_witness :
  exists w',
    ActiveComment.world
      (fst (ActiveComment.click Selectors.Old Pages.body ActiveComment.CaptureOnly
              Pages.paragraph Sessions.started)) = Some w' /\
    Main.currentActiveComment w' = Some Pages.topComment.
Proof.
  destruct (click_shows_thread Selectors.Old Pages.body (Some Pages.samplePost) 9
              Empty_set ActiveComment.CaptureOnly Pages.paragraph Pages.topComment
              Sessions.started started_ready eq_refl paragraph_comment eq_refl
              ltac:(simpl; lia))
    as (w & w' & anc & c & _ & _ & Hw' & _ & _ & Hcur & _).
  exists w'. split; assumption.
Defined.

Lemma click_releases_witness :
  exists w',
    ActiveComment.world
      (fst (ActiveComment.click Selectors.Old Pages.body ActiveComment.CaptureOnly
              Pages.paragraph Sessions.anchored)) = Some w' /\
    StickyUI.icons (StickyUI.page (Main.sticky w')) = [].
Proof.
  destruct (click_releases Selectors.Old Pages.body (Some Pages.samplePost) 9
              Empty_set ActiveComment.CaptureOnly Pages.paragraph Pages.topComment
              Sessions.anchored (proj1 anchored_ready) (proj2 anchored_ready)
              (or_introl (conj paragraph_comment eq_refl)))
    as (w' & c & Hw' & _ & _ & _ & _ & _ & _ & _ & Hi).
  exists w'. split; assumption.
Defined.

Lemma settings_change_rerenders_witness :
  exists w',
    ActiveComment.world
      (handleSettingsChange Selectors.Old (Some Pages.samplePost) 9 Empty_set
         [ChOther "unrelated"; ChDepth 2] "sync" Sessions.anchored) = Some w' /\
    stickyDepth (settings w') = 2%Z.
Proof.
  destruct (proj1 anchored_ready) as (_ & _ & _ & w & Hw & (Hen & _) & _).
  destruct (settings_change_rerenders Selectors.Old (Some Pages.samplePost) 9 Empty_set
              [ChOther "unrelated"; ChDepth 2] Pages.topComment
              (mkSettings (stickyAncestorsEnabled (settings w)) 2
                          (stickyCompact (settings w)) (stickyTheme (settings w))
                          (manualColors (settings w)))
              w Sessions.anchored (proj1 anchored_ready) (proj2 anchored_ready)
              Hw eq_refl Hen)
    as (_ & _ & _ & w' & anc & c & Hw' & _ & Hs & _).
  exists w'. split; [exact Hw'|]. rewrite Hs. reflexivity.
Defined.

Lemma disabling_tears_down_witness :
  ActiveComment.isActive
    (handleSettingsChange Selectors.Old (Some Pages.samplePost) 9 Empty_set
       [ChEnabled false] "sync" Sessions.anchored) = false.
Proof.
  destruct (proj1 anchored_ready) as (_ & _ & _ & w & Hw & _).
  destruct (disabling_tears_down Selectors.Old Pages.body (Some Pages.samplePost) 9
              Empty_set [ChEnabled false]
              (mkSettings false (stickyDepth (settings w)) (stickyCompact (settings w))
                          (stickyTheme (settings w)) (manualColors (settings w)))
              false w Sessions.anchored (proj1 anchored_ready) Hw eq_refl eq_refl)
    as (H & _).
  exact H.
Defined.

End MainFacts.
